(** * RRSv3Formation: grouping and sampling of random protein pairs

    A shallow embedding of [RRSv3Formation.py]: the loader
    [InterfaceHandling.read_in_proteins_with_network], the group builders
    [InterfaceHandling.get_domain_groups] and
    [InterfaceHandling.get_slim_groups], and the sampling engine
    [RRSv3Formation.make_random_protein_pairs_with_groups_select_RRS_instances].

    Python objects are records, Python dictionaries are association lists
    in insertion order, mutation is explicit state passing, and an
    exception stops the computation and leaves the state as it was when
    the exception was raised.  The pseudo-random generator is an explicit
    stream of draws carried in the state: every draw is arbitrary, so a
    theorem over all states covers every outcome of [random.sample]; the
    distribution of the draws is that of Python's [random] module and is
    not modelled. *)

From stdpp Require Import base list strings gmap.
From Stdlib Require Import ZArith Lia Ascii.

(** ** Python runtime *)

Inductive exn : Type := KeyError | ValueError | IndexError | OtherError.

Inductive result (A : Type) : Type :=
| Ok (a : A)
| Raise (e : exn).
Arguments Ok {A} a.
Arguments Raise {A} e.

(** A computation over a mutable state [S]: an exception keeps the state
    reached so far. *)
Definition M (S A : Type) : Type := S → result A * S.

Definition ret {S A} (a : A) : M S A := λ s, (Ok a, s).
Definition raise {S A} (e : exn) : M S A := λ s, (Raise e, s).
Definition bind {S A B} (c : M S A) (k : A → M S B) : M S B :=
  λ s, match c s with
       | (Ok a, s') => k a s'
       | (Raise e, s') => (Raise e, s')
       end.
Definition get {S} : M S S := λ s, (Ok s, s).
Definition lift_result {S A} (r : result A) : M S A := λ s, (r, s).

Notation "'let*' x ':=' c 'in' k" := (bind c (λ x, k))
  (at level 10, x pattern, c at level 100, k at level 200).

(** [for x in l: body(x)] *)
Fixpoint for_each {S A} (l : list A) (body : A → M S unit) : M S unit :=
  match l with
  | [] => ret tt
  | x :: l' => let* _ := body x in for_each l' body
  end.

(** A [dict]: keys are unique and keep their insertion order; assigning
    to a key that is present replaces the value in place. *)
Abbreviation odict K V := (list (K * V)) (only parsing).

Fixpoint dict_get `{EqDecision K} {V} (k : K) (d : odict K V) : option V :=
  match d with
  | [] => None
  | (k', v) :: d' => if decide (k = k') then Some v else dict_get k d'
  end.

Fixpoint dict_set `{EqDecision K} {V} (k : K) (v : V) (d : odict K V) : odict K V :=
  match d with
  | [] => [(k, v)]
  | (k', v') :: d' =>
      if decide (k = k') then (k, v) :: d' else (k', v') :: dict_set k v d'
  end.

Definition dict_keys {K V} (d : odict K V) : list K := d.*1.

Definition dict_mem `{EqDecision K} {V} (k : K) (d : odict K V) : bool :=
  bool_decide (is_Some (dict_get k d)).

(** [d[k].append(x)], used only where [k in d] has been tested. *)
Definition dict_append `{EqDecision K} {V} (k : K) (x : V)
    (d : odict K (list V)) : odict K (list V) :=
  match dict_get k d with
  | Some l => dict_set k (l ++ [x]) d
  | None => d
  end.

(** Truth value of a string and [any] over an iterable of strings. *)
Definition truthy (s : string) : bool :=
  match s with EmptyString => false | String _ _ => true end.

Definition any (l : list string) : bool := existsb truthy l.

(** [tuple(sorted(pp))] for a pair of strings: the sort is stable, so the
    two components are exchanged only when the second is strictly
    smaller. *)
Definition sorted_pair (pp : string * string) : string * string :=
  if String.ltb pp.2 pp.1 then (pp.2, pp.1) else (pp.1, pp.2).

(** [set(a).intersection(set(b)) == set(b)] on lists read as sets. *)
Definition set_intersection (a b : list string) : list string :=
  filter (λ x, x ∈ b) a.

Definition set_eqb (a b : list string) : bool :=
  bool_decide (a ⊆ b) && bool_decide (b ⊆ a).

(** ** The entities of DMIDB used by the engine *)

(** Modelled from the spec: class [DomainInterface] of [DMIDB.py] is not
    part of the sources.  [domain_dict] maps the domain ids of the
    interface to data the engine never reads: only its keys are kept, in
    insertion order. *)
Record DomainInterface : Type := { domain_dict : list string }.

(** Modelled from the spec: class [DMIType] of [DMIDB.py] is not part of
    the sources; the engine reads its list of domain interfaces. *)
Record DMIType : Type := { domain_interfaces : list DomainInterface }.

(** Modelled from the spec: class [Protein] of [DMIDB.py] is not part of
    the sources.  The two match dictionaries are read through their keys
    only (domain ids, slim ids), kept in insertion order. *)
Record Protein : Type := {
  domain_matches_dict : list string;
  slim_matches_dict : list string
}.

Section Engine.

(** The match objects built by the matcher are opaque to the engine. *)
Context {DMIMatch : Type}.

(** Modelled from the spec: class [ProteinPair] of [DMIDB.py] is not part
    of the sources; [dmi_matches_dict] maps a slim id to the list of the
    matches found for the pair. *)
Record ProteinPair : Type := {
  proteinA : string;
  proteinB : string;
  dmi_matches_dict : odict string (list DMIMatch)
}.

(** Modelled from the spec: the constructor [DMIDB.ProteinPair(a, b)] is
    not part of the sources; a fresh pair carries its two protein ids and
    no match yet (matches are what the matcher records afterwards). *)
Definition new_ProteinPair (a b : string) : ProteinPair :=
  {| proteinA := a; proteinB := b; dmi_matches_dict := [] |}.

(** The attributes of the [InterfaceHandling] object that the engine
    reads or writes: [domain_groups] and [slim_groups] are declared in
    [RRSv3Formation.py], the others in the base class of [DMIDB.py]
    (modelled from the spec: a dictionary of proteins, a dictionary of DMI
    types, a set of known pairs, a dictionary of candidate pairs). *)
Record InterfaceHandling : Type := {
  proteins_dict : odict string Protein;
  dmi_types_dict : odict string DMIType;
  known_PPIs : gset (string * string);
  domain_groups : odict (list string) (list string);
  slim_groups : odict string (list string);
  protein_pairs_dict : odict (string * string) ProteinPair
}.

Definition set_domain_groups (g : odict (list string) (list string))
    (ih : InterfaceHandling) : InterfaceHandling :=
  {| proteins_dict := proteins_dict ih;
     dmi_types_dict := dmi_types_dict ih;
     known_PPIs := known_PPIs ih;
     domain_groups := g;
     slim_groups := slim_groups ih;
     protein_pairs_dict := protein_pairs_dict ih |}.

Definition set_protein_pairs_dict (d : odict (string * string) ProteinPair)
    (ih : InterfaceHandling) : InterfaceHandling :=
  {| proteins_dict := proteins_dict ih;
     dmi_types_dict := dmi_types_dict ih;
     known_PPIs := known_PPIs ih;
     domain_groups := domain_groups ih;
     slim_groups := slim_groups ih;
     protein_pairs_dict := d |}.

(** An element of [self.RRS_instances]: the match object, together with
    the dictionary key and the slim id under which it was looked up. *)
Record RRSInstance : Type := {
  inst_pair : string * string;
  inst_slim : string;
  inst_match : DMIMatch
}.

(** The state a replicate runs in: the shared [InterfaceHandling] object,
    the replicate's own [RRS_instances], and the random source. *)
Record world : Type := {
  IH : InterfaceHandling;
  RRS_instances : list RRSInstance;
  rand : list nat
}.

Definition get_IH : M world InterfaceHandling := λ w, (Ok (IH w), w).

Definition assign_protein_pairs_dict
    (d : odict (string * string) ProteinPair) : M world unit :=
  λ w, (Ok tt, {| IH := set_protein_pairs_dict d (IH w);
                  RRS_instances := RRS_instances w;
                  rand := rand w |}).

(** [self.RRS_instances = self.RRS_instances + l] *)
Definition extend_RRS_instances (l : list RRSInstance) : M world unit :=
  λ w, (Ok tt, {| IH := IH w;
                  RRS_instances := RRS_instances w ++ l;
                  rand := rand w |}).

(** *** [random]

    One draw below [n] consumes the next element of the stream (an
    exhausted stream keeps answering 0). *)
Definition randbelow (n : nat) : M world nat :=
  λ w, match rand w with
       | [] => (Ok 0, w)
       | r :: rs => (Ok (r mod n), {| IH := IH w;
                                     RRS_instances := RRS_instances w;
                                     rand := rs |})
       end.

(** [k] elements at pairwise distinct positions of [pool], in the order
    drawn. *)
Fixpoint sample_loop {A} (pool : list A) (k : nat) : M world (list A) :=
  match k with
  | 0 => ret []
  | S k' =>
      let* j := randbelow (length pool) in
      match pool !! j with
      | Some x => let* rest := sample_loop (delete j pool) k' in ret (x :: rest)
      | None => raise ValueError
      end
  end.

(** [random.sample(population, k)]: [ValueError] when [k] is negative or
    larger than the population. *)
Definition random_sample {A} (population : list A) (k : Z) : M world (list A) :=
  if decide (0 ≤ k ≤ Z.of_nat (length population))%Z
  then sample_loop population (Z.to_nat k)
  else raise ValueError.

(** ** [InterfaceHandling.get_domain_groups] *)

(** The first loop, for one DMI type. *)
Definition register_domain_interfaces (groups : odict (list string) (list string))
    (dmi_type_inst : DMIType) : result (odict (list string) (list string)) :=
  if decide (1 < length (domain_interfaces dmi_type_inst)) then
    Ok (foldl (λ g domain_interface, dict_set (domain_dict domain_interface) [] g)
              groups (domain_interfaces dmi_type_inst))
  else
    match domain_interfaces dmi_type_inst with
    | [] => Raise IndexError
    | domain_interface :: _ => Ok (dict_set (domain_dict domain_interface) [] groups)
    end.

(** The second loop, for one protein. *)
Definition add_single_domain_matches (prot : string) (matches : list string)
    (groups : odict (list string) (list string)) : odict (list string) (list string) :=
  foldl (λ g domain_match_id,
           if dict_mem [domain_match_id] g
           then dict_append [domain_match_id] prot g else g)
        groups matches.

Definition add_two_domain_matches (prot : string) (matches : list string)
    (groups : odict (list string) (list string)) : odict (list string) (list string) :=
  foldl (λ g domain_group,
           if decide (length domain_group = 2) then
             if set_eqb (set_intersection matches domain_group) domain_group
             then dict_append domain_group prot g else g
           else g)
        groups (dict_keys groups).

Definition add_protein_to_groups (prot : string) (prot_inst : Protein)
    (groups : odict (list string) (list string)) : odict (list string) (list string) :=
  if any (domain_matches_dict prot_inst) then
    add_two_domain_matches prot (domain_matches_dict prot_inst)
      (add_single_domain_matches prot (domain_matches_dict prot_inst) groups)
  else groups.

(** The membership condition in the words of the specification: the
    domain of a single-domain key is in the match set; both domains of a
    two-domain key are. *)
Definition belongs (matches key : list string) : bool :=
  match key with
  | [d] => bool_decide (d ∈ matches)
  | [d1; d2] => bool_decide (d1 ∈ matches) && bool_decide (d2 ∈ matches)
  | _ => false
  end.

Definition assign_domain_groups (g : odict (list string) (list string))
  : M InterfaceHandling unit :=
  λ ih, (Ok tt, set_domain_groups g ih).

(** Lines 69-74: set up the domain groups. *)
Definition set_up_domain_groups : M InterfaceHandling unit :=
  let* ih := get in
  for_each (dmi_types_dict ih) (λ '(dmi_type, dmi_type_inst),
    let* ih := get in
    let* g := lift_result
                (register_domain_interfaces (domain_groups ih) dmi_type_inst) in
    assign_domain_groups g).

(** Lines 77-85: add proteins with domain match into their respective
    group. *)
Definition add_proteins_to_groups : M InterfaceHandling unit :=
  let* ih := get in
  for_each (proteins_dict ih) (λ '(prot, prot_inst),
    let* ih := get in
    assign_domain_groups (add_protein_to_groups prot prot_inst (domain_groups ih))).

Definition get_domain_groups : M InterfaceHandling unit :=
  let* _ := set_up_domain_groups in
  add_proteins_to_groups.

(** The proteins the specification puts in the group of [key], in load
    order; [guarded] adds the builder's test that the protein's match
    dictionary has a key with a true truth value. *)
Definition spec_members (key : list string) (proteins : odict string Protein)
  : list string :=
  (filter (λ p, belongs (domain_matches_dict p.2) key = true) proteins).*1.

Definition guarded_members (key : list string) (proteins : odict string Protein)
  : list string :=
  (filter (λ p, any (domain_matches_dict p.2) && belongs (domain_matches_dict p.2) key
                = true) proteins).*1.

(** The keys that lines 70-74 register for one DMI type: the full domain
    id list of every interface of a type with several interfaces, and of
    the first interface otherwise. *)
Definition registered_keys (dmi_type_inst : DMIType) : list (list string) :=
  if decide (1 < length (domain_interfaces dmi_type_inst))
  then domain_dict <$> domain_interfaces dmi_type_inst
  else domain_dict <$> take 1 (domain_interfaces dmi_type_inst).

Definition all_registered_keys (types : odict string DMIType) : list (list string) :=
  mjoin ((λ entry, registered_keys entry.2) <$> types).

(** Assigning an empty list to each key of a list, in order. *)
Definition register_keys `{EqDecision K} {V} (keys : list K)
    (groups : odict K (list V)) : odict K (list V) :=
  foldl (λ g key, dict_set key [] g) groups keys.

(** Every DMI type has at least one domain interface. *)
Definition types_have_interfaces (types : odict string DMIType) : bool :=
  forallb (λ entry, bool_decide (0 < length (domain_interfaces entry.2))) types.

(** ** [InterfaceHandling.get_slim_groups] *)

Definition set_slim_groups (g : odict string (list string))
    (ih : InterfaceHandling) : InterfaceHandling :=
  {| proteins_dict := proteins_dict ih;
     dmi_types_dict := dmi_types_dict ih;
     known_PPIs := known_PPIs ih;
     domain_groups := domain_groups ih;
     slim_groups := g;
     protein_pairs_dict := protein_pairs_dict ih |}.

Definition assign_slim_groups (g : odict string (list string))
  : M InterfaceHandling unit :=
  λ ih, (Ok tt, set_slim_groups g ih).

(** Lines 91-92: one empty group per DMI type. *)
Definition set_up_slim_groups : M InterfaceHandling unit :=
  let* ih := get in
  for_each (dict_keys (dmi_types_dict ih)) (λ dmi_type,
    let* ih := get in
    assign_slim_groups (dict_set dmi_type [] (slim_groups ih))).

(** Line 97: [self.slim_groups[slim_id].append(prot)]; the key is looked
    up without a test. *)
Definition append_slim_match (prot slim_id : string) : M InterfaceHandling unit :=
  let* ih := get in
  match dict_get slim_id (slim_groups ih) with
  | None => raise KeyError
  | Some members =>
      assign_slim_groups (dict_set slim_id (members ++ [prot]) (slim_groups ih))
  end.

(** Lines 94-97: add proteins with a motif match into the group of each
    of their slim ids. *)
Definition add_proteins_to_slim_groups : M InterfaceHandling unit :=
  let* ih := get in
  for_each (proteins_dict ih) (λ '(prot, prot_inst),
    if any (slim_matches_dict prot_inst)
    then for_each (slim_matches_dict prot_inst) (append_slim_match prot)
    else ret tt).

Definition get_slim_groups : M InterfaceHandling unit :=
  let* _ := set_up_slim_groups in
  add_proteins_to_slim_groups.

(** The proteins, in load order, that pass the guard of line 95 and
    carry a match of [slim_id]. *)
Definition slim_members (slim_id : string) (proteins : odict string Protein)
  : list string :=
  (filter (λ p, any (slim_matches_dict p.2)
                && bool_decide (slim_id ∈ slim_matches_dict p.2) = true) proteins).*1.

(** The slim ids line 97 looks up: those of the proteins that pass the
    guard. *)
Definition looked_up_slim_ids (proteins : odict string Protein) : list string :=
  mjoin ((λ p, if any (slim_matches_dict p.2) then slim_matches_dict p.2 else [])
         <$> proteins).

(** ** [RRSv3Formation.make_random_protein_pairs_with_groups_select_RRS_instances] *)

(** [DMIDB.InterfaceHandling.find_DMI_matches] is not part of the sources:
    the matcher is a parameter, a method of the shared object that may
    change it and may raise. *)
Variable find_DMI_matches : M InterfaceHandling unit.

Definition call_find_DMI_matches : M world unit :=
  λ w, let '(r, ih') := find_DMI_matches (IH w) in
       (r, {| IH := ih'; RRS_instances := RRS_instances w; rand := rand w |}).

(** The entries of [domains]: a plain string for each interface of a type
    with several interfaces, the list of all domain ids for the interface
    of a type with one. *)
Definition first_domain (domain_interface : DomainInterface)
  : result (string + list string) :=
  match domain_dict domain_interface with
  | [] => Raise IndexError
  | d :: _ => Ok (inl d)
  end.

Fixpoint first_domains (l : list DomainInterface)
  : result (list (string + list string)) :=
  match l with
  | [] => Ok []
  | domain_interface :: l' =>
      match first_domain domain_interface with
      | Raise e => Raise e
      | Ok d => match first_domains l' with
                | Raise e => Raise e
                | Ok ds => Ok (d :: ds)
                end
      end
  end.

Definition domains_of (dmi_type_inst : DMIType) : result (list (string + list string)) :=
  if decide (1 < length (domain_interfaces dmi_type_inst)) then
    first_domains (domain_interfaces dmi_type_inst)
  else
    match domain_interfaces dmi_type_inst with
    | [] => Raise IndexError
    | domain_interface :: _ => Ok [inr (domain_dict domain_interface)]
    end.

(** [tuple([domain])] when [type(domain) == str], [tuple(domain)] otherwise. *)
Definition group_key (domain : string + list string) : list string :=
  match domain with
  | inl d => [d]
  | inr ds => ds
  end.

(** Lines 137-140: the pairs drawn for one domain interface. *)
Definition draw_protein_pairs (domain_prots slim_prots : list string)
  : M world (list (string * string)) :=
  if decide (50 < length (list_prod domain_prots slim_prots))
  then random_sample (list_prod domain_prots slim_prots) 50
  else ret (list_prod domain_prots slim_prots).

(** Lines 142-144: one drawn pair enters the candidate dictionary. *)
Definition add_candidate (pp : string * string) : M world unit :=
  let pp := sorted_pair pp in
  let* ih := get_IH in
  if decide (pp ∉ known_PPIs ih)
  then assign_protein_pairs_dict
         (dict_set pp (new_ProteinPair pp.1 pp.2) (protein_pairs_dict ih))
  else ret tt.

(** [self.RRS_instances + random.sample(protpair_inst.dmi_matches_dict[slim_id], 1)] *)
Definition sample_one_instance (slim_id : string) (protpair : string * string)
    (protpair_inst : ProteinPair) : M world unit :=
  match dict_get slim_id (dmi_matches_dict protpair_inst) with
  | None => raise KeyError
  | Some dmi_matches =>
      let* one := random_sample dmi_matches 1 in
      extend_RRS_instances
        (map (λ m, {| inst_pair := protpair; inst_slim := slim_id; inst_match := m |}) one)
  end.

(** Lines 146-151: the selection step. *)
Definition select_RRS_instances (slim_id : string) (number_instances : Z)
  : M world unit :=
  let* ih := get_IH in
  if decide (number_instances ≤ Z.of_nat (length (protein_pairs_dict ih)))%Z then
    let* chosen := random_sample (dict_keys (protein_pairs_dict ih)) number_instances in
    for_each chosen (λ protpair,
      let* ih := get_IH in
      match dict_get protpair (protein_pairs_dict ih) with
      | None => raise KeyError
      | Some protpair_inst => sample_one_instance slim_id protpair protpair_inst
      end)
  else
    for_each (protein_pairs_dict ih) (λ '(protpair, protpair_inst),
      sample_one_instance slim_id protpair protpair_inst).

(** Lines 136-151: pairing, matching and selection for one domain group
    and one motif group. *)
Definition round_with_groups (slim_id : string) (domain_prots slim_prots : list string)
    (number_instances : Z) : M world unit :=
  if any domain_prots && any slim_prots then
    let* random_protein_pair := draw_protein_pairs domain_prots slim_prots in
    let* _ := for_each random_protein_pair add_candidate in
    let* _ := call_find_DMI_matches in
    select_RRS_instances slim_id number_instances
  else ret tt.

(** Lines 132-151: the body of [for domain in domains]. *)
Definition interface_round (slim_id : string) (slim_prots : list string)
    (number_instances : Z) (domain : string + list string) : M world unit :=
  let* ih := get_IH in
  match dict_get (group_key domain) (domain_groups ih) with
  | None => raise KeyError
  | Some domain_prots =>
      round_with_groups slim_id domain_prots slim_prots number_instances
  end.

(** Lines 123-151: the body of the loop over [slim_groups.items()]. *)
Definition dmi_type_round (number_instances : Z) (item : string * list string)
  : M world unit :=
  let* _ := assign_protein_pairs_dict [] in
  let* ih := get_IH in
  match dict_get item.1 (dmi_types_dict ih) with
  | None => raise KeyError
  | Some dmi_type_inst =>
      let* domains := lift_result (domains_of dmi_type_inst) in
      for_each domains (interface_round item.1 item.2 number_instances)
  end.

Definition make_random_protein_pairs_with_groups_select_RRS_instances
    (number_instances : Z) : M world unit :=
  let* ih := get_IH in
  for_each (slim_groups ih) (dmi_type_round number_instances).

(** Modelled from the spec: [RRSFormation.__init__] is not part of the
    sources; a new replicate object starts with an empty instance
    collection. *)
Definition new_RRS_instances : list RRSInstance := [].

(** Lines 178-181: one replicate per label, each on a new
    [RRSv3Formation] object; an uncaught exception ends the run.
    [write_out_RRS_instances] is not part of the sources: it is taken to
    hand the label and the collection of the replicate to the serializer
    and to change nothing. *)
Fixpoint run_replicates (number_instances : Z) (RRS_version : list string)
    (ih : InterfaceHandling) (rng : list nat)
  : result (list (string * list RRSInstance)) * InterfaceHandling * list nat :=
  match RRS_version with
  | [] => (Ok [], ih, rng)
  | RRS :: rest =>
      match make_random_protein_pairs_with_groups_select_RRS_instances number_instances
              {| IH := ih; RRS_instances := new_RRS_instances; rand := rng |} with
      | (Raise e, w) => (Raise e, IH w, rand w)
      | (Ok _, w) =>
          match run_replicates number_instances rest (IH w) (rand w) with
          | (Ok written, ih', rng') => (Ok ((RRS, RRS_instances w) :: written), ih', rng')
          | (Raise e, ih', rng') => (Raise e, ih', rng')
          end
      end
  end.

(** ** What is specified of the matcher

    Modelled from the spec: [find_DMI_matches] is not part of the
    sources.  The specification says of the matcher that the entities and
    the group indexes are read-only once built, that its result maps
    candidate pairs to their matches, and that only pairs with at least
    one match are present in its result. *)

Definition shared_eq (ih ih' : InterfaceHandling) : Prop :=
  proteins_dict ih' = proteins_dict ih ∧
  dmi_types_dict ih' = dmi_types_dict ih ∧
  known_PPIs ih' = known_PPIs ih ∧
  domain_groups ih' = domain_groups ih ∧
  slim_groups ih' = slim_groups ih.

(** The matcher leaves the entities and the group indexes alone. *)
Definition matcher_frame : Prop :=
  ∀ ih, shared_eq ih (find_DMI_matches ih).2.

(** The matcher adds no key to the candidate dictionary. *)
Definition matcher_adds_no_pair : Prop :=
  ∀ ih, dict_keys (protein_pairs_dict (find_DMI_matches ih).2)
        ⊆ dict_keys (protein_pairs_dict ih).

(** A pair has a recorded match for a DMI type when its match dictionary
    holds a non-empty list under the slim id; [all_matched] says so of
    every pair of a candidate dictionary, and [matched_count] counts the
    pairs that have one. *)
Definition has_match (slim_id : string) (protpair_inst : ProteinPair) : bool :=
  match dict_get slim_id (dmi_matches_dict protpair_inst) with
  | Some (_ :: _) => true
  | _ => false
  end.

Definition all_matched (slim_id : string)
    (d : odict (string * string) ProteinPair) : bool :=
  forallb (λ entry, has_match slim_id entry.2) d.

Definition matched_count (slim_id : string)
    (d : odict (string * string) ProteinPair) : nat :=
  length (filter (λ entry, has_match slim_id entry.2 = true) d).

(** An instance was drawn from an entry of the dictionary [d]: it carries
    the entry's key and one of the matches the entry lists for the type. *)
Definition drawn_from (slim_id : string)
    (d : odict (string * string) ProteinPair) (i : RRSInstance) : Prop :=
  inst_slim i = slim_id ∧
  ∃ protpair_inst dmi_matches,
    (inst_pair i, protpair_inst) ∈ d ∧
    dict_get slim_id (dmi_matches_dict protpair_inst) = Some dmi_matches ∧
    inst_match i ∈ dmi_matches.

End Engine.

(** ** [InterfaceHandling.read_in_proteins_with_network] *)

(** [s.split(sep)] for a separator of one character: the string is cut
    at every occurrence of the separator, and the result has at least one
    element. *)
Fixpoint split (sep : Ascii.ascii) (s : string) : list string :=
  match s with
  | EmptyString => [EmptyString]
  | String c s' =>
      if Ascii.eqb c sep then EmptyString :: split sep s'
      else match split sep s' with
           | [] => [String c EmptyString]
           | part :: parts => String c part :: parts
           end
  end.

(** The number of occurrences of a character. *)
Fixpoint count_char (c : Ascii.ascii) (s : string) : nat :=
  match s with
  | EmptyString => 0
  | String c' s' => (if Ascii.eqb c' c then 1 else 0) + count_char c s'
  end.

(** [file_name.split('/')[-1]] *)
Definition file_of_path (file_name : string) : string :=
  List.last (split "/"%char file_name) EmptyString.

(** Line 45: [prot_file.split('_')[0]] *)
Definition network_protein_id (file_name : string) : string :=
  hd EmptyString (split "_"%char (file_of_path file_name)).

(** Line 51: [prot_id, _ = prot_file.split('.')]; the unpacking raises
    [ValueError] unless the split has exactly two elements. *)
Definition sequence_protein_id (file_name : string) : result string :=
  match split "."%char (file_of_path file_name) with
  | [prot_id; _] => Ok prot_id
  | _ => Raise ValueError
  end.

Section Loader.
Context {DMIMatch : Type}.

(** The directories are attributes set by the constructor of the base
    class; the file system is read through [glob.glob] and through
    [open], [readlines] and [strip]; [Protein(protein_id)] and the
    attribute [sequence] belong to class [Protein].  None of these is part
    of the sources: they are parameters. *)
Variable network_path prot_path : string.
Variable glob : string → list string.
Variable read_lines : string → result (list string).
Variable new_Protein : string → Protein.
Variable set_sequence : string → Protein → Protein.

Definition set_proteins_dict (d : odict string Protein)
    (ih : @InterfaceHandling DMIMatch) : @InterfaceHandling DMIMatch :=
  {| proteins_dict := d;
     dmi_types_dict := dmi_types_dict ih;
     known_PPIs := known_PPIs ih;
     domain_groups := domain_groups ih;
     slim_groups := slim_groups ih;
     protein_pairs_dict := protein_pairs_dict ih |}.

(** Lines 40-46: the ids of the proteins with network information. *)
Definition proteins_with_networks : gset string :=
  list_to_set (network_protein_id <$> glob (network_path +:+ "/*")).

(** The state of the second loop: the object, and the local variable
    [protein_id], which is unbound until a header line has been read and
    is kept from one file to the next. *)
Record loader_state : Type := {
  self : @InterfaceHandling DMIMatch;
  protein_id : option string
}.

(** Lines 56-61, for one line: [line[0]] raises [IndexError] on an empty
    line; a sequence line read while [protein_id] is unbound raises
    [UnboundLocalError], rendered as [OtherError]. *)
Definition read_line (line : string) : M loader_state unit :=
  λ st,
    match line with
    | EmptyString => (Raise IndexError, st)
    | String c rest =>
        if Ascii.eqb c ">"%char then
          (Ok tt,
           {| self := set_proteins_dict
                        (dict_set rest (new_Protein rest) (proteins_dict (self st)))
                        (self st);
              protein_id := Some rest |})
        else
          match protein_id st with
          | None => (Raise OtherError, st)
          | Some id =>
              match dict_get id (proteins_dict (self st)) with
              | None => (Raise KeyError, st)
              | Some prot_inst =>
                  (Ok tt,
                   {| self := set_proteins_dict
                                (dict_set id (set_sequence line prot_inst)
                                   (proteins_dict (self st)))
                                (self st);
                      protein_id := protein_id st |})
              end
          end
    end.

(** Lines 50-61, for one file of the sequence directory. *)
Definition read_sequence_file (file_name : string) : M loader_state unit :=
  let* prot_id := lift_result (sequence_protein_id file_name) in
  if decide (prot_id ∈ proteins_with_networks) then
    let* lines := lift_result (read_lines file_name) in
    for_each lines read_line
  else ret tt.

(** Lines 40-61; the final [print] is not modelled. *)
Definition read_in_proteins_with_network : M (@InterfaceHandling DMIMatch) unit :=
  λ ih,
    let '(r, st) := for_each (glob (prot_path +:+ "/*")) read_sequence_file
                      {| self := ih; protein_id := None |} in
    (r, self st).

(** A line of a sequence file that is neither empty nor a header. *)
Definition sequence_line (line : string) : bool :=
  match line with
  | EmptyString => false
  | String c _ => negb (Ascii.eqb c ">"%char)
  end.

End Loader.

(** ** State invariants and relations used in the proofs *)

(** [c] keeps the state invariant [I], whether it returns or raises. *)
Definition preserves {S A} (I : S → Prop) (c : M S A) : Prop :=
  ∀ s, I s → I (c s).2.

Section Invariants.
Context {DMIMatch : Type}.
Implicit Types w : @world DMIMatch.
Implicit Types ih : @InterfaceHandling DMIMatch.

(** Two states that differ in the random source only. *)
Definition same_objects w w' : Prop :=
  IH w' = IH w ∧ RRS_instances w' = RRS_instances w.

(** An invariant that does not read the random source is kept by the
    sampling primitives. *)
Definition rand_blind (I : @world DMIMatch → Prop) : Prop :=
  ∀ w w', same_objects w w' → I w → I w'.

(** The shared indexes are those of [ih]. *)
Definition frame_inv ih : world → Prop := λ w, shared_eq ih (IH w).

(** Two runs on the same shared object and random source, whose
    collections are two starts [R1] and [R2] extended alike. *)
Definition coupled (R1 R2 : list (@RRSInstance DMIMatch)) w1 w2 : Prop :=
  IH w1 = IH w2 ∧ rand w1 = rand w2 ∧
  ∃ added, RRS_instances w1 = R1 ++ added ∧ RRS_instances w2 = R2 ++ added.

Definition oblivious {A} (c : M world A) : Prop :=
  ∀ R1 R2 w1 w2, coupled R1 R2 w1 w2 →
    (c w1).1 = (c w2).1 ∧ coupled R1 R2 (c w1).2 (c w2).2.

(** Keys that are sorted and are not known PPIs; the collection started
    as [R0] and was extended with instances drawn from such keys only;
    the candidate dictionary holds such keys only. *)
Definition canonical_unknown (K : gset (string * string)) (k : string * string) : Prop :=
  (k ∉ K) ∧ sorted_pair k = k.

Definition excl_inv (K : gset (string * string)) (R0 : list (@RRSInstance DMIMatch))
  : world → Prop :=
  λ w, known_PPIs (IH w) = K ∧
       (∃ added, RRS_instances w = R0 ++ added ∧
                 Forall (λ i, canonical_unknown K (inst_pair i)) added).

Definition pool_inv (K : gset (string * string)) ih : Prop :=
  ∀ k, k ∈ dict_keys (protein_pairs_dict ih) → canonical_unknown K k.

Definition round_inv K R0 : world → Prop :=
  λ w, (excl_inv K R0 w ∧ pool_inv K (IH w)).

(** What a computation appends to the collection, on every state and
    whether it returns or raises: at most [c] instances, all of which
    satisfy [P]. *)
Definition appends_at_most {A} (c : nat) (P : @RRSInstance DMIMatch → Prop)
    (m : M world A) : Prop :=
  ∀ w, ∃ added, RRS_instances (m w).2 = RRS_instances w ++ added ∧
                length added ≤ c ∧ Forall P added.

(** The number of domain interfaces of the DMI type of a slim id. *)
Definition interface_count ih (slim_id : string) : nat :=
  match dict_get slim_id (dmi_types_dict ih) with
  | Some dmi_type_inst => length (domain_interfaces dmi_type_inst)
  | None => 0
  end.

(** The outcome of the lookups of lines 124-135 for a slim id, taken on
    their own: [KeyError] when the slim id is not a DMI type id, the
    exception of the listing of the domains when that fails, [KeyError]
    when the key of one of the domains is not a key of the domain groups. *)
Definition lookup_outcome ih (slim_id : string) : result unit :=
  match dict_get slim_id (dmi_types_dict ih) with
  | None => Raise KeyError
  | Some dmi_type_inst =>
      match domains_of dmi_type_inst with
      | Raise e => Raise e
      | Ok domains =>
          if forallb (λ domain, dict_mem (group_key domain) (domain_groups ih)) domains
          then Ok tt else Raise KeyError
      end
  end.

End Invariants.

(** * Worked scenarios *)

(** A matcher that records one match of type ELM001 on every pair of the
    candidate dictionary and prunes nothing. *)
Definition example_matcher : M (@InterfaceHandling string) unit :=
  λ ih, (Ok tt,
         set_protein_pairs_dict
           ((λ entry, (entry.1,
                       {| proteinA := proteinA entry.2;
                          proteinB := proteinB entry.2;
                          dmi_matches_dict := [("ELM001", ["match"])] |}))
              <$> protein_pairs_dict ih) ih).

(** The scenario of the specification: one type with one interface,
    three domain proteins, two motif proteins, one known PPI. *)
Definition scenario_IH : @InterfaceHandling string :=
  {| proteins_dict := [];
     dmi_types_dict := [("ELM001", {| domain_interfaces := [{| domain_dict := ["PF001"] |}] |})];
     known_PPIs := {[ ("P2", "P4") ]};
     domain_groups := [(["PF001"], ["P1"; "P2"; "P3"])];
     slim_groups := [("ELM001", ["P4"; "P5"])];
     protein_pairs_dict := [] |}.

Definition scenario_world (rng : list nat) : @world string :=
  {| IH := scenario_IH; RRS_instances := []; rand := rng |}.

(** One type with two domain interfaces, one protein in each domain
    group and one motif protein. *)
Definition two_interface_IH : @InterfaceHandling string :=
  {| proteins_dict := [];
     dmi_types_dict :=
       [("ELM001", {| domain_interfaces := [{| domain_dict := ["PF001"] |};
                                            {| domain_dict := ["PF002"] |}] |})];
     known_PPIs := ∅;
     domain_groups := [(["PF001"], ["P1"]); (["PF002"], ["P2"])];
     slim_groups := [("ELM001", ["P4"])];
     protein_pairs_dict := [] |}.

Definition matched_pair (a b : string) : (string * string) * @ProteinPair string :=
  ((a, b), {| proteinA := a; proteinB := b;
              dmi_matches_dict := [("ELM001", ["match"])] |}).

Definition unmatched_pair (a b : string) : (string * string) * @ProteinPair string :=
  ((a, b), new_ProteinPair a b).

(** Three matched pairs, as the matcher of the specification's scenario
    reports them. *)
Definition three_matched_IH : @InterfaceHandling string :=
  set_protein_pairs_dict
    [matched_pair "P1" "P4"; matched_pair "P1" "P5"; matched_pair "P3" "P4"]
    scenario_IH.

(** One candidate pair without any match. *)
Definition one_unmatched_IH : @InterfaceHandling string :=
  set_protein_pairs_dict [unmatched_pair "P1" "P4"] scenario_IH.

(** A protein whose only domain id is the empty string, and a DMI type
    whose interface is that domain. *)
Definition empty_id_IH : @InterfaceHandling string :=
  {| proteins_dict := [("P1", {| domain_matches_dict := [""]; slim_matches_dict := [] |})];
     dmi_types_dict := [("ELM001", {| domain_interfaces := [{| domain_dict := [""] |}] |})];
     known_PPIs := ∅;
     domain_groups := [];
     slim_groups := [];
     protein_pairs_dict := [] |}.



(** Two proteins and three registered keys. *)
Definition groups_IH : @InterfaceHandling string :=
  {| proteins_dict :=
       [("P1", {| domain_matches_dict := ["PF001"; "PF002"]; slim_matches_dict := [] |});
        ("P2", {| domain_matches_dict := ["PF002"]; slim_matches_dict := [] |})];
     dmi_types_dict := [];
     known_PPIs := ∅;
     domain_groups := [(["PF001"], []); (["PF002"], []); (["PF001"; "PF002"], [])];
     slim_groups := [];
     protein_pairs_dict := [] |}.


Definition empty_domain_group_world : @world string :=
  {| IH := set_domain_groups [(["PF001"], [])] scenario_IH;
     RRS_instances := []; rand := [] |}.

(** Three proteins with domain and motif matches and two DMI types, the
    second with two interfaces of one domain id each; no group has been
    built yet. *)
Definition unbuilt_IH : @InterfaceHandling string :=
  {| proteins_dict :=
       [("P1", {| domain_matches_dict := ["PF001"; "PF002"];
                  slim_matches_dict := ["ELM001"] |});
        ("P2", {| domain_matches_dict := ["PF002"]; slim_matches_dict := [] |});
        ("P3", {| domain_matches_dict := [];
                  slim_matches_dict := ["ELM001"; "ELM002"] |})];
     dmi_types_dict :=
       [("ELM001", {| domain_interfaces := [{| domain_dict := ["PF001"] |}] |});
        ("ELM002", {| domain_interfaces := [{| domain_dict := ["PF001"] |};
                                            {| domain_dict := ["PF002"] |}] |})];
     known_PPIs := ∅;
     domain_groups := [];
     slim_groups := [];
     protein_pairs_dict := [] |}.

(** The same, with domain groups left over from an earlier build: a
    stale member under a key that the types register, and a key that no
    type registers. *)
Definition stale_groups_IH : @InterfaceHandling string :=
  set_domain_groups [(["PF001"], ["P9"]); (["PF777"], ["P8"])] unbuilt_IH.

(** A DMI type with two interfaces, the first of two domain ids; one
    protein carries both domains and one carries the motif. *)
Definition two_domain_interface_IH : @InterfaceHandling string :=
  {| proteins_dict :=
       [("P1", {| domain_matches_dict := ["PF003"; "PF004"; "PF005"];
                  slim_matches_dict := [] |});
        ("P4", {| domain_matches_dict := []; slim_matches_dict := ["ELM003"] |})];
     dmi_types_dict :=
       [("ELM003", {| domain_interfaces := [{| domain_dict := ["PF003"; "PF004"] |};
                                            {| domain_dict := ["PF005"] |}] |})];
     known_PPIs := ∅;
     domain_groups := [];
     slim_groups := [];
     protein_pairs_dict := [] |}.

(** The state in which the replicates run: both builders have run, in
    the order of the main program. *)
Definition built (ih : @InterfaceHandling string) : @InterfaceHandling string :=
  (get_slim_groups (get_domain_groups ih).2).2.

(** A file system with one network file and two files in the sequence
    directory, one of them without a dot in its name; a protein
    constructor that starts with no match, and a sequence attribute that
    the record does not show. *)
Definition example_glob (pattern : string) : list string :=
  if String.eqb pattern "networks/*" then ["networks/P1_network.txt"]
  else if String.eqb pattern "sequences/*"
       then ["sequences/P1.fasta"; "sequences/README"]
       else [].

Definition example_read_lines (file_name : string) : result (list string) :=
  if String.eqb file_name "sequences/P1.fasta"
  then Ok [">P1"; "MKV"; "LLA"] else Raise OtherError.

Definition example_new_Protein (protein_id : string) : Protein :=
  {| domain_matches_dict := []; slim_matches_dict := [] |}.

Definition example_set_sequence (line : string) (prot_inst : Protein) : Protein :=
  prot_inst.

(** * Properties *)

(** ** The runtime *)

Lemma bind_ok {S A B} (c : M S A) (k : A → M S B) s a s' :
  c s = (Ok a, s') → bind c k s = k a s'.
Proof. unfold bind. by intros ->. Qed.

Lemma bind_raise {S A B} (c : M S A) (k : A → M S B) s e s' :
  c s = (Raise e, s') → bind c k s = (Raise e, s').
Proof. unfold bind. by intros ->. Qed.

(** A state invariant kept by every iteration is kept by the loop,
    whether it completes or is stopped by an exception. *)
Lemma for_each_inv {S A} (I : S → Prop) (l : list A) (body : A → M S unit) :
  (∀ x s, x ∈ l → I s → I (body x s).2) →
  ∀ s, I s → I (for_each l body s).2.
Proof.
  induction l as [|x l IH]; intros Hbody s Hs; simpl; [done|].
  unfold bind. specialize (Hbody x s) as Hx.
  destruct (body x s) as [[[]|e] s1] eqn:E; simpl in *.
  - apply IH; [|apply Hx; [left|done]].
    intros y s2 Hy. apply Hbody. by right.
  - apply Hx; [left|done].
Qed.

Lemma dict_get_Some_elem `{EqDecision K} {V} (k : K) (d : odict K V) v :
  dict_get k d = Some v → (k, v) ∈ d.
Proof.
  induction d as [|[k' v'] d IH]; simpl; [done|].
  case_decide; intros ?; simplify_eq; [left|right; auto].
Qed.

Lemma dict_get_is_Some `{EqDecision K} {V} (k : K) (d : odict K V) :
  is_Some (dict_get k d) ↔ k ∈ dict_keys d.
Proof.
  unfold dict_keys. induction d as [|[k' v'] d IH]; simpl.
  - split; [by intros [? ?]|by intros ?%elem_of_nil].
  - case_decide; subst.
    + split; [intros _; left|eauto].
    + rewrite IH. split; [by right|].
      intros [?|?]%elem_of_cons; [done|done].
Qed.

Lemma dict_get_NoDup `{EqDecision K} {V} (k : K) (d : odict K V) v :
  NoDup (dict_keys d) → (k, v) ∈ d → dict_get k d = Some v.
Proof.
  unfold dict_keys. induction d as [|[k' v'] d IH]; simpl.
  - by intros _ ?%elem_of_nil.
  - intros [Hk' Hd]%NoDup_cons [Heq|Hin]%elem_of_cons.
    + simplify_eq. by rewrite decide_True.
    + case_decide; [|auto]. subst. destruct Hk'.
      apply list_elem_of_fmap. by exists (k', v).
Qed.

Lemma dict_keys_set `{EqDecision K} {V} (k : K) (v : V) (d : odict K V) x :
  x ∈ dict_keys (dict_set k v d) ↔ x = k ∨ x ∈ dict_keys d.
Proof.
  unfold dict_keys. induction d as [|[k' v'] d IH]; simpl.
  - rewrite list_elem_of_singleton. split; [auto|]. intros [?|?%elem_of_nil]; done.
  - case_decide; subst; simpl; rewrite !elem_of_cons; [tauto|].
    rewrite IH. tauto.
Qed.

Lemma dict_get_set `{EqDecision K} {V} (k k' : K) (v : V) (d : odict K V) :
  dict_get k (dict_set k' v d) = if decide (k = k') then Some v else dict_get k d.
Proof.
  induction d as [|[k1 v1] d IHd]; simpl.
  - by repeat case_decide.
  - repeat (case_decide; simpl; simplify_eq); try done.
Qed.

Lemma dict_keys_set_present `{EqDecision K} {V} (k : K) (v : V) (d : odict K V) :
  is_Some (dict_get k d) → dict_keys (dict_set k v d) = dict_keys d.
Proof.
  unfold dict_keys. induction d as [|[k1 v1] d IHd]; simpl.
  - by intros [? ?].
  - case_decide; simpl; subst; [done|]. intros Hs. f_equal. by apply IHd.
Qed.

Lemma dict_get_append `{EqDecision K} {V} (k k' : K) (x : V) (d : odict K (list V)) :
  dict_get k (dict_append k' x d) =
  if decide (k = k') then (λ l, l ++ [x]) <$> dict_get k d else dict_get k d.
Proof.
  unfold dict_append. case_decide; subst.
  - destruct (dict_get k' d) eqn:E; simpl; [|done].
    by rewrite dict_get_set, decide_True.
  - destruct (dict_get k' d); [|done]. by rewrite dict_get_set, decide_False.
Qed.

Lemma dict_keys_append `{EqDecision K} {V} (k : K) (x : V) (d : odict K (list V)) :
  dict_keys (dict_append k x d) = dict_keys d.
Proof.
  unfold dict_append. destruct (dict_get k d) eqn:E; [|done].
  apply dict_keys_set_present. by rewrite E.
Qed.

(** ** [random.sample] *)

Section Sampling.
Context {DMIMatch : Type}.
Implicit Types w : @world DMIMatch.

Lemma randbelow_spec n w :
  ∃ j w', randbelow n w = (Ok j, w') ∧ same_objects w w' ∧ (0 < n → j < n).
Proof.
  unfold randbelow. destruct (rand w) as [|r rs].
  - exists 0, w. repeat split; auto.
  - eexists _, _. repeat split; simpl; auto.
    intros ?. apply Nat.mod_upper_bound. lia.
Qed.

Lemma sample_loop_spec {A} (pool : list A) k w :
  k ≤ length pool →
  ∃ out w', sample_loop pool k w = (Ok out, w') ∧ same_objects w w' ∧
            length out = k ∧ out ⊆+ pool.
Proof.
  revert pool w. induction k as [|k IHk]; intros pool w Hk; simpl.
  - exists [], w. repeat split; auto. apply submseteq_nil_l.
  - destruct (randbelow_spec (length pool) w) as (j & w1 & Hj & [Hih1 Hr1] & Hlt).
    rewrite (bind_ok _ _ _ _ _ Hj).
    destruct (lookup_lt_is_Some_2 pool j) as [x Hx]; [apply Hlt; lia|].
    rewrite Hx.
    destruct (IHk (delete j pool) w1) as (out & w2 & Hs & [Hih2 Hr2] & Hlen & Hsub).
    { rewrite length_delete; [lia|eauto]. }
    rewrite (bind_ok _ _ _ _ _ Hs). exists (x :: out), w2.
    repeat split; simpl; [congruence|congruence|lia|].
    rewrite (delete_Permutation pool j x Hx). by apply submseteq_skip.
Qed.

Lemma random_sample_spec {A} (population : list A) (k : nat) w :
  k ≤ length population →
  ∃ out w', random_sample population (Z.of_nat k) w = (Ok out, w') ∧
            same_objects w w' ∧ length out = k ∧ out ⊆+ population.
Proof.
  intros Hk. unfold random_sample. rewrite decide_True by lia.
  rewrite Nat2Z.id. by apply sample_loop_spec.
Qed.

Lemma random_sample_raise {A} (population : list A) (k : Z) w :
  ¬ (0 ≤ k ≤ Z.of_nat (length population))%Z →
  random_sample population k w = (Raise ValueError, w).
Proof. intros Hk. unfold random_sample. by rewrite decide_False. Qed.

(** The first draw decides the first element of a sample. *)
Lemma sample_loop_first {A} (pool : list A) k j x w :
  pool !! j = Some x → rand w = [j] →
  ∃ out w', sample_loop pool (S k) w = (Ok (x :: out), w') ∨
            sample_loop pool (S k) w = (Raise ValueError, w').
Proof.
  intros Hx Hr. simpl. unfold bind, randbelow. rewrite Hr.
  rewrite Nat.mod_small by (by eapply lookup_lt_Some). rewrite Hx.
  match goal with |- context [sample_loop ?p k ?w1] =>
    destruct (sample_loop p k w1) as [[out|e] w2] eqn:E end.
  - exists out, w2. by left.
  - exists [], w2. right.
    (* the remaining draws only ever raise [ValueError] *)
    revert E. clear. generalize (delete j pool) as p.
    match goal with |- ∀ p, sample_loop p k ?w1 = _ → _ => generalize w1 end.
    induction k as [|k IHk]; intros w1 p; simpl; [done|].
    unfold bind. destruct (randbelow (length p) w1) as [[i|e'] w3] eqn:Ei.
    + destruct (p !! i); [|by intros [= <- <-]].
      destruct (sample_loop (delete i p) k w3) as [[o|e''] w4] eqn:E'; [done|].
      intros [= <- <-]. f_equal. apply IHk in E'. congruence.
    + unfold randbelow in Ei. by destruct (rand w1).
Qed.

End Sampling.

(** ** Canonical pairs *)

Lemma sorted_pair_swap (a b : string) : sorted_pair (a, b) = sorted_pair (b, a).
Proof.
  unfold sorted_pair, String.ltb; simpl.
  rewrite (String.compare_antisym a b).
  destruct (String.compare b a) eqn:E; simpl; try done.
  apply String.compare_eq_iff in E. by subst.
Qed.

Lemma sorted_pair_idemp (pp : string * string) :
  sorted_pair (sorted_pair pp) = sorted_pair pp.
Proof.
  destruct pp as [a b]. unfold sorted_pair, String.ltb; simpl.
  destruct (String.compare b a) eqn:E; simpl; rewrite ?E; try done.
  by rewrite (String.compare_antisym a b), E.
Qed.

Section Rounds.
Context {DMIMatch : Type}.
Variable find_DMI_matches : M (@InterfaceHandling DMIMatch) unit.
Implicit Types w : @world DMIMatch.

(** C5 (canonicalization).  The two orders of a drawn pair are sorted to
    the same tuple, and entering [(a, b)] into the candidate dictionary
    has the same outcome, on every state, as entering [(b, a)]: the
    known-PPI test and the stored key both use the sorted tuple. *)
Theorem candidate_pair_order_independent (a b : string) w :
  sorted_pair (a, b) = sorted_pair (b, a) ∧
  add_candidate (a, b) w = add_candidate (b, a) w.
Proof.
  split; [apply sorted_pair_swap|].
  unfold add_candidate. by rewrite (sorted_pair_swap a b).
Qed.

(** C4 (cap respect).  The pairs drawn for one domain interface always
    come back without an exception; they are at most 50; they sit at
    pairwise distinct positions of the Cartesian product of the two
    groups; when the product has more than 50 pairs they are exactly 50,
    the result of one call of [random.sample] on the whole product; and
    they are the whole product, in order and with no draw consumed, when
    it has at most 50. *)
Theorem draw_protein_pairs_cap (domain_prots slim_prots : list string) w :
  ∃ pairs w',
    draw_protein_pairs domain_prots slim_prots w = (Ok pairs, w') ∧
    same_objects w w' ∧
    length pairs ≤ 50 ∧
    pairs ⊆+ list_prod domain_prots slim_prots ∧
    (50 < length (list_prod domain_prots slim_prots) →
       length pairs = 50 ∧
       random_sample (list_prod domain_prots slim_prots) 50 w = (Ok pairs, w')) ∧
    (length (list_prod domain_prots slim_prots) ≤ 50 →
       pairs = list_prod domain_prots slim_prots ∧ w' = w).
Proof.
  unfold draw_protein_pairs. case_decide as Hlen.
  - destruct (random_sample_spec (list_prod domain_prots slim_prots) 50 w)
      as (out & w' & Hs & Hsame & Hl & Hsub); [lia|].
    exists out, w'. change (Z.of_nat 50) with 50%Z in Hs.
    split; [done|]. split; [done|]. split; [lia|]. split; [done|].
    split; [done|lia].
  - exists (list_prod domain_prots slim_prots), w.
    split; [done|]. split; [done|]. split; [lia|]. split; [done|].
    split; [lia|done].
Qed.

(** C8 (empty-group degeneracy).  When the domain group or the motif
    group is empty, pairing, matching and selection (lines 136-151) return
    normally and leave the whole state as it was: no candidate pair enters
    the dictionary, the matcher is not called and no instance is
    appended.  So does the whole round of an interface whose key finds an
    empty domain group, or any domain group when the motif group is
    empty. *)
Theorem empty_group_round (slim_id : string) (domain_prots slim_prots : list string)
    (number_instances : Z) w :
  domain_prots = [] ∨ slim_prots = [] →
  round_with_groups find_DMI_matches slim_id domain_prots slim_prots
    number_instances w = (Ok tt, w) ∧
  ∀ domain,
    dict_get (group_key domain) (domain_groups (IH w)) = Some domain_prots →
    interface_round find_DMI_matches slim_id slim_prots number_instances domain w
    = (Ok tt, w).
Proof.
  intros Hempty.
  assert (Hround : round_with_groups find_DMI_matches slim_id domain_prots
                     slim_prots number_instances w = (Ok tt, w)).
  { unfold round_with_groups. destruct Hempty as [-> | ->]; simpl; [done|].
    by rewrite andb_false_r. }
  split; [done|]. intros domain Hg.
  unfold interface_round, bind, get_IH. by rewrite Hg.
Qed.

End Rounds.

(** ** Resolution of the domain interfaces *)

Lemma first_domains_keys (l : list DomainInterface) ds :
  first_domains l = Ok ds →
  Forall2 (λ di key, ∃ d, head (domain_dict di) = Some d ∧ key = [d])
          l (group_key <$> ds).
Proof.
  revert ds. induction l as [|di l IH]; simpl; intros ds.
  - intros [= <-]. constructor.
  - unfold first_domain. destruct (domain_dict di) as [|d rest] eqn:E; [done|].
    destruct (first_domains l) as [ds'|]; [|done].
    intros [= <-]. simpl. constructor; [|by apply IH].
    exists d. by rewrite E.
Qed.




(** ** The selection step *)

Lemma submseteq_NoDup {A} (l k : list A) : l ⊆+ k → NoDup k → NoDup l.
Proof.
  intros [k' Hk']%submseteq_Permutation Hnd.
  rewrite Hk' in Hnd. by apply NoDup_app in Hnd as [? _].
Qed.

Section Selection.
Context {DMIMatch : Type}.
Implicit Types w : @world DMIMatch.
Implicit Types d : odict (string * string) (@ProteinPair DMIMatch).

(** A loop whose every iteration appends one instance and keeps the
    shared object appends one instance per element, in order. *)
Lemma for_each_extend {A} ih (P : A → @RRSInstance DMIMatch → Prop)
    (l : list A) (body : A → M world unit) :
  (∀ x w, x ∈ l → IH w = ih →
     ∃ i w', body x w = (Ok tt, w') ∧ IH w' = ih ∧
             RRS_instances w' = RRS_instances w ++ [i] ∧ P x i) →
  ∀ w, IH w = ih →
    ∃ added w', for_each l body w = (Ok tt, w') ∧ IH w' = ih ∧
                RRS_instances w' = RRS_instances w ++ added ∧
                Forall2 P l added.
Proof.
  induction l as [|x l IHl]; intros Hbody w Hw; simpl.
  - exists [], w. rewrite app_nil_r. repeat split; auto.
  - destruct (Hbody x w) as (i & w1 & Hx & Hih1 & HR1 & HP); [left|done|].
    rewrite (bind_ok _ _ _ _ _ Hx).
    destruct (IHl (λ y w2 Hy, Hbody y w2 (list_elem_of_further _ _ _ Hy)) w1 Hih1)
      as (added & w2 & Hl & Hih2 & HR2 & HF).
    exists (i :: added), w2. repeat split; auto.
    rewrite HR2, HR1, <- app_assoc. done.
Qed.

(** A loop with an element on which the body raises from every state
    does not complete. *)
Lemma for_each_raises {S A} (l : list A) (body : A → M S unit) x :
  x ∈ l → (∀ s, ∃ e s', body x s = (Raise e, s')) →
  ∀ s, ∃ e s', for_each l body s = (Raise e, s').
Proof.
  intros Hx Hraise. induction l as [|y l IHl]; [by apply elem_of_nil in Hx|].
  intros s. simpl. unfold bind.
  destruct (body y s) as [[[]|e] s1] eqn:E; [|eauto].
  apply elem_of_cons in Hx as [->|Hx]; [|by apply IHl].
  destruct (Hraise s) as (e & s' & He). congruence.
Qed.

Lemma sample_one_instance_ok slim_id protpair protpair_inst w :
  has_match slim_id protpair_inst = true →
  ∃ m dmi_matches w',
    dict_get slim_id (dmi_matches_dict protpair_inst) = Some dmi_matches ∧
    m ∈ dmi_matches ∧
    sample_one_instance slim_id protpair protpair_inst w = (Ok tt, w') ∧
    IH w' = IH w ∧
    RRS_instances w' = RRS_instances w ++
      [{| inst_pair := protpair; inst_slim := slim_id; inst_match := m |}].
Proof.
  unfold has_match, sample_one_instance.
  destruct (dict_get slim_id (dmi_matches_dict protpair_inst)) as [ms|]; [|done].
  intros Hms.
  destruct (random_sample_spec ms 1 w) as (out & w1 & Hs & [Hih HR] & Hlen & Hsub).
  { destruct ms; [done|simpl; lia]. }
  change (Z.of_nat 1) with 1%Z in Hs.
  destruct out as [|m [|? ?]]; simplify_eq/=.
  exists m, ms. eexists. split; [done|].
  split; [by apply singleton_submseteq_l|].
  rewrite (bind_ok _ _ _ _ _ Hs). unfold extend_RRS_instances; simpl.
  repeat split; [done|]. by rewrite HR.
Qed.

Lemma sample_one_instance_raises slim_id protpair protpair_inst w :
  has_match slim_id protpair_inst = false →
  ∃ e, sample_one_instance slim_id protpair protpair_inst w = (Raise e, w).
Proof.
  unfold has_match, sample_one_instance.
  destruct (dict_get slim_id (dmi_matches_dict protpair_inst)) as [[|m ms]|];
    [|done|]; intros _.
  - exists ValueError. unfold bind. by rewrite random_sample_raise by (simpl; lia).
  - by exists KeyError.
Qed.

Lemma all_matched_elem slim_id d protpair protpair_inst :
  all_matched slim_id d = true → (protpair, protpair_inst) ∈ d →
  has_match slim_id protpair_inst = true.
Proof.
  unfold all_matched. rewrite forallb_forall. intros H Hin.
  by apply (H (protpair, protpair_inst)), list_elem_of_In.
Qed.

Lemma not_all_matched_elem slim_id d :
  all_matched slim_id d = false →
  ∃ j protpair protpair_inst,
    d !! j = Some (protpair, protpair_inst) ∧
    has_match slim_id protpair_inst = false.
Proof.
  induction d as [|[k inst] d IHd]; simpl; [done|].
  destruct (has_match slim_id inst) eqn:E; simpl.
  - intros (j & ? & ? & ? & ?)%IHd. by exists (S j); eauto.
  - intros _. by exists 0, k, inst.
Qed.

(** The selection step on a dictionary in which every pair has a match:
    it completes, keeps the shared object, and appends one instance per
    chosen key. *)
Lemma select_RRS_instances_ok slim_id (T : nat) w :
  all_matched slim_id (protein_pairs_dict (IH w)) = true →
  ∃ added w',
    select_RRS_instances slim_id (Z.of_nat T) w = (Ok tt, w') ∧
    IH w' = IH w ∧
    RRS_instances w' = RRS_instances w ++ added ∧
    length added = (if decide (T ≤ length (protein_pairs_dict (IH w)))
                    then T else length (protein_pairs_dict (IH w))) ∧
    inst_pair <$> added ⊆+ dict_keys (protein_pairs_dict (IH w)) ∧
    (length (protein_pairs_dict (IH w)) < T →
       inst_pair <$> added = dict_keys (protein_pairs_dict (IH w))) ∧
    Forall (drawn_from slim_id (protein_pairs_dict (IH w))) added.
Proof.
  intros Hall. unfold select_RRS_instances, bind at 1, get_IH.
  set (d := protein_pairs_dict (IH w)) in *.
  set (P := λ (k : string * string) i, inst_pair i = k ∧ drawn_from slim_id d i).
  assert (Hfin : ∀ (l : list (string * string)) added,
            Forall2 P l added →
            inst_pair <$> added = l ∧ Forall (drawn_from slim_id d) added).
  { induction 1 as [|k i l added [Hk Hi] _ [IH1 IH2]]; [done|].
    split; [by rewrite fmap_cons, Hk, IH1|by constructor]. }
  case_decide as HT.
  - destruct (random_sample_spec (dict_keys d) T w)
      as (chosen & w1 & Hs & [Hih1 HR1] & Hlen & Hsub).
    { unfold dict_keys. rewrite length_fmap. lia. }
    rewrite (bind_ok _ _ _ _ _ Hs).
    match goal with |- context [for_each chosen ?body] =>
      destruct (for_each_extend (IH w) P chosen body)
        with (w := w1) as (added & w2 & Hl & Hih2 & HR2 & HF) end;
      [|exact Hih1|].
    { intros k w3 Hk Hw3. unfold bind, get_IH. rewrite Hw3. fold d.
      assert (Hkd : k ∈ dict_keys d) by (by eapply elem_of_submseteq).
      apply dict_get_is_Some in Hkd as [inst Hinst]. rewrite Hinst.
      apply dict_get_Some_elem in Hinst as Hin.
      destruct (sample_one_instance_ok slim_id k inst w3)
        as (m & ms & w4 & Hms & Hm & Hrun & Hih4 & HR4).
      { by eapply all_matched_elem. }
      eexists _, w4. split; [done|]. split; [congruence|]. split; [done|].
      split; [done|]. split; [done|]. by exists inst, ms. }
    destruct (Hfin _ _ HF) as [Hpairs Hdrawn].
    exists added, w2. repeat split; auto.
    + by rewrite HR2, HR1.
    + rewrite decide_True by lia. by rewrite <- (length_fmap inst_pair), Hpairs.
    + by rewrite Hpairs.
    + lia.
  - match goal with |- context [for_each d ?body] =>
      destruct (for_each_extend (IH w) (λ entry i, P entry.1 i) d body)
        with (w := w) as (added & w2 & Hl & Hih2 & HR2 & HF) end;
      [|reflexivity|].
    { intros [k inst] w3 Hk Hw3.
      destruct (sample_one_instance_ok slim_id k inst w3)
        as (m & ms & w4 & Hms & Hm & Hrun & Hih4 & HR4).
      { by eapply all_matched_elem. }
      eexists _, w4. split; [done|]. split; [congruence|]. split; [done|].
      split; [done|]. split; [done|]. by exists inst, ms. }
    apply (Forall2_fmap_l fst P) in HF. destruct (Hfin _ _ HF) as [Hpairs Hdrawn].
    exists added, w2. repeat split; auto.
    + rewrite decide_False by lia.
      by rewrite <- (length_fmap inst_pair), Hpairs, length_fmap.
    + by rewrite Hpairs.
Qed.

Lemma all_matched_count slim_id d :
  all_matched slim_id d = true → matched_count slim_id d = length d.
Proof.
  unfold all_matched, matched_count. induction d as [|[k inst] d IHd]; [done|].
  cbn [forallb]. intros [Hk Hd]%andb_true_iff.
  rewrite filter_cons_True by done. simpl. by rewrite IHd.
Qed.

(** X20 (count law of one selection step).  On a candidate dictionary
    with unique keys in which every pair has a recorded match for the DMI
    type, the number M of matched pairs is the size of the dictionary, and
    one run of the selection step (lines 146-151) with target count T
    completes and appends exactly T instances when M ≥ T and exactly M
    instances when M < T.  The instances come from pairwise distinct pairs
    of the dictionary, each is one of the matches listed for its pair, and
    in the case M < T the pairs are all the pairs of the dictionary, once
    each and in order. *)
Theorem selection_count_law (slim_id : string) (T : nat) w :
  NoDup (dict_keys (protein_pairs_dict (IH w))) →
  all_matched slim_id (protein_pairs_dict (IH w)) = true →
  matched_count slim_id (protein_pairs_dict (IH w))
  = length (protein_pairs_dict (IH w)) ∧
  ∃ added w',
    select_RRS_instances slim_id (Z.of_nat T) w = (Ok tt, w') ∧
    IH w' = IH w ∧
    RRS_instances w' = RRS_instances w ++ added ∧
    (T ≤ matched_count slim_id (protein_pairs_dict (IH w)) → length added = T) ∧
    (matched_count slim_id (protein_pairs_dict (IH w)) < T →
       length added = matched_count slim_id (protein_pairs_dict (IH w)) ∧
       inst_pair <$> added = dict_keys (protein_pairs_dict (IH w))) ∧
    NoDup (inst_pair <$> added) ∧
    inst_pair <$> added ⊆+ dict_keys (protein_pairs_dict (IH w)) ∧
    Forall (drawn_from slim_id (protein_pairs_dict (IH w))) added.
Proof.
  intros Hnd Hall. pose proof (all_matched_count _ _ Hall) as HM.
  split; [done|]. rewrite HM.
  destruct (select_RRS_instances_ok slim_id T w Hall)
    as (added & w' & Hrun & Hih & HR & Hlen & Hsub & Hall_pairs & Hdrawn).
  exists added, w'. repeat split; auto.
  - intros HT. by rewrite decide_True in Hlen.
  - rewrite decide_False in Hlen by lia. done.
  - by eapply submseteq_NoDup.
Qed.

End Selection.

Section Totality.
Context {DMIMatch : Type}.
Implicit Types ih : @InterfaceHandling DMIMatch.

(** C10, amended (selection totality).  For a target count of at least
    one and a candidate dictionary with unique keys: when every pair has
    a recorded match for the DMI type, the selection step completes on
    every random source; when some pair has none, there is a random
    source on which the step raises. *)
Theorem selection_totality (slim_id : string) (number_instances : Z) ih
    (R : list (@RRSInstance DMIMatch)) :
  (1 ≤ number_instances)%Z →
  NoDup (dict_keys (protein_pairs_dict ih)) →
  (all_matched slim_id (protein_pairs_dict ih) = true →
     ∀ rng, ∃ w',
       select_RRS_instances slim_id number_instances
         {| IH := ih; RRS_instances := R; rand := rng |} = (Ok tt, w')) ∧
  (all_matched slim_id (protein_pairs_dict ih) = false →
     ∃ rng e w',
       select_RRS_instances slim_id number_instances
         {| IH := ih; RRS_instances := R; rand := rng |} = (Raise e, w')).
Proof.
  intros HT Hnd. split.
  - intros Hall rng.
    destruct (select_RRS_instances_ok slim_id (Z.to_nat number_instances)
                {| IH := ih; RRS_instances := R; rand := rng |} Hall)
      as (added & w' & Hrun & _).
    rewrite Z2Nat.id in Hrun by lia. eauto.
  - intros (j & k & inst & Hj & Hno)%not_all_matched_elem.
    assert (Hin : (k, inst) ∈ protein_pairs_dict ih)
      by (apply list_elem_of_lookup; eauto).
    exists [j]. unfold select_RRS_instances, bind at 1, get_IH; simpl.
    case_decide as Hbranch.
    + assert (Hkj : dict_keys (protein_pairs_dict ih) !! j = Some k).
      { unfold dict_keys. by rewrite list_lookup_fmap, Hj. }
      destruct (Z.to_nat number_instances) as [|t] eqn:Et; [lia|].
      unfold random_sample. rewrite decide_True
        by (unfold dict_keys; rewrite length_fmap; lia).
      rewrite Et.
      destruct (sample_loop_first (dict_keys (protein_pairs_dict ih)) t j k
                  {| IH := ih; RRS_instances := R; rand := [j] |} Hkj eq_refl)
        as (out & w1 & [Hs|Hs]).
      * rewrite (bind_ok _ _ _ _ _ Hs). simpl.
        assert (Hih1 : IH w1 = ih).
        { destruct (sample_loop_spec (dict_keys (protein_pairs_dict ih)) (S t)
                      {| IH := ih; RRS_instances := R; rand := [j] |})
            as (out' & w1' & Hs' & [Hih _] & _).
          { unfold dict_keys. rewrite length_fmap. lia. }
          rewrite Hs in Hs'. by simplify_eq. }
        unfold bind at 1. unfold bind at 1, get_IH. rewrite Hih1.
        rewrite (dict_get_NoDup k _ inst Hnd Hin).
        destruct (sample_one_instance_raises slim_id k inst w1 Hno) as [e He].
        rewrite He. eauto.
      * rewrite (bind_raise _ _ _ _ _ Hs). eauto.
    + apply (for_each_raises _ _ (k, inst)); [done|].
      intros s. destruct (sample_one_instance_raises slim_id k inst s Hno) as [e He].
      eauto.
Qed.

End Totality.

(** ** Invariants of a whole replicate *)

Lemma preserves_ret {S A} (I : S → Prop) (a : A) : preserves I (ret a).
Proof. by intros s. Qed.

Lemma preserves_raise {S A} (I : S → Prop) e : preserves I (@raise S A e).
Proof. by intros s. Qed.

Lemma preserves_lift_result {S A} (I : S → Prop) (r : result A) :
  preserves I (lift_result r).
Proof. by intros s. Qed.

Lemma preserves_bind {S A B} (I : S → Prop) (c : M S A) (k : A → M S B) :
  preserves I c → (∀ a, preserves I (k a)) → preserves I (bind c k).
Proof.
  intros Hc Hk s Hs. unfold bind. specialize (Hc s Hs).
  destruct (c s) as [[a|e] s1]; simpl in *; [by apply Hk|done].
Qed.

(** The same, when the continuation may use what the first part
    establishes about its result. *)
Lemma preserves_bind_post {S A B} (I : S → Prop) (Q : A → Prop)
    (c : M S A) (k : A → M S B) :
  (∀ s, I s → I (c s).2 ∧ ∀ a, (c s).1 = Ok a → Q a) →
  (∀ a, Q a → preserves I (k a)) → preserves I (bind c k).
Proof.
  intros Hc Hk s Hs. unfold bind. destruct (Hc s Hs) as [H1 H2].
  destruct (c s) as [[a|e] s1]; simpl in *; [|done].
  apply Hk; auto.
Qed.

Lemma preserves_for_each {S A} (I : S → Prop) (l : list A) (body : A → M S unit) :
  (∀ x, x ∈ l → preserves I (body x)) → preserves I (for_each l body).
Proof.
  intros Hbody s Hs. apply for_each_inv; [|done].
  intros x s' Hx Hs'. by apply (Hbody x Hx).
Qed.

Section Replicate.
Context {DMIMatch : Type}.
Variable find_DMI_matches : M (@InterfaceHandling DMIMatch) unit.
Implicit Types w : @world DMIMatch.
Implicit Types ih : @InterfaceHandling DMIMatch.
Implicit Types d : odict (string * string) (@ProteinPair DMIMatch).
Implicit Types l : list (@RRSInstance DMIMatch).
Implicit Types protpair_inst : @ProteinPair DMIMatch.

Local Abbreviation oblivious := (oblivious (DMIMatch := DMIMatch)).
Local Abbreviation coupled := (coupled (DMIMatch := DMIMatch)).
Local Abbreviation excl_inv := (excl_inv (DMIMatch := DMIMatch)).
Local Abbreviation pool_inv := (pool_inv (DMIMatch := DMIMatch)).
Local Abbreviation round_inv := (round_inv (DMIMatch := DMIMatch)).

Lemma preserves_get_IH (I : @world DMIMatch → Prop) : preserves I get_IH.
Proof. by intros s. Qed.

Lemma sample_loop_sound {A} (pool : list A) k w :
  same_objects w (sample_loop pool k w).2 ∧
  ∀ out, (sample_loop pool k w).1 = Ok out → out ⊆+ pool.
Proof.
  revert pool w. induction k as [|k IHk]; intros pool w; simpl.
  - split; [done|]. intros out [= <-]. apply submseteq_nil_l.
  - destruct (randbelow_spec (length pool) w) as (j & w1 & Hj & [Hih1 HR1] & _).
    rewrite (bind_ok _ _ _ _ _ Hj).
    destruct (pool !! j) as [x|] eqn:Hx; [|done].
    destruct (IHk (delete j pool) w1) as [[Hih2 HR2] Hout].
    unfold bind. destruct (sample_loop (delete j pool) k w1) as [[out|e] w2];
      simpl in *; (split; [split; congruence|]); [|done].
    intros ? [= <-]. rewrite (delete_Permutation pool j x Hx).
    by apply submseteq_skip, Hout.
Qed.

Lemma random_sample_sound {A} (population : list A) k w :
  same_objects w (random_sample population k w).2 ∧
  ∀ out, (random_sample population k w).1 = Ok out → out ⊆+ population.
Proof.
  unfold random_sample. case_decide; [apply sample_loop_sound|].
  split; [done|]. by intros out [=].
Qed.

Lemma preserves_random_sample {A} (I : @world DMIMatch → Prop)
    (population : list A) k :
  rand_blind I → preserves I (random_sample population k).
Proof.
  intros HI w Hw. by eapply HI; [apply random_sample_sound|].
Qed.

(** *** The frame of the shared indexes *)

Lemma shared_eq_refl ih : shared_eq ih ih.
Proof. by repeat split. Qed.

Lemma shared_eq_trans ih1 ih2 ih3 :
  shared_eq ih1 ih2 → shared_eq ih2 ih3 → shared_eq ih1 ih3.
Proof.
  unfold shared_eq. intros (?&?&?&?&?) (?&?&?&?&?). repeat split; congruence.
Qed.

Lemma frame_inv_rand_blind ih : rand_blind (frame_inv ih).
Proof. intros w w' [Hih _]. unfold frame_inv. by rewrite Hih. Qed.

Lemma frame_assign_protein_pairs_dict ih d :
  preserves (frame_inv ih) (assign_protein_pairs_dict d).
Proof. by intros w. Qed.

Lemma frame_extend_RRS_instances ih l :
  preserves (frame_inv ih) (extend_RRS_instances l).
Proof. by intros w. Qed.

Lemma frame_add_candidate ih pp : preserves (frame_inv ih) (add_candidate pp).
Proof.
  unfold add_candidate. apply preserves_bind; [apply preserves_get_IH|].
  intros ih1. case_decide;
    [apply frame_assign_protein_pairs_dict|apply preserves_ret].
Qed.

Lemma frame_sample_one_instance ih slim_id protpair protpair_inst :
  preserves (frame_inv ih) (sample_one_instance slim_id protpair protpair_inst).
Proof.
  unfold sample_one_instance.
  destruct (dict_get _ _); [|apply preserves_raise].
  apply preserves_bind;
    [apply preserves_random_sample, frame_inv_rand_blind|].
  intros one. apply frame_extend_RRS_instances.
Qed.

Lemma frame_select_RRS_instances ih slim_id number_instances :
  preserves (frame_inv ih) (select_RRS_instances slim_id number_instances).
Proof.
  unfold select_RRS_instances. apply preserves_bind; [apply preserves_get_IH|].
  intros ih1. case_decide.
  - apply preserves_bind;
      [apply preserves_random_sample, frame_inv_rand_blind|].
    intros chosen. apply preserves_for_each. intros protpair _.
    apply preserves_bind; [apply preserves_get_IH|]. intros ih2.
    destruct (dict_get _ _); [apply frame_sample_one_instance|apply preserves_raise].
  - apply preserves_for_each. intros [protpair protpair_inst] _.
    apply frame_sample_one_instance.
Qed.

Lemma frame_call_find_DMI_matches ih :
  matcher_frame find_DMI_matches →
  preserves (frame_inv ih) (call_find_DMI_matches find_DMI_matches).
Proof.
  intros Hm w Hw. unfold call_find_DMI_matches, frame_inv.
  specialize (Hm (IH w)). destruct (find_DMI_matches (IH w)) as [r ih']; simpl in *.
  by eapply shared_eq_trans.
Qed.

Lemma frame_draw_protein_pairs ih domain_prots slim_prots :
  preserves (frame_inv ih) (draw_protein_pairs domain_prots slim_prots).
Proof.
  unfold draw_protein_pairs. case_decide;
    [apply preserves_random_sample, frame_inv_rand_blind|apply preserves_ret].
Qed.

Lemma frame_interface_round ih slim_id slim_prots number_instances domain :
  matcher_frame find_DMI_matches →
  preserves (frame_inv ih)
    (interface_round find_DMI_matches slim_id slim_prots number_instances domain).
Proof.
  intros Hm. unfold interface_round, round_with_groups.
  apply preserves_bind; [apply preserves_get_IH|]. intros ih1.
  destruct (dict_get _ _); [|apply preserves_raise].
  destruct (any _ && any _); [|apply preserves_ret].
  apply preserves_bind; [apply frame_draw_protein_pairs|]. intros pairs.
  apply preserves_bind.
  { apply preserves_for_each. intros pp _. apply frame_add_candidate. }
  intros _. apply preserves_bind; [by apply frame_call_find_DMI_matches|].
  intros _. apply frame_select_RRS_instances.
Qed.

Lemma frame_dmi_type_round ih number_instances item :
  matcher_frame find_DMI_matches →
  preserves (frame_inv ih) (dmi_type_round find_DMI_matches number_instances item).
Proof.
  intros Hm. unfold dmi_type_round.
  apply preserves_bind; [apply frame_assign_protein_pairs_dict|]. intros _.
  apply preserves_bind; [apply preserves_get_IH|]. intros ih1.
  destruct (dict_get _ _); [|apply preserves_raise].
  apply preserves_bind; [apply preserves_lift_result|]. intros domains.
  apply preserves_for_each. intros domain _. by apply frame_interface_round.
Qed.

Lemma frame_make_random_protein_pairs ih number_instances :
  matcher_frame find_DMI_matches →
  preserves (frame_inv ih)
    (make_random_protein_pairs_with_groups_select_RRS_instances
       find_DMI_matches number_instances).
Proof.
  intros Hm. unfold make_random_protein_pairs_with_groups_select_RRS_instances.
  apply preserves_bind; [apply preserves_get_IH|]. intros ih1.
  apply preserves_for_each. intros item _. by apply frame_dmi_type_round.
Qed.

Lemma frame_run_replicates number_instances RRS_version ih rng :
  matcher_frame find_DMI_matches →
  shared_eq ih (run_replicates find_DMI_matches number_instances RRS_version ih rng).1.2.
Proof.
  intros Hm. revert ih rng.
  induction RRS_version as [|RRS rest IHrest]; intros ih rng; simpl.
  - apply shared_eq_refl.
  - pose proof (frame_make_random_protein_pairs ih number_instances Hm
                  {| IH := ih; RRS_instances := []; rand := rng |}
                  (shared_eq_refl ih)) as Hrun.
    destruct (make_random_protein_pairs_with_groups_select_RRS_instances _ _ _)
      as [[[]|e] w1]; simpl in *; [|done].
    specialize (IHrest (IH w1) (rand w1)).
    destruct (run_replicates _ _ _ _ _) as [[[written|e] ih'] rng']; simpl in *;
      by eapply shared_eq_trans.
Qed.

(** *** The collection is only appended to, and never read *)

Lemma oblivious_ret {A} (a : A) : oblivious (ret a).
Proof. by intros R1 R2 w1 w2 H. Qed.

Lemma oblivious_raise {A} e : oblivious (@raise _ A e).
Proof. by intros R1 R2 w1 w2 H. Qed.

Lemma oblivious_lift_result {A} (r : result A) : oblivious (lift_result r).
Proof. by intros R1 R2 w1 w2 H. Qed.

Lemma oblivious_bind {A B} (c : M (@world DMIMatch) A) (k : A → M (@world DMIMatch) B) :
  oblivious c → (∀ a, oblivious (k a)) → oblivious (bind c k).
Proof.
  intros Hc Hk R1 R2 w1 w2 H. unfold bind.
  destruct (Hc R1 R2 w1 w2 H) as [Hr Hcoupled].
  destruct (c w1) as [[a1|e1] w1'], (c w2) as [[a2|e2] w2'];
    simpl in *; simplify_eq; [by apply Hk|done].
Qed.

Lemma oblivious_for_each {A} (l : list A) (body : A → M (@world DMIMatch) unit) :
  (∀ x, oblivious (body x)) → oblivious (for_each l body).
Proof.
  intros Hbody. induction l as [|x l IHl]; simpl; [apply oblivious_ret|].
  apply oblivious_bind; auto.
Qed.

Lemma oblivious_bind_IH {B} (k : @InterfaceHandling DMIMatch → M (@world DMIMatch) B) :
  (∀ ih, oblivious (k ih)) → oblivious (bind get_IH k).
Proof.
  intros Hk R1 R2 w1 w2 H. unfold bind, get_IH.
  destruct H as (Hih & ?). rewrite Hih. apply Hk. by split.
Qed.

Lemma oblivious_assign_protein_pairs_dict d :
  oblivious (assign_protein_pairs_dict d).
Proof.
  intros R1 R2 w1 w2 (Hih & Hr & HR). split; [done|].
  unfold coupled; simpl. by rewrite Hih.
Qed.

Lemma oblivious_extend_RRS_instances l : oblivious (extend_RRS_instances l).
Proof.
  intros R1 R2 w1 w2 (Hih & Hr & added & HR1 & HR2). split; [done|].
  unfold coupled; simpl. do 2 (split; [done|]).
  exists (added ++ l). by rewrite HR1, HR2, <- !app_assoc.
Qed.

Lemma oblivious_randbelow n : oblivious (randbelow n).
Proof.
  intros R1 R2 w1 w2 (Hih & Hr & HR). unfold randbelow. rewrite Hr.
  destruct (rand w2) as [|r rs] eqn:E; simpl; (split; [done|]);
    unfold coupled; simpl; [by rewrite E|done].
Qed.

Lemma oblivious_sample_loop {A} (pool : list A) k : oblivious (sample_loop pool k).
Proof.
  revert pool. induction k as [|k IHk]; intros pool; simpl; [apply oblivious_ret|].
  apply oblivious_bind; [apply oblivious_randbelow|]. intros j.
  destruct (pool !! j); [|apply oblivious_raise].
  apply oblivious_bind; [apply IHk|]. intros rest. apply oblivious_ret.
Qed.

Lemma oblivious_random_sample {A} (population : list A) k :
  oblivious (random_sample population k).
Proof.
  unfold random_sample. case_decide;
    [apply oblivious_sample_loop|apply oblivious_raise].
Qed.

Lemma oblivious_call_find_DMI_matches :
  oblivious (call_find_DMI_matches find_DMI_matches).
Proof.
  intros R1 R2 w1 w2 (Hih & Hr & HR). unfold call_find_DMI_matches.
  rewrite Hih. by destruct (find_DMI_matches (IH w2)).
Qed.

Lemma oblivious_sample_one_instance slim_id protpair protpair_inst :
  oblivious (sample_one_instance slim_id protpair protpair_inst).
Proof.
  unfold sample_one_instance. destruct (dict_get _ _); [|apply oblivious_raise].
  apply oblivious_bind; [apply oblivious_random_sample|].
  intros one. apply oblivious_extend_RRS_instances.
Qed.

Lemma oblivious_select_RRS_instances slim_id number_instances :
  oblivious (select_RRS_instances slim_id number_instances).
Proof.
  unfold select_RRS_instances. apply oblivious_bind_IH. intros ih.
  case_decide.
  - apply oblivious_bind; [apply oblivious_random_sample|]. intros chosen.
    apply oblivious_for_each. intros protpair.
    apply oblivious_bind_IH. intros ih'.
    destruct (dict_get _ _);
      [apply oblivious_sample_one_instance|apply oblivious_raise].
  - apply oblivious_for_each. intros [protpair protpair_inst].
    apply oblivious_sample_one_instance.
Qed.

Lemma oblivious_add_candidate pp : oblivious (add_candidate pp).
Proof.
  unfold add_candidate. apply oblivious_bind_IH. intros ih.
  case_decide; [apply oblivious_assign_protein_pairs_dict|apply oblivious_ret].
Qed.

Lemma oblivious_interface_round slim_id slim_prots number_instances domain :
  oblivious (interface_round find_DMI_matches slim_id slim_prots
               number_instances domain).
Proof.
  unfold interface_round, round_with_groups. apply oblivious_bind_IH. intros ih.
  destruct (dict_get _ _); [|apply oblivious_raise].
  destruct (any _ && any _); [|apply oblivious_ret].
  apply oblivious_bind.
  { unfold draw_protein_pairs.
    case_decide; [apply oblivious_random_sample|apply oblivious_ret]. }
  intros pairs. apply oblivious_bind.
  { apply oblivious_for_each, oblivious_add_candidate. }
  intros _. apply oblivious_bind; [apply oblivious_call_find_DMI_matches|].
  intros _. apply oblivious_select_RRS_instances.
Qed.

Lemma oblivious_make_random_protein_pairs number_instances :
  oblivious (make_random_protein_pairs_with_groups_select_RRS_instances
               find_DMI_matches number_instances).
Proof.
  unfold make_random_protein_pairs_with_groups_select_RRS_instances.
  apply oblivious_bind_IH. intros ih. apply oblivious_for_each. intros item.
  unfold dmi_type_round.
  apply oblivious_bind; [apply oblivious_assign_protein_pairs_dict|]. intros _.
  apply oblivious_bind_IH. intros ih'.
  destruct (dict_get _ _); [|apply oblivious_raise].
  apply oblivious_bind; [apply oblivious_lift_result|]. intros domains.
  apply oblivious_for_each. intros domain. apply oblivious_interface_round.
Qed.

(** C7 (replicate frame).  With a matcher that keeps the shared indexes:
    after any number of replicates, completed or stopped by an exception,
    the proteins, the DMI types, the known-PPI set, the domain groups and
    the motif groups of the shared object are what they were before the
    first one; and a replicate only appends to its own collection, never
    reading it: started on the same shared object and random source with
    two different collections, it has the same outcome, the same effect on
    the shared object and on the random source, and it appends the same
    instances to both. *)
Theorem replicate_frame (number_instances : Z) (RRS_version : list string) ih rng :
  matcher_frame find_DMI_matches →
  shared_eq ih
    (run_replicates find_DMI_matches number_instances RRS_version ih rng).1.2 ∧
  ∀ R1 R2,
    let r1 := make_random_protein_pairs_with_groups_select_RRS_instances
                find_DMI_matches number_instances
                {| IH := ih; RRS_instances := R1; rand := rng |} in
    let r2 := make_random_protein_pairs_with_groups_select_RRS_instances
                find_DMI_matches number_instances
                {| IH := ih; RRS_instances := R2; rand := rng |} in
    r1.1 = r2.1 ∧ IH r1.2 = IH r2.2 ∧ rand r1.2 = rand r2.2 ∧
    ∃ added, RRS_instances r1.2 = R1 ++ added ∧ RRS_instances r2.2 = R2 ++ added.
Proof.
  intros Hm. split; [by apply frame_run_replicates|].
  intros R1 R2.
  destruct (oblivious_make_random_protein_pairs number_instances R1 R2
              {| IH := ih; RRS_instances := R1; rand := rng |}
              {| IH := ih; RRS_instances := R2; rand := rng |})
    as (Hr & Hih & Hrand & HR).
  { do 2 (split; [done|]). exists []. by rewrite !app_nil_r. }
  done.
Qed.

(** *** Known pairs never enter the pool or the collection *)

Lemma round_inv_rand_blind K R0 : rand_blind (round_inv K R0).
Proof.
  intros w w' [Hih HR]. unfold round_inv, excl_inv. by rewrite Hih, HR.
Qed.

Lemma add_candidate_keys pp w :
  (sorted_pair pp ∈ known_PPIs (IH w) → add_candidate pp w = (Ok tt, w)) ∧
  (add_candidate pp w).1 = Ok tt ∧
  known_PPIs (IH (add_candidate pp w).2) = known_PPIs (IH w) ∧
  RRS_instances (add_candidate pp w).2 = RRS_instances w ∧
  ∀ k, k ∈ dict_keys (protein_pairs_dict (IH (add_candidate pp w).2)) ↔
       k ∈ dict_keys (protein_pairs_dict (IH w)) ∨
       (k = sorted_pair pp ∧ sorted_pair pp ∉ known_PPIs (IH w)).
Proof.
  unfold add_candidate, bind, get_IH. case_decide as Hk; simpl.
  - split; [done|]. do 3 (split; [done|]).
    intros k. rewrite dict_keys_set. tauto.
  - do 4 (split; [done|]). intros k. tauto.
Qed.

Lemma round_add_candidate K R0 pp : preserves (round_inv K R0) (add_candidate pp).
Proof.
  intros w [[HK HR] Hpool].
  destruct (add_candidate_keys pp w) as (_ & _ & HK' & HR' & Hkeys).
  unfold round_inv, excl_inv, pool_inv. rewrite HK', HR'.
  split; [by split|].
  intros k Hk. apply Hkeys in Hk as [Hk|[-> Hk]]; [by apply Hpool|].
  split; [by rewrite <- HK|apply sorted_pair_idemp].
Qed.

Lemma round_call_find_DMI_matches K R0 :
  matcher_frame find_DMI_matches → matcher_adds_no_pair find_DMI_matches →
  preserves (round_inv K R0) (call_find_DMI_matches find_DMI_matches).
Proof.
  intros Hf Hk w [[HK HR] Hpool]. unfold call_find_DMI_matches.
  specialize (Hf (IH w)). specialize (Hk (IH w)).
  destruct (find_DMI_matches (IH w)) as [r ih']; simpl in *.
  destruct Hf as (_ & _ & HK' & _).
  unfold round_inv, excl_inv, pool_inv; simpl. rewrite HK'.
  split; [by split|]. intros k Hin. by apply Hpool, Hk.
Qed.

Lemma round_sample_one_instance K R0 slim_id protpair protpair_inst :
  canonical_unknown K protpair →
  preserves (round_inv K R0) (sample_one_instance slim_id protpair protpair_inst).
Proof.
  intros Hgood. unfold sample_one_instance.
  destruct (dict_get _ _) as [ms|]; [|apply preserves_raise].
  apply preserves_bind;
    [apply preserves_random_sample, round_inv_rand_blind|].
  intros one w [[HK (added & HR & Hadded)] Hpool].
  unfold round_inv, excl_inv; simpl. split; [split; [done|]|done].
  eexists. rewrite HR, <- app_assoc. split; [done|].
  apply Forall_app. split; [done|].
  induction one; constructor; auto.
Qed.

Lemma round_select_RRS_instances K R0 slim_id number_instances :
  preserves (round_inv K R0) (select_RRS_instances slim_id number_instances).
Proof.
  unfold select_RRS_instances.
  apply (preserves_bind_post _ (pool_inv K)).
  { intros w Hw. split; [done|]. intros ih [= <-]. apply Hw. }
  intros ih1 Hpool1. case_decide.
  - apply preserves_bind;
      [apply preserves_random_sample, round_inv_rand_blind|].
    intros chosen. apply preserves_for_each. intros protpair _.
    apply (preserves_bind_post _ (pool_inv K)).
    { intros w Hw. split; [done|]. intros ih [= <-]. apply Hw. }
    intros ih2 Hpool2.
    destruct (dict_get _ _) eqn:Hget; [|apply preserves_raise].
    apply round_sample_one_instance, Hpool2, dict_get_is_Some. eauto.
  - apply preserves_for_each. intros [protpair protpair_inst] Hin.
    apply round_sample_one_instance, Hpool1.
    apply list_elem_of_fmap. by exists (protpair, protpair_inst).
Qed.

Lemma round_interface_round K R0 slim_id slim_prots number_instances domain :
  matcher_frame find_DMI_matches → matcher_adds_no_pair find_DMI_matches →
  preserves (round_inv K R0)
    (interface_round find_DMI_matches slim_id slim_prots number_instances domain).
Proof.
  intros Hf Hk. unfold interface_round, round_with_groups.
  apply preserves_bind; [apply preserves_get_IH|]. intros ih1.
  destruct (dict_get _ _); [|apply preserves_raise].
  destruct (any _ && any _); [|apply preserves_ret].
  apply preserves_bind.
  { unfold draw_protein_pairs. case_decide;
      [apply preserves_random_sample, round_inv_rand_blind|apply preserves_ret]. }
  intros pairs. apply preserves_bind.
  { apply preserves_for_each. intros pp _. apply round_add_candidate. }
  intros _. apply preserves_bind; [by apply round_call_find_DMI_matches|].
  intros _. apply round_select_RRS_instances.
Qed.

Lemma excl_dmi_type_round K R0 number_instances item :
  matcher_frame find_DMI_matches → matcher_adds_no_pair find_DMI_matches →
  preserves (excl_inv K R0) (dmi_type_round find_DMI_matches number_instances item).
Proof.
  intros Hf Hk w Hw.
  cut (round_inv K R0 (dmi_type_round find_DMI_matches number_instances item w).2).
  { by intros [? _]. }
  unfold dmi_type_round, bind at 1, assign_protein_pairs_dict. cbv beta iota.
  match goal with |- round_inv _ _ (bind _ _ ?w1).2 =>
    assert (Hw1 : round_inv K R0 w1) end.
  { split; [done|]. by intros k ?%elem_of_nil. }
  revert Hw1. apply preserves_bind; [apply preserves_get_IH|]. intros ih1.
  destruct (dict_get _ _); [|apply preserves_raise].
  apply preserves_bind; [apply preserves_lift_result|]. intros domains.
  apply preserves_for_each. intros domain _. by apply round_interface_round.
Qed.

Lemma excl_make_random_protein_pairs K R0 number_instances :
  matcher_frame find_DMI_matches → matcher_adds_no_pair find_DMI_matches →
  preserves (excl_inv K R0)
    (make_random_protein_pairs_with_groups_select_RRS_instances
       find_DMI_matches number_instances).
Proof.
  intros Hf Hk. unfold make_random_protein_pairs_with_groups_select_RRS_instances.
  apply preserves_bind; [apply preserves_get_IH|]. intros ih1.
  apply preserves_for_each. intros item _. by apply excl_dmi_type_round.
Qed.

Lemma excl_run_replicates number_instances RRS_version ih rng :
  matcher_frame find_DMI_matches → matcher_adds_no_pair find_DMI_matches →
  match (run_replicates find_DMI_matches number_instances RRS_version ih rng).1.1 with
  | Ok written =>
      Forall (λ replicate,
                Forall (λ i, canonical_unknown (known_PPIs ih) (inst_pair i))
                       replicate.2) written
  | Raise _ => True
  end.
Proof.
  intros Hf Hk. revert ih rng.
  induction RRS_version as [|RRS rest IHrest]; intros ih rng; simpl; [done|].
  pose proof (excl_make_random_protein_pairs (known_PPIs ih) [] number_instances Hf Hk
                {| IH := ih; RRS_instances := []; rand := rng |}) as Hrun.
  destruct (make_random_protein_pairs_with_groups_select_RRS_instances _ _ _)
    as [[[]|e] w1]; simpl in *; [|done].
  destruct Hrun as [HK (added & -> & Hadded)].
  { split; [done|]. by exists []. }
  specialize (IHrest (IH w1) (rand w1)). rewrite HK in IHrest.
  destruct (run_replicates _ _ _ _ _) as [[[written|e] ih'] rng']; simpl in *;
    [|done].
  by constructor.
Qed.

(** C3 (known-PPI exclusion).  With a matcher that keeps the shared
    indexes and adds no pair to the candidate dictionary: entering a drawn
    pair whose sorted form is a known PPI leaves the state as it was, and
    otherwise adds only the sorted form to the dictionary keys; in the
    state a replicate ends in, by return or by exception, the known-PPI
    set is the one it started with and every instance appended by the
    replicate was drawn from a key that is sorted and is not a known PPI;
    and so is every instance of every collection written out by a run
    over any list of replicate labels. *)
Theorem known_PPI_exclusion (number_instances : Z) :
  matcher_frame find_DMI_matches → matcher_adds_no_pair find_DMI_matches →
  (∀ pp w,
     (sorted_pair pp ∈ known_PPIs (IH w) → add_candidate pp w = (Ok tt, w)) ∧
     ∀ k, k ∈ dict_keys (protein_pairs_dict (IH (add_candidate pp w).2)) ↔
          k ∈ dict_keys (protein_pairs_dict (IH w)) ∨
          (k = sorted_pair pp ∧ sorted_pair pp ∉ known_PPIs (IH w))) ∧
  (∀ w,
     known_PPIs
       (IH (make_random_protein_pairs_with_groups_select_RRS_instances
              find_DMI_matches number_instances w).2) = known_PPIs (IH w) ∧
     ∃ added,
       RRS_instances
         (make_random_protein_pairs_with_groups_select_RRS_instances
            find_DMI_matches number_instances w).2 = RRS_instances w ++ added ∧
       Forall (λ i, (inst_pair i ∉ known_PPIs (IH w)) ∧
                    sorted_pair (inst_pair i) = inst_pair i) added) ∧
  (∀ RRS_version ih rng written ih' rng',
     run_replicates find_DMI_matches number_instances RRS_version ih rng
     = (Ok written, ih', rng') →
     ∀ RRS collection i,
       (RRS, collection) ∈ written → i ∈ collection →
       (inst_pair i ∉ known_PPIs ih) ∧ sorted_pair (inst_pair i) = inst_pair i).
Proof.
  intros Hf Hk. split; [|split].
  - intros pp w. destruct (add_candidate_keys pp w) as (H1 & _ & _ & _ & H2).
    by split.
  - intros w.
    apply (excl_make_random_protein_pairs (known_PPIs (IH w)) (RRS_instances w)
             number_instances Hf Hk w).
    split; [done|]. exists []. by rewrite app_nil_r.
  - intros RRS_version ih rng written ih' rng' Hrun RRS collection i Hin Hi.
    pose proof (excl_run_replicates number_instances RRS_version ih rng Hf Hk) as H.
    rewrite Hrun in H. simpl in H.
    rewrite Forall_forall in H. specialize (H _ Hin). simpl in H.
    rewrite Forall_forall in H. by apply H.
Qed.

End Replicate.

(** ** The group builder *)

Lemma set_eqb_intersection (matches key : list string) :
  set_eqb (set_intersection matches key) key = true ↔ key ⊆ matches.
Proof.
  unfold set_eqb, set_intersection.
  rewrite andb_true_iff, !bool_decide_eq_true. split.
  - intros [_ H] x Hx. specialize (H x Hx).
    by apply list_elem_of_filter in H as [_ ?].
  - intros H. split; intros x Hx.
    + by apply list_elem_of_filter in Hx as [? _].
    + apply list_elem_of_filter. auto.
Qed.

Lemma if_bool_decide_ext {A} (P Q : Prop) `{!Decision P, !Decision Q} (x y : A) :
  (P ↔ Q) → (if bool_decide P then x else y) = (if bool_decide Q then x else y).
Proof. intros H. by rewrite (bool_decide_ext P Q H). Qed.

Lemma add_single_domain_matches_keys prot matches groups :
  dict_keys (add_single_domain_matches prot matches groups) = dict_keys groups.
Proof.
  unfold add_single_domain_matches. revert groups.
  induction matches as [|m ms IHm]; intros groups; simpl; [done|].
  rewrite IHm. destruct (dict_mem _ _); [apply dict_keys_append|done].
Qed.

Lemma add_single_domain_matches_get prot matches groups key members :
  NoDup matches →
  dict_get key groups = Some members →
  dict_get key (add_single_domain_matches prot matches groups) =
  Some (members ++
        if match key with [d] => bool_decide (d ∈ matches) | _ => false end
        then [prot] else []).
Proof.
  unfold add_single_domain_matches. revert groups members.
  induction matches as [|m ms IHm]; intros groups members Hnd Hget; cbn [foldl].
  - assert (match key with [d] => bool_decide (d ∈ []) | _ => false end = false)
      as -> by (destruct key as [|d [|? ?]]; try done;
                by rewrite bool_decide_eq_false_2 by apply not_elem_of_nil).
    by rewrite app_nil_r.
  - apply NoDup_cons in Hnd as [Hm Hnd].
    destruct (decide (key = [m])) as [->|Hne].
    + unfold dict_mem. rewrite bool_decide_eq_true_2 by (by rewrite Hget).
      rewrite (IHm _ (members ++ [prot])); [|done|].
      * rewrite bool_decide_eq_false_2 by done.
        rewrite bool_decide_eq_true_2 by left.
        by rewrite app_nil_r.
      * by rewrite dict_get_append, decide_True, Hget.
    + assert (dict_get key (if dict_mem [m] groups
                            then dict_append [m] prot groups else groups)
              = Some members) as Hget'.
      { destruct (dict_mem _ _); [|done].
        by rewrite dict_get_append, decide_False. }
      rewrite (IHm _ members Hnd Hget'). do 2 f_equal.
      destruct key as [|d [|? ?]]; try done.
      assert (bool_decide (d ∈ ms) = bool_decide (d ∈ m :: ms)) as ->; [|done].
      apply bool_decide_ext. rewrite elem_of_cons.
      split; [by right|]. intros [->|?]; done.
Qed.

Lemma add_two_domain_matches_get prot matches groups key members :
  NoDup (dict_keys groups) →
  dict_get key groups = Some members →
  dict_get key (add_two_domain_matches prot matches groups) =
  Some (members ++
        if bool_decide (length key = 2 ∧ key ⊆ matches) then [prot] else []).
Proof.
  unfold add_two_domain_matches. intros Hnd Hget.
  assert (Hin : key ∈ dict_keys groups) by (apply dict_get_is_Some; eauto).
  revert Hnd Hin. generalize (dict_keys groups) as ks.
  intros ks Hnd.
  cut (∀ g ms, dict_get key g = Some ms →
         dict_get key
           (foldl (λ g domain_group,
                     if decide (length domain_group = 2) then
                       if set_eqb (set_intersection matches domain_group) domain_group
                       then dict_append domain_group prot g else g
                     else g) g ks)
         = Some (ms ++ if bool_decide (key ∈ ks ∧ length key = 2 ∧ key ⊆ matches)
                       then [prot] else [])).
  { intros H Hin. rewrite (H groups members Hget). do 2 f_equal.
    apply if_bool_decide_ext. tauto. }
  induction ks as [|k ks IHks]; intros g ms Hg; cbn [foldl].
  - rewrite bool_decide_eq_false_2, app_nil_r; [done|].
    by intros [?%elem_of_nil _].
  - apply NoDup_cons in Hnd as [Hk Hnd].
    destruct (decide (key = k)) as [<-|Hne].
    + destruct (decide (length key = 2 ∧ key ⊆ matches)) as [[Hlen Hsub]|Hno].
      * rewrite decide_True by done.
        rewrite (proj2 (set_eqb_intersection matches key) Hsub).
        rewrite (IHks Hnd _ (ms ++ [prot]));
          [|by rewrite dict_get_append, decide_True, Hg].
        rewrite bool_decide_eq_false_2 by (by intros [? _]).
        rewrite bool_decide_eq_true_2 by (split; [left|done]).
        by rewrite app_nil_r.
      * assert ((if decide (length key = 2) then
                   if set_eqb (set_intersection matches key) key
                   then dict_append key prot g else g
                 else g) = g) as ->.
        { destruct (decide (length key = 2)); [|done].
          destruct (set_eqb _ _) eqn:E; [|done].
          apply set_eqb_intersection in E. tauto. }
        rewrite (IHks Hnd _ ms Hg).
        rewrite !bool_decide_eq_false_2; [done|tauto|by intros [? _]].
    + assert (dict_get key
                (if decide (length k = 2) then
                   if set_eqb (set_intersection matches k) k
                   then dict_append k prot g else g
                 else g) = Some ms) as Hg'.
      { destruct (decide (length k = 2)); [|done].
        destruct (set_eqb _ _); [|done].
        by rewrite dict_get_append, decide_False. }
      rewrite (IHks Hnd _ ms Hg'). do 2 f_equal.
      apply if_bool_decide_ext. rewrite elem_of_cons. tauto.
Qed.

Lemma belongs_spec (matches key : list string) :
  belongs matches key =
  match key with [d] => bool_decide (d ∈ matches) | _ => false end
  || bool_decide (length key = 2 ∧ key ⊆ matches).
Proof.
  destruct key as [|d1 [|d2 [|d3 rest]]]; cbn [belongs orb].
  - by rewrite bool_decide_eq_false_2 by (by intros [? _]).
  - rewrite (bool_decide_eq_false_2 (_ ∧ _)) by (by intros [? _]).
    by rewrite orb_false_r.
  - rewrite <- bool_decide_and. apply bool_decide_ext.
    split.
    + intros [H1 H2]. split; [done|].
      intros x [->|[->|?%elem_of_nil]%elem_of_cons]%elem_of_cons; done.
    + intros [_ H]. split; apply H; [left|right; left].
  - by rewrite bool_decide_eq_false_2 by (by intros [? _]).
Qed.

Lemma add_protein_to_groups_keys prot prot_inst groups :
  dict_keys (add_protein_to_groups prot prot_inst groups) = dict_keys groups.
Proof.
  unfold add_protein_to_groups. destruct (any _); [|done].
  rewrite <- (add_single_domain_matches_keys prot (domain_matches_dict prot_inst) groups).
  generalize (add_single_domain_matches prot (domain_matches_dict prot_inst) groups).
  intros g. unfold add_two_domain_matches. generalize (dict_keys g) at 1.
  intros ks. revert g. induction ks as [|k ks IHks]; intros g; cbn [foldl]; [done|].
  rewrite IHks. destruct (decide _); [|done].
  destruct (set_eqb _ _); [apply dict_keys_append|done].
Qed.

(** One protein: its id is appended to the group of a key exactly when
    the guard lets the protein through and the key's condition holds. *)
Lemma add_protein_to_groups_get prot prot_inst groups key members :
  NoDup (dict_keys groups) →
  NoDup (domain_matches_dict prot_inst) →
  dict_get key groups = Some members →
  dict_get key (add_protein_to_groups prot prot_inst groups) =
  Some (members ++
        if any (domain_matches_dict prot_inst)
           && belongs (domain_matches_dict prot_inst) key
        then [prot] else []).
Proof.
  intros Hkeys Hnd Hget. unfold add_protein_to_groups.
  destruct (any _); simpl; [|by rewrite app_nil_r].
  erewrite add_two_domain_matches_get;
    [|by rewrite add_single_domain_matches_keys
     |by apply add_single_domain_matches_get].
  rewrite belongs_spec, <- app_assoc. do 2 f_equal.
  destruct key as [|d1 [|d2 [|d3 rest]]]; simpl;
    rewrite ?(bool_decide_eq_false_2 (length _ = 2 ∧ _)) by (by intros [? _]);
    rewrite ?app_nil_r; try done.
  by destruct (bool_decide (d1 ∈ _)).
Qed.

Lemma guarded_members_cons key prot prot_inst (proteins : odict string Protein) :
  guarded_members key ((prot, prot_inst) :: proteins) =
  (if any (domain_matches_dict prot_inst) && belongs (domain_matches_dict prot_inst) key
   then [prot] else []) ++ guarded_members key proteins.
Proof.
  unfold guarded_members. rewrite filter_cons. simpl.
  destruct (any _ && belongs _ _); by case_decide.
Qed.

Lemma any_nonempty (l : list string) : l ≠ [] → "" ∉ l → any l = true.
Proof.
  destruct l as [|s l]; [done|]. intros _ Hs. simpl.
  destruct s; [|done]. destruct Hs. left.
Qed.

Lemma guarded_members_spec key (proteins : odict string Protein) :
  Forall (λ p, "" ∉ domain_matches_dict p.2) proteins →
  guarded_members key proteins = spec_members key proteins.
Proof.
  unfold guarded_members, spec_members. intros Hall. f_equal.
  induction Hall as [|[prot prot_inst] l Hp _ IHl]; [done|].
  rewrite !filter_cons, IHl. simpl in *.
  destruct (domain_matches_dict prot_inst) as [|m ms] eqn:E.
  - by destruct key as [|? [|? [|? ?]]].
  - rewrite <- E. rewrite any_nonempty by (by rewrite ?E). done.
Qed.

Section GroupBuilder.
Context {DMIMatch : Type}.
Implicit Types ih : @InterfaceHandling DMIMatch.

Lemma add_proteins_loop (l : odict string Protein) ih :
  NoDup (dict_keys (domain_groups ih)) →
  Forall (λ p, NoDup (domain_matches_dict p.2)) l →
  ∃ ih',
    for_each l (λ '(prot, prot_inst),
      let* ih := get in
      assign_domain_groups (add_protein_to_groups prot prot_inst (domain_groups ih)))
      ih = (Ok tt, ih') ∧
    dict_keys (domain_groups ih') = dict_keys (domain_groups ih) ∧
    ∀ key members,
      dict_get key (domain_groups ih) = Some members →
      dict_get key (domain_groups ih') = Some (members ++ guarded_members key l).
Proof.
  intros Hkeys Hl. revert ih Hkeys.
  induction Hl as [|[prot prot_inst] l Hp _ IHl]; intros ih Hkeys; simpl.
  - exists ih. do 2 (split; [done|]). intros key members ->.
    by rewrite app_nil_r.
  - unfold bind at 1. unfold bind at 1. unfold get, assign_domain_groups. simpl.
    match goal with |- context [for_each l _ ?s] =>
      destruct (IHl s) as (ih' & Hrun & Hk' & Hget') end.
    { simpl. by rewrite add_protein_to_groups_keys. }
    exists ih'. split; [done|]. simpl in *. split.
    { by rewrite Hk', add_protein_to_groups_keys. }
    intros key members Hget.
    rewrite guarded_members_cons, app_assoc. apply Hget'.
    by apply add_protein_to_groups_get.
Qed.

(** X21 (members appended by the second loop).  On domain groups with
    unique keys and proteins whose match dictionaries have unique keys,
    the second loop of the group builder completes, keeps the keys, and
    extends the group of every key by exactly the proteins, in load order,
    that pass the builder's guard (some key of the match dictionary is a
    non-empty string) and satisfy the key's condition: for a single-domain
    key, the domain is in the protein's match set; for a two-domain key,
    both domains are.  When no protein has the empty string as a domain
    id, these are exactly the proteins that satisfy the key's
    condition. *)
Theorem group_membership ih :
  NoDup (dict_keys (domain_groups ih)) →
  Forall (λ p, NoDup (domain_matches_dict p.2)) (proteins_dict ih) →
  ∃ ih',
    add_proteins_to_groups ih = (Ok tt, ih') ∧
    dict_keys (domain_groups ih') = dict_keys (domain_groups ih) ∧
    (∀ key members,
       dict_get key (domain_groups ih) = Some members →
       dict_get key (domain_groups ih') =
       Some (members ++ guarded_members key (proteins_dict ih))) ∧
    (Forall (λ p, "" ∉ domain_matches_dict p.2) (proteins_dict ih) →
     ∀ key members,
       dict_get key (domain_groups ih) = Some members →
       dict_get key (domain_groups ih') =
       Some (members ++ spec_members key (proteins_dict ih))).
Proof.
  intros Hkeys Hl.
  destruct (add_proteins_loop (proteins_dict ih) ih Hkeys Hl)
    as (ih' & Hrun & Hk' & Hget).
  exists ih'. unfold add_proteins_to_groups, bind at 1, get.
  split; [done|]. split; [done|]. split; [done|].
  intros Hne key members Hm. rewrite <- guarded_members_spec by done. auto.
Qed.

End GroupBuilder.

(** ** The group builders as a whole *)

Lemma dict_get_None `{EqDecision K} {V} (k : K) (d : odict K V) :
  k ∉ dict_keys d → dict_get k d = None.
Proof.
  intros Hk. destruct (dict_get k d) eqn:E; [|done].
  destruct Hk. apply dict_get_is_Some. eauto.
Qed.

Lemma dict_set_NoDup `{EqDecision K} {V} (k : K) (v : V) (d : odict K V) :
  NoDup (dict_keys d) → NoDup (dict_keys (dict_set k v d)).
Proof.
  induction d as [|[k' v'] d IHd]; simpl.
  - intros _. apply NoDup_singleton.
  - intros [Hk' Hd]%NoDup_cons.
    case_decide; subst; simpl; apply NoDup_cons; [done|].
    split; [|auto].
    intros Hin. apply (dict_keys_set k v d k') in Hin as [?|?]; done.
Qed.

(** A dictionary is determined by the order of its keys and the value
    under each key. *)
Lemma dict_ext `{EqDecision K} {V} (d d' : odict K V) :
  NoDup (dict_keys d) → dict_keys d = dict_keys d' →
  (∀ k, dict_get k d = dict_get k d') → d = d'.
Proof.
  revert d'. induction d as [|[k v] d IHd]; intros [|[k' v'] d']; try done.
  unfold dict_keys in *. rewrite !fmap_cons. simpl.
  intros [Hk Hd]%NoDup_cons [= <- Hkeys] Hget. f_equal.
  - specialize (Hget k). simpl in Hget. rewrite !decide_True in Hget by done.
    congruence.
  - apply IHd; [done|done|]. intros x. specialize (Hget x). simpl in Hget.
    destruct (decide (x = k)) as [->|]; [|done].
    rewrite !dict_get_None; [done| |done].
    unfold dict_keys. by rewrite <- Hkeys.
Qed.

Lemma register_keys_get `{EqDecision K} {V} (keys : list K)
    (groups : odict K (list V)) key :
  dict_get key (register_keys keys groups) =
  if bool_decide (key ∈ keys) then Some [] else dict_get key groups.
Proof.
  unfold register_keys. revert groups.
  induction keys as [|k keys IHk]; intros groups; cbn [foldl].
  - by rewrite bool_decide_eq_false_2 by apply not_elem_of_nil.
  - rewrite IHk. destruct (decide (key ∈ keys)) as [Hin|Hnot].
    + by rewrite !bool_decide_eq_true_2 by (done || by right).
    + rewrite (bool_decide_eq_false_2 _ Hnot), dict_get_set.
      destruct (decide (key = k)) as [->|Hne].
      * by rewrite bool_decide_eq_true_2 by left.
      * rewrite bool_decide_eq_false_2; [done|].
        by intros [?|?]%elem_of_cons.
Qed.

Lemma register_keys_keys `{EqDecision K} {V} (keys : list K)
    (groups : odict K (list V)) x :
  x ∈ dict_keys (register_keys keys groups) ↔ x ∈ keys ∨ x ∈ dict_keys groups.
Proof.
  unfold register_keys. revert groups.
  induction keys as [|k keys IHk]; intros groups; cbn [foldl].
  - split; [auto|]. by intros [?%elem_of_nil|?].
  - rewrite IHk, dict_keys_set, elem_of_cons. tauto.
Qed.

Lemma register_keys_NoDup `{EqDecision K} {V} (keys : list K)
    (groups : odict K (list V)) :
  NoDup (dict_keys groups) → NoDup (dict_keys (register_keys keys groups)).
Proof.
  unfold register_keys. revert groups.
  induction keys as [|k keys IHk]; intros groups Hnd; cbn [foldl]; [done|].
  by apply IHk, dict_set_NoDup.
Qed.

Lemma register_keys_present `{EqDecision K} {V} (keys : list K)
    (groups : odict K (list V)) :
  keys ⊆ dict_keys groups →
  dict_keys (register_keys keys groups) = dict_keys groups.
Proof.
  unfold register_keys. revert groups.
  induction keys as [|k keys IHk]; intros groups Hsub; cbn [foldl]; [done|].
  assert (Hk : dict_keys (dict_set k [] groups) = dict_keys groups).
  { apply dict_keys_set_present, dict_get_is_Some, Hsub. left. }
  rewrite IHk; [done|]. rewrite Hk. intros x Hx. apply Hsub. by right.
Qed.

Lemma dict_keys_set_absent `{EqDecision K} {V} (k : K) (v : V) (d : odict K V) :
  k ∉ dict_keys d → dict_keys (dict_set k v d) = dict_keys d ++ [k].
Proof.
  unfold dict_keys. induction d as [|[k' v'] d IHd]; simpl; [done|].
  intros Hk. apply not_elem_of_cons in Hk as [Hne Hk].
  rewrite decide_False by done. simpl. f_equal. by apply IHd.
Qed.

Lemma register_keys_fresh `{EqDecision K} {V} (keys : list K)
    (groups : odict K (list V)) :
  NoDup (dict_keys groups ++ keys) →
  dict_keys (register_keys keys groups) = dict_keys groups ++ keys.
Proof.
  unfold register_keys. revert groups.
  induction keys as [|k keys IHk]; intros groups Hnd; cbn [foldl].
  - by rewrite app_nil_r.
  - assert (Hk : k ∉ dict_keys groups).
    { apply NoDup_app in Hnd as (_ & Hdisj & _). intros Hin.
      apply (Hdisj k Hin). left. }
    rewrite IHk; rewrite dict_keys_set_absent by done.
    + by rewrite <- app_assoc.
    + by rewrite <- app_assoc.
Qed.

Lemma register_domain_interfaces_spec groups (t : DMIType) :
  register_domain_interfaces groups t =
  if bool_decide (0 < length (domain_interfaces t))
  then Ok (register_keys (registered_keys t) groups) else Raise IndexError.
Proof.
  unfold register_domain_interfaces, registered_keys, register_keys.
  destruct (decide (1 < length (domain_interfaces t))) as [Hlen|Hlen].
  - rewrite bool_decide_eq_true_2 by lia. by rewrite foldl_fmap.
  - destruct (domain_interfaces t) as [|di [|di' rest]]; simpl in *; [done|done|lia].
Qed.

Section Builders.
Context {DMIMatch : Type}.
Implicit Types ih : @InterfaceHandling DMIMatch.

Lemma set_up_step (t : DMIType) ih :
  (let* ih := get in
   let* g := lift_result (register_domain_interfaces (domain_groups ih) t) in
   assign_domain_groups g) ih
  = if bool_decide (0 < length (domain_interfaces t))
    then (Ok tt, set_domain_groups
                   (register_keys (registered_keys t) (domain_groups ih)) ih)
    else (Raise IndexError, ih).
Proof.
  unfold bind, get, lift_result, assign_domain_groups.
  rewrite register_domain_interfaces_spec. by destruct (bool_decide _).
Qed.

(** Lines 69-74 over a list of DMI types: the loop stops with
    [IndexError] at the first type without an interface; otherwise every
    registered key has been assigned an empty list. *)
Lemma set_up_loop (types : odict string DMIType) ih :
  ∃ g,
    for_each types (λ '(dmi_type, dmi_type_inst),
      let* ih := get in
      let* g := lift_result
                  (register_domain_interfaces (domain_groups ih) dmi_type_inst) in
      assign_domain_groups g) ih
    = (if types_have_interfaces types then Ok tt else Raise IndexError,
       set_domain_groups g ih) ∧
    (types_have_interfaces types = true →
     g = register_keys (all_registered_keys types) (domain_groups ih)).
Proof.
  revert ih. induction types as [|[dmi_type t] types IHt]; intros ih.
  - exists (domain_groups ih). by destruct ih.
  - cbn [for_each]. unfold bind at 1. cbv beta iota. rewrite set_up_step.
    unfold types_have_interfaces. cbn [forallb snd].
    destruct (bool_decide (0 < length (domain_interfaces t))); cbn [andb].
    + destruct (IHt (set_domain_groups
                       (register_keys (registered_keys t) (domain_groups ih)) ih))
        as (g & Hrun & Hg).
      exists g. split; [by rewrite Hrun|].
      intros Hall. rewrite (Hg Hall). unfold all_registered_keys.
      rewrite fmap_cons. simpl. unfold register_keys. by rewrite foldl_app.
    + exists (domain_groups ih). split; [by destruct ih|done].
Qed.

Lemma add_proteins_total (l : odict string Protein) ih :
  ∃ g,
    for_each l (λ '(prot, prot_inst),
      let* ih := get in
      assign_domain_groups (add_protein_to_groups prot prot_inst (domain_groups ih)))
      ih = (Ok tt, set_domain_groups g ih) ∧
    dict_keys g = dict_keys (domain_groups ih).
Proof.
  revert ih. induction l as [|[prot prot_inst] l IHl]; intros ih.
  - exists (domain_groups ih). by destruct ih.
  - cbn [for_each]. unfold bind at 1. unfold bind at 1.
    unfold get at 1, assign_domain_groups at 1. cbv beta iota.
    match goal with |- context [for_each l _ ?s] =>
      destruct (IHl s) as (g & Hrun & Hkeys) end.
    exists g. split; [by rewrite Hrun|].
    rewrite Hkeys. simpl. apply add_protein_to_groups_keys.
Qed.

(** The builder from any state: the outcome is decided by the DMI types
    alone; on success the keys are the old keys followed by the new
    registered ones, and the group of a key is what registration left
    under it followed by the proteins that belong to it. *)
Lemma get_domain_groups_spec ih :
  ∃ g,
    get_domain_groups ih
    = (if types_have_interfaces (dmi_types_dict ih) then Ok tt else Raise IndexError,
       set_domain_groups g ih) ∧
    (types_have_interfaces (dmi_types_dict ih) = true →
     dict_keys g
     = dict_keys (register_keys (all_registered_keys (dmi_types_dict ih))
                    (domain_groups ih)) ∧
     (NoDup (dict_keys (domain_groups ih)) →
      Forall (λ p, NoDup (domain_matches_dict p.2)) (proteins_dict ih) →
      ∀ key,
        dict_get key g
        = (λ members, members ++ guarded_members key (proteins_dict ih))
          <$> dict_get key (register_keys (all_registered_keys (dmi_types_dict ih))
                              (domain_groups ih)))).
Proof.
  unfold get_domain_groups, set_up_domain_groups.
  unfold bind at 1. unfold bind at 1. unfold get at 1.
  destruct (set_up_loop (dmi_types_dict ih) ih) as (g1 & Hrun & Hg1).
  rewrite Hrun.
  destruct (types_have_interfaces (dmi_types_dict ih)); [|by exists g1].
  specialize (Hg1 eq_refl). unfold add_proteins_to_groups, bind at 1, get at 1.
  destruct (add_proteins_total (proteins_dict ih) (set_domain_groups g1 ih))
    as (g & Hadd & Hkeys).
  exists g. split; [exact Hadd|]. intros _. simpl in Hkeys. rewrite <- Hg1.
  split; [done|]. intros Hnd Hmatches key.
  destruct (add_proteins_loop (proteins_dict ih) (set_domain_groups g1 ih))
    as (ih' & Hloop & Hkeys' & Hget).
  { simpl. rewrite Hg1. by apply register_keys_NoDup. }
  { done. }
  rewrite Hadd in Hloop. injection Hloop as <-. simpl in Hget.
  destruct (dict_get key g1) as [members|] eqn:E; simpl.
  - by apply Hget.
  - apply dict_get_None. rewrite Hkeys. intros Hin.
    apply dict_get_is_Some in Hin as [? ?]. congruence.
Qed.

Lemma guarded_members_NoDup key (proteins : odict string Protein) :
  NoDup (dict_keys proteins) → NoDup (guarded_members key proteins).
Proof.
  unfold guarded_members, dict_keys. intros Hnd.
  eapply sublist_NoDup in Hnd; [exact Hnd|]. apply fmap_sublist, sublist_filter.
Qed.

(** X1 (outcome of the domain group builder).  The builder completes
    exactly when every DMI type has at least one domain interface, and
    raises [IndexError] otherwise; either way only the domain groups of
    the shared object change. *)
Theorem get_domain_groups_outcome ih :
  ∃ g,
    get_domain_groups ih
    = (if types_have_interfaces (dmi_types_dict ih) then Ok tt else Raise IndexError,
       set_domain_groups g ih).
Proof. destruct (get_domain_groups_spec ih) as (g & Hrun & _). eauto. Qed.

(** X2 (domain groups after a build).  Whatever the domain groups held
    before, the builder leaves under every key registered by a DMI type
    exactly the proteins, in load order, that pass the guard and satisfy
    the key's condition; a key that no type registers keeps its group,
    extended by those proteins.  With unique protein ids no protein is
    listed twice in a registered group. *)
Theorem get_domain_groups_result ih :
  types_have_interfaces (dmi_types_dict ih) = true →
  NoDup (dict_keys (domain_groups ih)) →
  Forall (λ p, NoDup (domain_matches_dict p.2)) (proteins_dict ih) →
  ∃ g,
    get_domain_groups ih = (Ok tt, set_domain_groups g ih) ∧
    NoDup (dict_keys g) ∧
    (∀ key, key ∈ dict_keys g ↔
            key ∈ all_registered_keys (dmi_types_dict ih) ∨
            key ∈ dict_keys (domain_groups ih)) ∧
    (∀ key, key ∈ all_registered_keys (dmi_types_dict ih) →
       dict_get key g = Some (guarded_members key (proteins_dict ih)) ∧
       (NoDup (dict_keys (proteins_dict ih)) →
        NoDup (guarded_members key (proteins_dict ih)))) ∧
    (∀ key members,
       key ∉ all_registered_keys (dmi_types_dict ih) →
       dict_get key (domain_groups ih) = Some members →
       dict_get key g = Some (members ++ guarded_members key (proteins_dict ih))).
Proof.
  intros Htypes Hnd Hmatches.
  destruct (get_domain_groups_spec ih) as (g & Hrun & Hg).
  rewrite Htypes in Hrun. destruct (Hg Htypes) as [Hkeys Hget].
  specialize (Hget Hnd Hmatches).
  exists g. split; [done|]. split; [|split; [|split]].
  - rewrite Hkeys. by apply register_keys_NoDup.
  - intros key. rewrite Hkeys. apply register_keys_keys.
  - intros key Hkey. split; [|apply guarded_members_NoDup].
    by rewrite Hget, register_keys_get, bool_decide_eq_true_2.
  - intros key members Hkey Hold.
    by rewrite Hget, register_keys_get, bool_decide_eq_false_2, Hold.
Qed.

(** X3 (idempotent rebuild).  When every key of the domain groups is one
    that the DMI types register (as on the empty dictionary the object
    starts with), a second run of the builder leaves the state reached by
    the first: no protein is listed a second time. *)
Theorem get_domain_groups_idempotent ih ih' :
  NoDup (dict_keys (domain_groups ih)) →
  Forall (λ p, NoDup (domain_matches_dict p.2)) (proteins_dict ih) →
  dict_keys (domain_groups ih) ⊆ all_registered_keys (dmi_types_dict ih) →
  get_domain_groups ih = (Ok tt, ih') →
  get_domain_groups ih' = (Ok tt, ih').
Proof.
  intros Hnd Hmatches Hsub Hfirst.
  destruct (get_domain_groups_spec ih) as (g & Hrun & Hg).
  rewrite Hfirst in Hrun.
  destruct (types_have_interfaces (dmi_types_dict ih)) eqn:Htypes; [|done].
  injection Hrun as ->. destruct (Hg eq_refl) as [Hkeys Hget].
  specialize (Hget Hnd Hmatches).
  assert (Hnd_g : NoDup (dict_keys g)).
  { rewrite Hkeys. by apply register_keys_NoDup. }
  assert (Hall : dict_keys g ⊆ all_registered_keys (dmi_types_dict ih)).
  { intros key. rewrite Hkeys, register_keys_keys. intros [?|?]; auto. }
  destruct (get_domain_groups_spec (set_domain_groups g ih)) as (g' & Hrun' & Hg').
  simpl in Hrun', Hg'. rewrite Htypes in Hrun'. rewrite Hrun'.
  destruct (Hg' Htypes) as [Hkeys' Hget']. specialize (Hget' Hnd_g Hmatches).
  assert (g' = g) as ->; [|done].
  symmetry. apply dict_ext; [done| |].
  - rewrite Hkeys'. symmetry. apply register_keys_present.
    intros key Hkey. rewrite Hkeys, register_keys_keys. auto.
  - intros key. rewrite Hget, Hget', !register_keys_get.
    destruct (decide (key ∈ all_registered_keys (dmi_types_dict ih))) as [Hin|Hnot].
    + by rewrite !bool_decide_eq_true_2.
    + rewrite !bool_decide_eq_false_2 by done.
      rewrite !dict_get_None; [done| |]; intros Hk; apply Hnot; auto.
Qed.

(** *** The motif groups *)

Lemma set_up_slim_loop (keys : list string) ih :
  for_each keys (λ dmi_type,
    let* ih := get in
    assign_slim_groups (dict_set dmi_type [] (slim_groups ih))) ih
  = (Ok tt, set_slim_groups (register_keys keys (slim_groups ih)) ih).
Proof.
  revert ih. induction keys as [|k keys IHk]; intros ih.
  - by destruct ih.
  - cbn [for_each]. unfold bind at 1. unfold bind at 1.
    unfold get at 1, assign_slim_groups at 1. cbv beta iota.
    by rewrite IHk.
Qed.

(** Line 97 for the slim ids of one protein: the loop stops with
    [KeyError] at the first id that is not a key; it never adds a key. *)
Lemma append_slim_loop prot (ids : list string) ih :
  ∃ g,
    for_each ids (append_slim_match prot) ih
    = (if bool_decide (ids ⊆ dict_keys (slim_groups ih)) then Ok tt else Raise KeyError,
       set_slim_groups g ih) ∧
    dict_keys g = dict_keys (slim_groups ih) ∧
    (ids ⊆ dict_keys (slim_groups ih) → NoDup ids →
     ∀ slim_id,
       dict_get slim_id g
       = (λ members, members ++ if bool_decide (slim_id ∈ ids) then [prot] else [])
         <$> dict_get slim_id (slim_groups ih)).
Proof.
  revert ih. induction ids as [|s ids IHids]; intros ih.
  - exists (slim_groups ih). split; [by destruct ih|]. split; [done|].
    intros _ _ slim_id. rewrite bool_decide_eq_false_2 by apply not_elem_of_nil.
    destruct (dict_get _ _); simpl; by rewrite ?app_nil_r.
  - cbn [for_each]. unfold bind at 1. unfold append_slim_match at 1.
    unfold bind at 1, get at 1.
    destruct (dict_get s (slim_groups ih)) as [members|] eqn:Hs.
    + unfold assign_slim_groups at 1.
      set (g1 := dict_set s (members ++ [prot]) (slim_groups ih)).
      assert (Hk1 : dict_keys g1 = dict_keys (slim_groups ih)).
      { apply dict_keys_set_present. by rewrite Hs. }
      assert (Hin : s ∈ dict_keys (slim_groups ih)).
      { apply dict_get_is_Some. by rewrite Hs. }
      destruct (IHids (set_slim_groups g1 ih)) as (g & Hrun & Hkeys & Hget).
      simpl in Hrun, Hkeys, Hget. exists g. split; [|split].
      * rewrite Hrun, Hk1. f_equal.
        destruct (decide (ids ⊆ dict_keys (slim_groups ih))) as [Hsub|Hsub].
        -- rewrite !bool_decide_eq_true_2; [done| |done].
           intros x [->|?]%elem_of_cons; auto.
        -- rewrite !bool_decide_eq_false_2; [done| |done].
           intros H. apply Hsub. intros x Hx. apply H. by right.
      * by rewrite Hkeys.
      * intros Hsub [Hs_new Hnd]%NoDup_cons slim_id. rewrite Hget; [|rewrite Hk1|done].
        -- unfold g1. rewrite dict_get_set.
           destruct (decide (slim_id = s)) as [->|Hne]; simpl.
           ++ rewrite Hs. simpl. rewrite (bool_decide_eq_false_2 _ Hs_new).
              rewrite bool_decide_eq_true_2 by left. by rewrite app_nil_r.
           ++ destruct (dict_get slim_id (slim_groups ih)); simpl; [|done].
              do 2 f_equal. apply if_bool_decide_ext.
              rewrite elem_of_cons. tauto.
        -- intros x Hx. apply Hsub. by right.
    + exists (slim_groups ih). split; [|split; [done|]].
      * rewrite bool_decide_eq_false_2; [by destruct ih|].
        intros Hsub. assert (Hin : s ∈ dict_keys (slim_groups ih)) by (apply Hsub; left).
        apply dict_get_is_Some in Hin as [? ?]. congruence.
      * intros Hsub. assert (Hin : s ∈ dict_keys (slim_groups ih)) by (apply Hsub; left).
        apply dict_get_is_Some in Hin as [? ?]. congruence.
Qed.

Lemma slim_members_cons slim_id prot prot_inst (proteins : odict string Protein) :
  slim_members slim_id ((prot, prot_inst) :: proteins) =
  (if any (slim_matches_dict prot_inst)
      && bool_decide (slim_id ∈ slim_matches_dict prot_inst)
   then [prot] else []) ++ slim_members slim_id proteins.
Proof.
  unfold slim_members. rewrite filter_cons. simpl.
  destruct (any _ && bool_decide _); by case_decide.
Qed.

Lemma slim_proteins_loop (l : odict string Protein) ih :
  ∃ g,
    for_each l (λ '(prot, prot_inst),
      if any (slim_matches_dict prot_inst)
      then for_each (slim_matches_dict prot_inst) (append_slim_match prot)
      else ret tt) ih
    = (if bool_decide (looked_up_slim_ids l ⊆ dict_keys (slim_groups ih))
       then Ok tt else Raise KeyError,
       set_slim_groups g ih) ∧
    dict_keys g = dict_keys (slim_groups ih) ∧
    (looked_up_slim_ids l ⊆ dict_keys (slim_groups ih) →
     Forall (λ p, NoDup (slim_matches_dict p.2)) l →
     ∀ slim_id,
       dict_get slim_id g
       = (λ members, members ++ slim_members slim_id l)
         <$> dict_get slim_id (slim_groups ih)).
Proof.
  revert ih. induction l as [|[prot prot_inst] l IHl]; intros ih.
  - exists (slim_groups ih). split; [by destruct ih|]. split; [done|].
    intros _ _ slim_id. destruct (dict_get _ _); simpl; by rewrite ?app_nil_r.
  - cbn [for_each]. unfold bind at 1. cbv beta iota.
    unfold looked_up_slim_ids. rewrite fmap_cons. cbn [mjoin list_join snd].
    fold (looked_up_slim_ids l).
    destruct (any (slim_matches_dict prot_inst)) eqn:Hany.
    + destruct (append_slim_loop prot (slim_matches_dict prot_inst) ih)
        as (g1 & Hrun1 & Hk1 & Hget1).
      rewrite Hrun1.
      destruct (decide (slim_matches_dict prot_inst ⊆ dict_keys (slim_groups ih)))
        as [Hsub1|Hsub1].
      * rewrite (bool_decide_eq_true_2 _ Hsub1).
        destruct (IHl (set_slim_groups g1 ih)) as (g & Hrun & Hkeys & Hget).
        simpl in Hrun, Hkeys, Hget. exists g. split; [|split].
        -- rewrite Hrun, Hk1. f_equal.
           destruct (decide (looked_up_slim_ids l ⊆ dict_keys (slim_groups ih)))
             as [Hsub|Hsub].
           ++ rewrite !bool_decide_eq_true_2; [done| |done].
              intros x [?|?]%elem_of_app; auto.
           ++ rewrite !bool_decide_eq_false_2; [done| |done].
              intros H. apply Hsub. intros x Hx. apply H, elem_of_app. by right.
        -- by rewrite Hkeys.
        -- intros Hsub [Hnd1 Hnd]%Forall_cons slim_id. simpl in Hnd1.
           rewrite Hget; [|rewrite Hk1; intros x Hx; apply Hsub, elem_of_app; by right
                          |done].
           rewrite (Hget1 Hsub1 Hnd1), slim_members_cons, Hany. cbn [andb].
           destruct (dict_get slim_id (slim_groups ih)); simpl; [|done].
           by rewrite <- app_assoc.
      * rewrite (bool_decide_eq_false_2 _ Hsub1). exists g1.
        split; [|split; [done|]].
        -- rewrite bool_decide_eq_false_2; [done|].
           intros H. apply Hsub1. intros x Hx. apply H, elem_of_app. by left.
        -- intros H. destruct Hsub1. intros x Hx. apply H, elem_of_app. by left.
    + destruct (IHl ih) as (g & Hrun & Hkeys & Hget).
      exists g. split; [exact Hrun|]. split; [done|].
      intros Hsub [_ Hnd]%Forall_cons slim_id.
      rewrite (Hget Hsub Hnd), slim_members_cons, Hany. done.
Qed.

(** The builder of the motif groups from any state: it completes exactly
    when every slim id it looks up is a DMI type id or was a key already
    ([KeyError] otherwise), and only the motif groups change. *)
Lemma get_slim_groups_spec ih :
  ∃ g,
    get_slim_groups ih
    = (if bool_decide (looked_up_slim_ids (proteins_dict ih)
                       ⊆ dict_keys (register_keys (dict_keys (dmi_types_dict ih))
                                      (slim_groups ih)))
       then Ok tt else Raise KeyError,
       set_slim_groups g ih) ∧
    dict_keys g
    = dict_keys (register_keys (dict_keys (dmi_types_dict ih)) (slim_groups ih)) ∧
    (looked_up_slim_ids (proteins_dict ih)
     ⊆ dict_keys (register_keys (dict_keys (dmi_types_dict ih)) (slim_groups ih)) →
     Forall (λ p, NoDup (slim_matches_dict p.2)) (proteins_dict ih) →
     ∀ slim_id,
       dict_get slim_id g
       = (λ members, members ++ slim_members slim_id (proteins_dict ih))
         <$> dict_get slim_id (register_keys (dict_keys (dmi_types_dict ih))
                                 (slim_groups ih))).
Proof.
  unfold get_slim_groups, set_up_slim_groups.
  unfold bind at 1. unfold bind at 1. unfold get at 1.
  rewrite set_up_slim_loop. unfold add_proteins_to_slim_groups, bind at 1, get at 1.
  match goal with |- context [for_each _ _ ?s] =>
    destruct (slim_proteins_loop (proteins_dict ih) s) as (g & Hrun & Hkeys & Hget)
  end.
  simpl in Hrun, Hkeys, Hget. exists g. by split.
Qed.

(** X4 (outcome of the motif group builder).  The builder of the motif
    groups completes exactly when every slim id carried by a protein that
    passes the guard is a DMI type id or was a key of the motif groups
    already; otherwise the unguarded lookup of line 97 raises [KeyError].
    Either way only the motif groups of the shared object change. *)
Theorem get_slim_groups_outcome ih :
  ∃ g,
    get_slim_groups ih
    = (if bool_decide (looked_up_slim_ids (proteins_dict ih)
                       ⊆ dict_keys (dmi_types_dict ih) ++ dict_keys (slim_groups ih))
       then Ok tt else Raise KeyError,
       set_slim_groups g ih).
Proof.
  destruct (get_slim_groups_spec ih) as (g & Hrun & _).
  exists g. rewrite Hrun. f_equal. apply if_bool_decide_ext.
  split; intros H x Hx; specialize (H x Hx);
    rewrite register_keys_keys, ?elem_of_app in *; tauto.
Qed.

(** X5 (motif groups after a build).  When it completes, the builder
    leaves under every DMI type id exactly the proteins, in load order,
    that pass the guard and carry a match of that slim id, whatever the
    group held before; a key that is no DMI type id keeps its group,
    extended by those proteins.  Started on the empty dictionary, the keys
    of the motif groups are the DMI type ids, in the order of the DMI type
    dictionary. *)
Theorem get_slim_groups_result ih :
  Forall (λ p, NoDup (slim_matches_dict p.2)) (proteins_dict ih) →
  looked_up_slim_ids (proteins_dict ih)
  ⊆ dict_keys (dmi_types_dict ih) ++ dict_keys (slim_groups ih) →
  ∃ g,
    get_slim_groups ih = (Ok tt, set_slim_groups g ih) ∧
    (∀ slim_id, slim_id ∈ dict_keys g ↔
                slim_id ∈ dict_keys (dmi_types_dict ih) ∨
                slim_id ∈ dict_keys (slim_groups ih)) ∧
    (∀ slim_id, slim_id ∈ dict_keys (dmi_types_dict ih) →
       dict_get slim_id g = Some (slim_members slim_id (proteins_dict ih))) ∧
    (∀ slim_id members,
       slim_id ∉ dict_keys (dmi_types_dict ih) →
       dict_get slim_id (slim_groups ih) = Some members →
       dict_get slim_id g = Some (members ++ slim_members slim_id (proteins_dict ih))) ∧
    (slim_groups ih = [] → NoDup (dict_keys (dmi_types_dict ih)) →
     dict_keys g = dict_keys (dmi_types_dict ih)).
Proof.
  intros Hnd Hsub.
  destruct (get_slim_groups_spec ih) as (g & Hrun & Hkeys & Hget).
  assert (Hsub' : looked_up_slim_ids (proteins_dict ih)
                  ⊆ dict_keys (register_keys (dict_keys (dmi_types_dict ih))
                                 (slim_groups ih))).
  { intros x Hx. specialize (Hsub x Hx).
    rewrite register_keys_keys. rewrite elem_of_app in Hsub. tauto. }
  rewrite (bool_decide_eq_true_2 _ Hsub') in Hrun. specialize (Hget Hsub' Hnd).
  exists g. split; [done|]. split; [|split; [|split]].
  - intros slim_id. rewrite Hkeys. apply register_keys_keys.
  - intros slim_id Hin. by rewrite Hget, register_keys_get, bool_decide_eq_true_2.
  - intros slim_id members Hnot Hold.
    by rewrite Hget, register_keys_get, bool_decide_eq_false_2, Hold.
  - intros Hempty Hnd_types. rewrite Hkeys, Hempty.
    by rewrite register_keys_fresh.
Qed.

End Builders.

(** ** The candidate dictionary of a round *)

Lemma for_each_app {S A} (l1 l2 : list A) (body : A → M S unit) s :
  for_each (l1 ++ l2) body s = (let* _ := for_each l1 body in for_each l2 body) s.
Proof.
  revert s. induction l1 as [|x l1 IHl]; intros s; simpl; [done|].
  unfold bind at 1 2 3. destruct (body x s) as [[[]|e] s1]; [|done].
  by rewrite IHl.
Qed.

Lemma length_dict_set `{EqDecision K} {V} (k : K) (v : V) (d : odict K V) :
  length (dict_set k v d) ≤ S (length d).
Proof.
  induction d as [|[k' v'] d IHd]; simpl; [done|].
  case_decide; simpl; lia.
Qed.

Section Candidates.
Context {DMIMatch : Type}.
Implicit Types w : @world DMIMatch.
Implicit Types d : odict (string * string) (@ProteinPair DMIMatch).

Lemma assign_protein_pairs_dict_same w :
  (assign_protein_pairs_dict (protein_pairs_dict (IH w)) w).2 = w.
Proof. by destruct w as [[] ? ?]. Qed.

Lemma add_candidate_step pp w :
  add_candidate pp w
  = (Ok tt,
     (assign_protein_pairs_dict
        (if decide (sorted_pair pp ∉ known_PPIs (IH w))
         then dict_set (sorted_pair pp)
                (new_ProteinPair (sorted_pair pp).1 (sorted_pair pp).2)
                (protein_pairs_dict (IH w))
         else protein_pairs_dict (IH w)) w).2).
Proof.
  unfold add_candidate, bind, get_IH. case_decide; [done|].
  by rewrite assign_protein_pairs_dict_same.
Qed.

Lemma add_candidates_spec (pairs : list (string * string)) w :
  ∃ d,
    for_each pairs add_candidate w = (Ok tt, (assign_protein_pairs_dict d w).2) ∧
    (∀ k, dict_get k d
          = if bool_decide (k ∈ sorted_pair <$> pairs ∧ k ∉ known_PPIs (IH w))
            then Some (new_ProteinPair k.1 k.2)
            else dict_get k (protein_pairs_dict (IH w))) ∧
    (NoDup (dict_keys (protein_pairs_dict (IH w))) → NoDup (dict_keys d)) ∧
    length d ≤ length (protein_pairs_dict (IH w)) + length pairs.
Proof.
  revert w. induction pairs as [|pp pairs IHp] using rev_ind; intros w.
  - exists (protein_pairs_dict (IH w)).
    split; [by rewrite assign_protein_pairs_dict_same|].
    split; [|split; [done|simpl; lia]].
    intros k. rewrite bool_decide_eq_false_2; [done|].
    by intros [?%elem_of_nil _].
  - destruct (IHp w) as (d & Hrun & Hget & Hnd & Hlen).
    set (d' := if decide (sorted_pair pp ∉ known_PPIs (IH w))
               then dict_set (sorted_pair pp)
                      (new_ProteinPair (sorted_pair pp).1 (sorted_pair pp).2) d
               else d).
    exists d'. split; [|split; [|split]].
    + rewrite for_each_app. unfold bind at 1. rewrite Hrun. cbn [for_each].
      unfold bind at 1. by rewrite add_candidate_step.
    + intros k. unfold d'. rewrite fmap_app, fmap_cons, fmap_nil.
      destruct (decide (sorted_pair pp ∉ known_PPIs (IH w))) as [Hpp|Hpp].
      * rewrite dict_get_set, Hget.
        destruct (decide (k = sorted_pair pp)) as [->|Hne].
        -- rewrite bool_decide_eq_true_2; [done|].
           split; [|done]. apply elem_of_app. right. left.
        -- apply if_bool_decide_ext. rewrite elem_of_app, list_elem_of_singleton.
           tauto.
      * rewrite Hget. apply if_bool_decide_ext.
        rewrite elem_of_app, list_elem_of_singleton.
        split; [tauto|]. intros [[?| ->] ?]; [tauto|]. by destruct Hpp.
    + intros Hold. unfold d'. case_decide; [apply dict_set_NoDup|]; auto.
    + unfold d'. rewrite length_app. simpl.
      case_decide; [pose proof (length_dict_set (sorted_pair pp)
                      (new_ProteinPair (sorted_pair pp).1 (sorted_pair pp).2) d)|];
        lia.
Qed.

Lemma sorted_pair_same (a : string) : sorted_pair (a, a) = (a, a).
Proof.
  unfold sorted_pair, String.ltb; simpl.
  pose proof (String.compare_antisym a a) as H.
  by destruct (String.compare a a).
Qed.

Lemma draw_protein_pairs_ok (domain_prots slim_prots : list string) w :
  ∃ pairs w1,
    draw_protein_pairs domain_prots slim_prots w = (Ok pairs, w1) ∧
    same_objects w w1 ∧ length pairs ≤ 50 ∧
    pairs ⊆ list_prod domain_prots slim_prots ∧
    (length (list_prod domain_prots slim_prots) ≤ 50 →
     pairs = list_prod domain_prots slim_prots ∧ w1 = w).
Proof.
  unfold draw_protein_pairs. case_decide as Hlen.
  - destruct (random_sample_spec (list_prod domain_prots slim_prots) 50 w)
      as (out & w1 & Hs & Hsame & Hl & Hsub); [lia|].
    exists out, w1. change (Z.of_nat 50) with 50%Z in Hs.
    split; [done|]. split; [done|]. split; [lia|].
    split; [intros x Hx; by eapply elem_of_submseteq|lia].
  - exists (list_prod domain_prots slim_prots), w.
    split; [done|]. split; [done|]. split; [lia|]. by split.
Qed.

(** X6 (candidate entries).  Entering a list of drawn pairs (lines
    141-144) always completes and changes the candidate dictionary only.
    Afterwards the sorted form of every drawn pair that is not a known PPI
    is bound to a new [ProteinPair] of its two ids, without any match,
    whatever entry the key had before; every other key has the entry it
    had; unique keys stay unique, and at most one key is added per drawn
    pair. *)
Theorem candidate_entries (pairs : list (string * string)) w :
  ∃ d,
    for_each pairs add_candidate w = (Ok tt, (assign_protein_pairs_dict d w).2) ∧
    (∀ pp, pp ∈ pairs → sorted_pair pp ∉ known_PPIs (IH w) →
       dict_get (sorted_pair pp) d
       = Some (new_ProteinPair (sorted_pair pp).1 (sorted_pair pp).2)) ∧
    (∀ k, k ∉ sorted_pair <$> pairs ∨ k ∈ known_PPIs (IH w) →
       dict_get k d = dict_get k (protein_pairs_dict (IH w))) ∧
    (NoDup (dict_keys (protein_pairs_dict (IH w))) → NoDup (dict_keys d)) ∧
    length d ≤ length (protein_pairs_dict (IH w)) + length pairs.
Proof.
  destruct (add_candidates_spec pairs w) as (d & Hrun & Hget & Hnd & Hlen).
  exists d. split; [done|]. split; [|split; [|done]].
  - intros pp Hpp Hk. rewrite Hget, bool_decide_eq_true_2; [done|].
    split; [|done]. apply list_elem_of_fmap. eauto.
  - intros k Hk. rewrite Hget, bool_decide_eq_false_2; [done|]. tauto.
Qed.

(** X7 (candidate generation).  The candidate generation of one round
    (lines 137-144) always completes and leaves the collection alone.  It
    adds at most 50 keys to the candidate dictionary; every key it adds is
    the sorted form, not a known PPI, of a pair of a protein of the domain
    group with a protein of the motif group.  When the product of the two
    groups has at most 50 pairs no draw is consumed and every such pair is
    entered; a protein that is in both groups is then paired with
    itself. *)
Theorem candidate_generation (domain_prots slim_prots : list string) w :
  ∃ d w',
    (let* random_protein_pair := draw_protein_pairs domain_prots slim_prots in
     for_each random_protein_pair add_candidate) w = (Ok tt, w') ∧
    IH w' = set_protein_pairs_dict d (IH w) ∧
    RRS_instances w' = RRS_instances w ∧
    length d ≤ length (protein_pairs_dict (IH w)) + 50 ∧
    (∀ k, k ∈ dict_keys d →
       k ∈ dict_keys (protein_pairs_dict (IH w)) ∨
       (k ∉ known_PPIs (IH w)) ∧
       ∃ a b, a ∈ domain_prots ∧ b ∈ slim_prots ∧ k = sorted_pair (a, b)) ∧
    (length (list_prod domain_prots slim_prots) ≤ 50 →
       rand w' = rand w ∧
       (∀ a b, a ∈ domain_prots → b ∈ slim_prots →
          sorted_pair (a, b) ∉ known_PPIs (IH w) →
          sorted_pair (a, b) ∈ dict_keys d) ∧
       (∀ a, a ∈ domain_prots → a ∈ slim_prots → (a, a) ∉ known_PPIs (IH w) →
          (a, a) ∈ dict_keys d)).
Proof.
  pose proof (draw_protein_pairs_ok domain_prots slim_prots w) as Hdraw.
  destruct Hdraw as (pairs & w1 & Hdraw & [Hih1 HR1] & Hlen & Hsub & Hall).
  destruct (add_candidates_spec pairs w1) as (d & Hrun & Hget & _ & Hsize).
  rewrite Hih1 in Hget, Hsize.
  assert (Hkeys : ∀ k, k ∈ dict_keys d ↔
            (k ∈ sorted_pair <$> pairs ∧ k ∉ known_PPIs (IH w)) ∨
            k ∈ dict_keys (protein_pairs_dict (IH w))).
  { intros k. rewrite <- !dict_get_is_Some, Hget. case_bool_decide as Hk.
    - split; [tauto|eauto].
    - tauto. }
  exists d. eexists. split; [by rewrite (bind_ok _ _ _ _ _ Hdraw), Hrun|].
  simpl. rewrite Hih1, HR1. split; [done|]. split; [done|]. split; [lia|].
  split.
  - intros k [[Hk Hknown]|Hk]%Hkeys; [right|by left]. split; [done|].
    apply list_elem_of_fmap in Hk as ([a b] & -> & Hin). apply Hsub in Hin.
    rewrite <- list_cprod_list_prod in Hin. apply list_elem_of_cprod in Hin as [? ?].
    by exists a, b.
  - intros Hsmall. destruct (Hall Hsmall) as [-> ->]. split; [done|].
    assert (Hprod : ∀ a b, a ∈ domain_prots → b ∈ slim_prots →
              sorted_pair (a, b) ∉ known_PPIs (IH w) →
              sorted_pair (a, b) ∈ dict_keys d).
    { intros a b Ha Hb Hk. apply Hkeys. left. split; [|done].
      apply list_elem_of_fmap. exists (a, b). split; [done|].
      rewrite <- list_cprod_list_prod. by apply list_elem_of_cprod. }
    split; [done|]. intros a Ha Hb Hk.
    rewrite <- (sorted_pair_same a). apply Hprod; [done|done|].
    by rewrite sorted_pair_same.
Qed.

End Candidates.

(** ** What a replicate appends *)

Lemma domains_of_length (t : DMIType) domains :
  domains_of t = Ok domains → length domains = length (domain_interfaces t).
Proof.
  unfold domains_of. case_decide as Hlen.
  - intros H%first_domains_keys. apply Forall2_length in H.
    by rewrite length_fmap in H.
  - destruct (domain_interfaces t) as [|di [|di' rest]]; simpl in *;
      [done|by intros [= <-]|lia].
Qed.

Section Bounds.
Context {DMIMatch : Type}.
Variable find_DMI_matches : M (@InterfaceHandling DMIMatch) unit.
Implicit Types w : @world DMIMatch.
Implicit Types ih : @InterfaceHandling DMIMatch.
Implicit Types P : @RRSInstance DMIMatch → Prop.
Implicit Types protpair_inst : @ProteinPair DMIMatch.

Local Abbreviation appends_at_most := (appends_at_most (DMIMatch := DMIMatch)).

Lemma appends_same {A} P (m : M (@world DMIMatch) A) :
  (∀ w, RRS_instances (m w).2 = RRS_instances w) → appends_at_most 0 P m.
Proof. intros H w. exists []. rewrite app_nil_r. by split. Qed.

Lemma appends_ret {A} P (a : A) : appends_at_most 0 P (ret a).
Proof. by apply appends_same. Qed.

Lemma appends_weaken {A} P c c' (m : M (@world DMIMatch) A) :
  c ≤ c' → appends_at_most c P m → appends_at_most c' P m.
Proof.
  intros Hc Hm w. destruct (Hm w) as (added & HR & Hlen & HP).
  exists added. split; [done|]. split; [lia|done].
Qed.

Lemma appends_bind_post {A B} P (Q : A → Prop) c1 c2
    (m : M (@world DMIMatch) A) (k : A → M (@world DMIMatch) B) :
  (∀ w a, (m w).1 = Ok a → Q a) →
  appends_at_most c1 P m → (∀ a, Q a → appends_at_most c2 P (k a)) →
  appends_at_most (c1 + c2) P (bind m k).
Proof.
  intros HQ Hm Hk w. unfold bind. specialize (HQ w).
  destruct (Hm w) as (a1 & HR1 & Hl1 & HP1).
  destruct (m w) as [[a|e] w1]; simpl in *.
  - destruct (Hk a (HQ a eq_refl) w1) as (a2 & HR2 & Hl2 & HP2).
    exists (a1 ++ a2). rewrite HR2, HR1, app_assoc, length_app.
    split; [done|]. split; [lia|]. by apply Forall_app.
  - exists a1. split; [done|]. split; [lia|done].
Qed.

Lemma appends_bind {A B} P c1 c2
    (m : M (@world DMIMatch) A) (k : A → M (@world DMIMatch) B) :
  appends_at_most c1 P m → (∀ a, appends_at_most c2 P (k a)) →
  appends_at_most (c1 + c2) P (bind m k).
Proof.
  intros Hm Hk. apply (appends_bind_post P (λ _, True)); auto.
Qed.

Lemma appends_for_each {A} P c (l : list A) (body : A → M (@world DMIMatch) unit) :
  (∀ x, x ∈ l → appends_at_most c P (body x)) →
  appends_at_most (length l * c) P (for_each l body).
Proof.
  induction l as [|x l IHl]; intros Hbody; simpl.
  - apply appends_ret.
  - apply appends_bind; [apply Hbody; left|]. intros _.
    apply IHl. intros y Hy. apply Hbody. by right.
Qed.

Lemma sample_loop_length {A} (pool : list A) k w out :
  (sample_loop pool k w).1 = Ok out → length out = k.
Proof.
  revert pool w out. induction k as [|k IHk]; intros pool w out; simpl.
  - by intros [= <-].
  - unfold bind. destruct (randbelow (length pool) w) as [[j|e] w1]; [|done].
    destruct (pool !! j) as [x|]; [|done].
    destruct (sample_loop (delete j pool) k w1) as [[rest|e] w2] eqn:E; [|done].
    intros [= <-]. simpl. f_equal. apply (IHk (delete j pool) w1). by rewrite E.
Qed.

Lemma random_sample_length {A} (population : list A) k w out :
  (random_sample population k w).1 = Ok out → length out = Z.to_nat k.
Proof.
  unfold random_sample. case_decide; [apply sample_loop_length|done].
Qed.

Lemma appends_extend_RRS_instances P (l : list (@RRSInstance DMIMatch)) :
  Forall P l → appends_at_most (length l) P (extend_RRS_instances l).
Proof. intros HP w. exists l. by split. Qed.

(** A first part that appends nothing leaves the bound to what
    follows it. *)
Lemma appends_skip_post {A B} P (Q : A → Prop) c
    (m : M (@world DMIMatch) A) (k : A → M (@world DMIMatch) B) :
  (∀ w a, (m w).1 = Ok a → Q a) →
  (∀ w, RRS_instances (m w).2 = RRS_instances w) →
  (∀ a, Q a → appends_at_most c P (k a)) →
  appends_at_most c P (bind m k).
Proof.
  intros HQ Hm Hk. apply (appends_weaken _ (0 + c)); [lia|].
  apply (appends_bind_post P Q); [done|by apply appends_same|done].
Qed.

Lemma appends_skip {A B} P c
    (m : M (@world DMIMatch) A) (k : A → M (@world DMIMatch) B) :
  (∀ w, RRS_instances (m w).2 = RRS_instances w) →
  (∀ a, appends_at_most c P (k a)) →
  appends_at_most c P (bind m k).
Proof. intros Hm Hk. apply (appends_skip_post P (λ _, True)); auto. Qed.

Lemma appends_nothing {A} P c (m : M (@world DMIMatch) A) :
  (∀ w, RRS_instances (m w).2 = RRS_instances w) → appends_at_most c P m.
Proof. intros H. apply (appends_weaken _ 0); [lia|by apply appends_same]. Qed.

Lemma random_sample_collection {A} (population : list A) k w :
  RRS_instances (random_sample population k w).2 = RRS_instances w.
Proof. by destruct (random_sample_sound population k w) as [[_ ?] _]. Qed.

Lemma appends_sample_one_instance slim_id protpair protpair_inst :
  appends_at_most 1 (λ i, inst_slim i = slim_id)
    (sample_one_instance slim_id protpair protpair_inst).
Proof.
  unfold sample_one_instance.
  destruct (dict_get _ _) as [dmi_matches|]; [|by apply appends_nothing].
  apply (appends_skip_post _ (λ one, length one = 1)).
  - intros w one. apply random_sample_length.
  - apply random_sample_collection.
  - intros one Hone.
    eapply appends_weaken; [|apply appends_extend_RRS_instances].
    + rewrite length_map. lia.
    + clear. induction one; constructor; auto.
Qed.

Lemma appends_select_RRS_instances slim_id number_instances :
  appends_at_most (Z.to_nat number_instances) (λ i, inst_slim i = slim_id)
    (select_RRS_instances slim_id number_instances).
Proof.
  unfold select_RRS_instances. apply appends_skip; [done|]. intros ih.
  case_decide as HT.
  - apply (appends_skip_post _ (λ chosen, length chosen = Z.to_nat number_instances)).
    + intros w chosen. apply random_sample_length.
    + apply random_sample_collection.
    + intros chosen Hlen.
      apply (appends_weaken _ (length chosen * 1)); [lia|].
      apply appends_for_each.
      intros protpair _. apply appends_skip; [done|].
      intros ih'. destruct (dict_get _ _);
        [apply appends_sample_one_instance|by apply appends_nothing].
  - apply (appends_weaken _ (length (protein_pairs_dict ih) * 1)); [lia|].
    apply appends_for_each.
    intros [protpair protpair_inst] _. apply appends_sample_one_instance.
Qed.

Lemma appends_interface_round slim_id slim_prots number_instances domain :
  appends_at_most (Z.to_nat number_instances) (λ i, inst_slim i = slim_id)
    (interface_round find_DMI_matches slim_id slim_prots number_instances domain).
Proof.
  unfold interface_round, round_with_groups. apply appends_skip; [done|].
  intros ih. destruct (dict_get _ _); [|by apply appends_nothing].
  destruct (any _ && any _); [|by apply appends_nothing].
  apply appends_skip.
  { intros w. unfold draw_protein_pairs.
    case_decide; [apply random_sample_collection|done]. }
  intros pairs. apply appends_skip.
  { intros w. destruct (add_candidates_spec pairs w) as (d & Hrun & _).
    by rewrite Hrun. }
  intros _. apply appends_skip.
  { intros w. unfold call_find_DMI_matches. by destruct (find_DMI_matches (IH w)). }
  intros _. apply appends_select_RRS_instances.
Qed.

(** One DMI type, from any state and whether the round completes or
    raises: only instances looked up under the slim id are appended, at
    most [number_instances] of them for each domain interface of the
    type, and none when the target is not positive. *)
Lemma dmi_type_round_appends number_instances item w :
  ∃ added,
    RRS_instances (dmi_type_round find_DMI_matches number_instances item w).2
    = RRS_instances w ++ added ∧
    Forall (λ i, inst_slim i = item.1) added ∧
    length added ≤ interface_count (IH w) item.1 * Z.to_nat number_instances.
Proof.
  unfold dmi_type_round, bind at 1, assign_protein_pairs_dict at 1.
  unfold bind at 1, get_IH at 1. cbv beta iota. unfold interface_count.
  change (dmi_types_dict (IH {| IH := set_protein_pairs_dict [] (IH w);
                                RRS_instances := RRS_instances w;
                                rand := rand w |}))
    with (dmi_types_dict (IH w)).
  destruct (dict_get item.1 (dmi_types_dict (IH w))) as [t|].
  - unfold bind at 1, lift_result at 1.
    destruct (domains_of t) as [domains|e] eqn:Hdomains.
    + rewrite <- (domains_of_length t domains Hdomains).
      match goal with |- context [for_each domains ?body ?s] =>
        destruct (appends_for_each (λ i, inst_slim i = item.1)
                    (Z.to_nat number_instances) domains body
                    (λ domain _, appends_interface_round item.1 item.2
                                   number_instances domain) s)
          as (added & HR & Hlen & HP) end.
      exists added. by split.
    + exists []. simpl. rewrite app_nil_r. split; [done|]. split; [done|lia].
  - exists []. simpl. rewrite app_nil_r. split; [done|]. split; [done|lia].
Qed.

(** X8 (instances per DMI type).  A DMI type contributes only instances
    looked up under its slim id, and at most [number_instances] of them
    for each of its domain interfaces: at most [number_instances] for a
    type with one interface.  This holds from every state, for every
    matcher and random source, and whether the round of the type completes
    or raises. *)
Theorem instances_per_type_bound (number_instances : Z) (item : string * list string) w :
  ∃ added,
    RRS_instances (dmi_type_round find_DMI_matches number_instances item w).2
    = RRS_instances w ++ added ∧
    Forall (λ i, inst_slim i = item.1) added ∧
    length added ≤ interface_count (IH w) item.1 * Z.to_nat number_instances.
Proof. apply dmi_type_round_appends. Qed.

(** X9 (target counts that are not positive).  The selection step then
    leaves the state as it was, returning normally for 0 and raising
    [ValueError] (from [random.sample]) for a negative count, whatever the
    candidate dictionary holds; and a replicate appends no instance at
    all. *)
Theorem nonpositive_target (number_instances : Z) :
  (number_instances ≤ 0)%Z →
  (∀ slim_id w,
     select_RRS_instances slim_id number_instances w
     = (if decide (number_instances = 0)%Z then Ok tt else Raise ValueError, w)) ∧
  (∀ w,
     RRS_instances
       (make_random_protein_pairs_with_groups_select_RRS_instances
          find_DMI_matches number_instances w).2 = RRS_instances w).
Proof.
  intros HT. split.
  - intros slim_id w. unfold select_RRS_instances, bind at 1, get_IH.
    rewrite decide_True by lia. case_decide as H0.
    + subst. unfold random_sample. rewrite decide_True by lia. done.
    + apply bind_raise, random_sample_raise. lia.
  - intros w. unfold make_random_protein_pairs_with_groups_select_RRS_instances.
    assert (Hnone : appends_at_most 0 (λ _, True)
                      (let* ih := get_IH in
                       for_each (slim_groups ih)
                         (dmi_type_round find_DMI_matches number_instances))).
    { apply appends_skip; [done|]. intros ih.
      apply (appends_weaken _ (length (slim_groups ih) * 0)); [lia|].
      apply appends_for_each. intros item _ w1.
      destruct (dmi_type_round_appends number_instances item w1)
        as (added & HR & _ & Hlen).
      exists added. split; [done|]. split; [|by apply Forall_true].
      rewrite Z2Nat.nonpos in Hlen by done. lia. }
    destruct (Hnone w) as (added & HR & Hlen & _).
    destruct added; [|simpl in Hlen; lia]. by rewrite app_nil_r in HR.
Qed.

(** X10 (DMI types without motif proteins).  For a DMI type whose motif
    group is empty the candidate dictionary is reset and nothing else
    happens: no pair is drawn, the matcher is not called, nothing is
    appended.  The lookups of lines 124-135 are still made, and their
    outcome is the outcome of the round. *)
Theorem motif_free_type_round (number_instances : Z) (slim_id : string) w :
  dmi_type_round find_DMI_matches number_instances (slim_id, []) w
  = (lookup_outcome (IH w) slim_id, (assign_protein_pairs_dict [] w).2).
Proof.
  unfold dmi_type_round, bind at 1, assign_protein_pairs_dict at 1.
  unfold bind at 1, get_IH at 1. cbv beta iota. unfold lookup_outcome.
  set (w1 := {| IH := set_protein_pairs_dict [] (IH w);
                RRS_instances := RRS_instances w; rand := rand w |}).
  change (dmi_types_dict (IH w1)) with (dmi_types_dict (IH w)).
  change (assign_protein_pairs_dict [] w).2 with w1. cbn [fst snd].
  destruct (dict_get slim_id (dmi_types_dict (IH w))) as [t|]; [|done].
  unfold bind, lift_result. destruct (domains_of t) as [domains|e]; [|done].
  assert (Hstep : ∀ domain,
            interface_round find_DMI_matches slim_id [] number_instances domain w1
            = (if dict_mem (group_key domain) (domain_groups (IH w))
               then Ok tt else Raise KeyError, w1)).
  { intros domain. unfold interface_round, bind, get_IH, dict_mem.
    change (domain_groups (IH w1)) with (domain_groups (IH w)).
    destruct (dict_get _ _) eqn:E.
    - rewrite bool_decide_eq_true_2 by eauto.
      unfold round_with_groups. by rewrite andb_false_r.
    - rewrite bool_decide_eq_false_2; [done|]. by intros [? ?]. }
  induction domains as [|domain domains IHd]; cbn [for_each forallb]; [done|].
  unfold bind at 1. rewrite Hstep.
  destruct (dict_mem (group_key domain) (domain_groups (IH w))); [|done].
  apply IHd.
Qed.

Lemma forallb_false_elem {A} (f : A → bool) (l : list A) :
  forallb f l = false → ∃ x, x ∈ l ∧ f x = false.
Proof.
  induction l as [|x l IHl]; simpl; [done|].
  destruct (f x) eqn:E; simpl.
  - intros (y & Hy & Hf)%IHl. exists y. split; [by right|done].
  - intros _. exists x. split; [left|done].
Qed.

(** A loop with an element on which the body raises from every state
    that satisfies an invariant of the loop does not complete. *)
Lemma for_each_raises_inv {S A} (I : S → Prop) (l : list A) (body : A → M S unit) x :
  x ∈ l → (∀ y, y ∈ l → preserves I (body y)) →
  (∀ s, I s → ∃ e s', body x s = (Raise e, s')) →
  ∀ s, I s → ∃ e s', for_each l body s = (Raise e, s').
Proof.
  intros Hx Hpres Hraise. induction l as [|y l IHl]; [by apply elem_of_nil in Hx|].
  intros s Hs. simpl. unfold bind.
  assert (Hs1 : I (body y s).2) by (apply Hpres; [left|done]).
  destruct (body y s) as [[[]|e] s1] eqn:E; [|eauto].
  apply elem_of_cons in Hx as [->|Hx].
  - destruct (Hraise s Hs) as (e & s' & He). congruence.
  - apply IHl; [done| |done]. intros z Hz. apply Hpres. by right.
Qed.

Lemma dmi_type_round_raises ih0 number_instances item e0 :
  matcher_frame find_DMI_matches →
  lookup_outcome ih0 item.1 = Raise e0 →
  ∀ w, frame_inv ih0 w →
    ∃ e w', dmi_type_round find_DMI_matches number_instances item w = (Raise e, w').
Proof.
  intros Hm Hlook w Hw. pose proof Hw as (Hp & Ht & Hk & Hg & Hs).
  unfold dmi_type_round, bind at 1, assign_protein_pairs_dict at 1.
  unfold bind at 1, get_IH at 1. cbv beta iota.
  set (w1 := {| IH := set_protein_pairs_dict [] (IH w);
                RRS_instances := RRS_instances w; rand := rand w |}).
  change (dmi_types_dict (IH w1)) with (dmi_types_dict (IH w)). rewrite Ht.
  unfold lookup_outcome in Hlook.
  destruct (dict_get item.1 (dmi_types_dict ih0)) as [t|]; [|by eexists _, _].
  unfold bind at 1, lift_result.
  destruct (domains_of t) as [domains|e]; [|by eexists _, _].
  destruct (forallb _ domains) eqn:Hall; [done|].
  apply forallb_false_elem in Hall as (domain & Hin & Hmem).
  apply (for_each_raises_inv (frame_inv ih0) domains _ domain); [done| | |done].
  - intros y _. by apply frame_interface_round.
  - intros s (_ & _ & _ & Hg' & _). exists KeyError, s.
    unfold interface_round, bind, get_IH. rewrite Hg'.
    unfold dict_mem in Hmem. apply bool_decide_eq_false in Hmem.
    destruct (dict_get _ _); [|done]. destruct Hmem. eauto.
Qed.

(** X11 (a failing lookup stops the replicate).  When one of the lookups
    of lines 124-135 fails for a slim id of the motif groups, then, with a
    matcher that keeps the shared indexes, the replicate raises on every
    random source, whatever the target count and whether or not any
    protein carries the motif. *)
Theorem unresolved_type_aborts (number_instances : Z) (slim_id : string) e0 w :
  matcher_frame find_DMI_matches →
  slim_id ∈ dict_keys (slim_groups (IH w)) →
  lookup_outcome (IH w) slim_id = Raise e0 →
  ∃ e w',
    make_random_protein_pairs_with_groups_select_RRS_instances
      find_DMI_matches number_instances w = (Raise e, w').
Proof.
  intros Hm Hin Hlook.
  apply list_elem_of_fmap in Hin as ([sid slim_prots] & -> & Hin).
  unfold make_random_protein_pairs_with_groups_select_RRS_instances, bind, get_IH.
  apply (for_each_raises_inv (frame_inv (IH w)) _ _ (sid, slim_prots));
    [done| | |apply shared_eq_refl].
  - intros item _. by apply frame_dmi_type_round.
  - intros s Hs. by eapply dmi_type_round_raises.
Qed.

(** A loop whose body completes from every state that satisfies an
    invariant, and keeps it, completes from every such state. *)
Lemma for_each_ok_inv {S A} (I : S → Prop) (l : list A) (body : A → M S unit) :
  (∀ x s, x ∈ l → I s → ∃ s', body x s = (Ok tt, s') ∧ I s') →
  ∀ s, I s → ∃ s', for_each l body s = (Ok tt, s') ∧ I s'.
Proof.
  induction l as [|x l IHl]; intros Hbody s Hs; simpl; [by exists s|].
  destruct (Hbody x s) as (s1 & Hx & Hs1); [left|done|].
  rewrite (bind_ok _ _ _ _ _ Hx). apply IHl; [|done].
  intros y s2 Hy. apply Hbody. by right.
Qed.

Lemma interface_round_ok ih0 slim_id slim_prots number_instances domain :
  matcher_frame find_DMI_matches →
  (∀ ih, shared_eq ih0 ih →
     (find_DMI_matches ih).1 = Ok tt ∧
     all_matched slim_id (protein_pairs_dict (find_DMI_matches ih).2) = true) →
  (0 ≤ number_instances)%Z →
  is_Some (dict_get (group_key domain) (domain_groups ih0)) →
  ∀ w, frame_inv ih0 w →
    ∃ w', interface_round find_DMI_matches slim_id slim_prots number_instances
            domain w = (Ok tt, w') ∧ frame_inv ih0 w'.
Proof.
  intros Hframe Hmatcher HT [domain_prots Hkey] w Hw.
  unfold interface_round, bind at 1, get_IH at 1.
  pose proof Hw as (_ & _ & _ & Hg & _). rewrite Hg, Hkey.
  unfold round_with_groups. destruct (any _ && any _); [|by exists w].
  destruct (draw_protein_pairs_ok domain_prots slim_prots w)
    as (pairs & w1 & Hdraw & [Hih1 HR1] & _).
  rewrite (bind_ok _ _ _ _ _ Hdraw).
  destruct (add_candidates_spec pairs w1) as (d & Hadd & _).
  rewrite (bind_ok _ _ _ _ _ Hadd).
  set (w2 := (assign_protein_pairs_dict d w1).2).
  assert (Hw2 : shared_eq ih0 (IH w2)).
  { unfold w2; simpl. rewrite Hih1. by destruct Hw as (?&?&?&?&?). }
  destruct (Hmatcher (IH w2) Hw2) as [Hok Hall].
  pose proof (Hframe (IH w2)) as Hkeep.
  unfold bind at 1, call_find_DMI_matches at 1.
  destruct (find_DMI_matches (IH w2)) as [r ih3]; simpl in Hok, Hall, Hkeep.
  subst r.
  match goal with |- context [select_RRS_instances _ _ ?w3] =>
    destruct (select_RRS_instances_ok slim_id (Z.to_nat number_instances) w3 Hall)
      as (added & w' & Hsel & Hih' & _) end.
  rewrite Z2Nat.id in Hsel by done. exists w'. split; [done|].
  unfold frame_inv. rewrite Hih'. simpl. by eapply shared_eq_trans.
Qed.

(** X12 (completion of a replicate).  The converse: with a target count
    that is not negative and a matcher that keeps the shared indexes,
    returns normally and leaves in the candidate dictionary only pairs
    with a recorded match for each slim id of the motif groups, a
    replicate completes on every random source as soon as the lookups of
    every slim id of the motif groups succeed; the shared indexes are then
    what they were. *)
Theorem replicate_completes (number_instances : Z) w :
  matcher_frame find_DMI_matches →
  (∀ ih, shared_eq (IH w) ih →
     (find_DMI_matches ih).1 = Ok tt ∧
     ∀ slim_id, slim_id ∈ dict_keys (slim_groups (IH w)) →
       all_matched slim_id (protein_pairs_dict (find_DMI_matches ih).2) = true) →
  (0 ≤ number_instances)%Z →
  (∀ slim_id, slim_id ∈ dict_keys (slim_groups (IH w)) →
     lookup_outcome (IH w) slim_id = Ok tt) →
  ∃ w',
    make_random_protein_pairs_with_groups_select_RRS_instances
      find_DMI_matches number_instances w = (Ok tt, w') ∧
    shared_eq (IH w) (IH w').
Proof.
  intros Hframe Hmatcher HT Hlook.
  unfold make_random_protein_pairs_with_groups_select_RRS_instances, bind, get_IH.
  apply (for_each_ok_inv (frame_inv (IH w))); [|apply shared_eq_refl].
  intros [slim_id slim_prots] s Hitem Hs.
  assert (Hin : slim_id ∈ dict_keys (slim_groups (IH w))).
  { apply list_elem_of_fmap. by exists (slim_id, slim_prots). }
  specialize (Hlook slim_id Hin). unfold lookup_outcome in Hlook.
  unfold dmi_type_round, bind at 1, assign_protein_pairs_dict at 1.
  unfold bind at 1, get_IH at 1. cbv beta iota.
  set (s1 := {| IH := set_protein_pairs_dict [] (IH s);
                RRS_instances := RRS_instances s; rand := rand s |}).
  change (dmi_types_dict (IH s1)) with (dmi_types_dict (IH s)).
  pose proof Hs as (_ & Ht & _). rewrite Ht. cbn [fst snd].
  destruct (dict_get slim_id (dmi_types_dict (IH w))) as [t|]; [|done].
  unfold bind at 1, lift_result.
  destruct (domains_of t) as [domains|e]; [|done].
  destruct (forallb _ domains) eqn:Hall; [|done].
  apply (for_each_ok_inv (frame_inv (IH w))).
  - intros domain s2 Hdomain Hs2.
    apply (interface_round_ok (IH w)); try done.
    + intros ih Hih. destruct (Hmatcher ih Hih) as [Hok Hm]. auto.
    + rewrite forallb_forall in Hall. specialize (Hall domain).
      rewrite <- list_elem_of_In in Hall. specialize (Hall Hdomain).
      unfold dict_mem in Hall. by apply bool_decide_eq_true in Hall.
  - by destruct Hs as (?&?&?&?&?).
Qed.

Lemma replicate_blocks ih0 number_instances (l : list (string * list string)) :
  matcher_frame find_DMI_matches →
  ∀ w, frame_inv ih0 w →
  ∃ blocks,
    RRS_instances (for_each l (dmi_type_round find_DMI_matches number_instances) w).2
    = RRS_instances w ++ mjoin blocks ∧
    Forall2 (λ item block,
               Forall (λ i, inst_slim i = item.1) block ∧
               length block ≤ interface_count ih0 item.1 * Z.to_nat number_instances)
            (take (length blocks) l) blocks ∧
    ((for_each l (dmi_type_round find_DMI_matches number_instances) w).1 = Ok tt →
     length blocks = length l).
Proof.
  intros Hm. induction l as [|item l IHl]; intros w Hw.
  - exists []. simpl. rewrite app_nil_r. split; [done|]. split; [constructor|done].
  - cbn [for_each]. unfold bind.
    destruct (dmi_type_round_appends number_instances item w)
      as (added & HR & HP & Hlen).
    assert (Hcount : interface_count (IH w) item.1 = interface_count ih0 item.1).
    { unfold interface_count. by destruct Hw as (_ & -> & _). }
    rewrite Hcount in Hlen.
    pose proof (frame_dmi_type_round find_DMI_matches ih0 number_instances item
                  Hm w Hw) as Hw1.
    destruct (dmi_type_round find_DMI_matches number_instances item w)
      as [[[]|e] w1]; simpl in HR, Hw1.
    + destruct (IHl w1 Hw1) as (blocks & HR' & HF & Hok).
      exists (added :: blocks). cbn [mjoin list_join length take].
      rewrite HR', HR, app_assoc. split; [done|].
      split; [by constructor|]. intros H. f_equal. auto.
    + exists [added]. cbn [mjoin list_join length take snd fst].
      rewrite app_nil_r. split; [done|].
      split; [|done]. rewrite take_0. by repeat constructor.
Qed.

(** X13 (instances grouped by DMI type).  With a matcher that keeps the
    shared indexes, the instances a replicate appends come in consecutive
    blocks, one for each DMI type processed, in the order of the motif
    groups: a block holds only instances looked up under the slim id of
    its type, and at most [number_instances] for each domain interface of
    the type.  When the replicate completes there is a block for every key
    of the motif groups. *)
Theorem replicate_grouped_by_type (number_instances : Z) w :
  matcher_frame find_DMI_matches →
  ∃ blocks,
    RRS_instances
      (make_random_protein_pairs_with_groups_select_RRS_instances
         find_DMI_matches number_instances w).2
    = RRS_instances w ++ mjoin blocks ∧
    Forall2 (λ item block,
               Forall (λ i, inst_slim i = item.1) block ∧
               length block ≤ interface_count (IH w) item.1
                              * Z.to_nat number_instances)
            (take (length blocks) (slim_groups (IH w))) blocks ∧
    ((make_random_protein_pairs_with_groups_select_RRS_instances
        find_DMI_matches number_instances w).1 = Ok tt →
     length blocks = length (slim_groups (IH w))).
Proof.
  intros Hm.
  unfold make_random_protein_pairs_with_groups_select_RRS_instances, bind, get_IH.
  apply (replicate_blocks (IH w) number_instances (slim_groups (IH w)) Hm w).
  apply shared_eq_refl.
Qed.

End Bounds.

(** ** From the group builder to the engine *)

Lemma first_domains_singletons (l : list DomainInterface) :
  Forall (λ di, length (domain_dict di) = 1) l →
  ∃ ds, first_domains l = Ok ds ∧ group_key <$> ds = domain_dict <$> l.
Proof.
  induction 1 as [|di l Hdi _ (ds & Hds & Hkeys)]; [by exists []|].
  simpl. unfold first_domain.
  destruct (domain_dict di) as [|d [|d' rest]] eqn:E; simpl in Hdi; try done.
  rewrite Hds. exists (inl d :: ds). split; [done|].
  rewrite !fmap_cons, Hkeys, ?E. simpl. by rewrite ?E.
Qed.

Lemma registered_keys_all (types : odict string DMIType) dmi_type t key :
  (dmi_type, t) ∈ types → key ∈ registered_keys t → key ∈ all_registered_keys types.
Proof.
  intros Hin Hkey. unfold all_registered_keys. apply list_elem_of_join.
  exists (registered_keys t). split; [done|].
  apply list_elem_of_fmap. by exists (dmi_type, t).
Qed.

Section Resolution.
Context {DMIMatch : Type}.
Implicit Types ih : @InterfaceHandling DMIMatch.

(** X14 (from the builder to the engine).  After the group builder has
    run, the engine's lookups succeed for every DMI type that has one
    domain interface, or several interfaces of one domain id each: the
    domains of the type can be listed, and the key of each of them finds
    the group of exactly the proteins, in load order, that pass the
    builder's guard and carry the interface's domains. *)
Theorem builder_resolves_interfaces ih ih' (dmi_type : string) (t : DMIType) :
  get_domain_groups ih = (Ok tt, ih') →
  NoDup (dict_keys (domain_groups ih)) →
  Forall (λ p, NoDup (domain_matches_dict p.2)) (proteins_dict ih) →
  (dmi_type, t) ∈ dmi_types_dict ih →
  (1 < length (domain_interfaces t) →
   Forall (λ di, length (domain_dict di) = 1) (domain_interfaces t)) →
  (∃ domains,
     domains_of t = Ok domains ∧
     Forall (λ domain,
               dict_get (group_key domain) (domain_groups ih')
               = Some (guarded_members (group_key domain) (proteins_dict ih)))
            domains) ∧
  (NoDup (dict_keys (dmi_types_dict ih)) → lookup_outcome ih' dmi_type = Ok tt).
Proof.
  intros Hrun Hnd Hmatches Ht Hsingle.
  destruct (get_domain_groups_spec ih) as (g & Hrun' & Hg).
  rewrite Hrun in Hrun'.
  destruct (types_have_interfaces (dmi_types_dict ih)) eqn:Htypes; [|done].
  injection Hrun' as ->. destruct (Hg eq_refl) as [_ Hget].
  specialize (Hget Hnd Hmatches).
  assert (Hlen : 0 < length (domain_interfaces t)).
  { unfold types_have_interfaces in Htypes. rewrite forallb_forall in Htypes.
    specialize (Htypes (dmi_type, t)). rewrite <- list_elem_of_In in Htypes.
    specialize (Htypes Ht). by apply bool_decide_eq_true in Htypes. }
  assert (Hdomains : ∃ domains,
            domains_of t = Ok domains ∧ group_key <$> domains = registered_keys t).
  { unfold domains_of, registered_keys. case_decide as Hmulti.
    - by apply first_domains_singletons, Hsingle.
    - destruct (domain_interfaces t) as [|di [|di' rest]]; simpl in *; [lia| |lia].
      by exists [inr (domain_dict di)]. }
  destruct Hdomains as (domains & Hdomains & Hkeys).
  assert (Hfound : Forall (λ domain,
            dict_get (group_key domain) (set_domain_groups g ih).(domain_groups)
            = Some (guarded_members (group_key domain) (proteins_dict ih))) domains).
  { apply Forall_forall. intros domain Hin. simpl.
    rewrite Hget, register_keys_get, bool_decide_eq_true_2; [done|].
    apply (registered_keys_all _ dmi_type t); [done|].
    rewrite <- Hkeys. apply list_elem_of_fmap. eauto. }
  split; [by exists domains|].
  intros Hnd_types. unfold lookup_outcome. simpl.
  rewrite (dict_get_NoDup dmi_type _ t Hnd_types Ht), Hdomains.
  rewrite (proj2 (forallb_forall _ _)); [done|].
  intros domain Hin%list_elem_of_In. unfold dict_mem.
  apply bool_decide_eq_true. rewrite Forall_forall in Hfound.
  specialize (Hfound domain Hin). simpl in Hfound. by rewrite Hfound.
Qed.

(** X15 (a first domain id that is no key).  The builder registers an
    interface under the full list of its domain ids, the engine looks up
    the first id alone for a type with several interfaces.  So when such a
    type has an interface whose first domain id, taken alone, is neither
    a key registered by some DMI type nor a key the domain groups had
    already, the lookups of the type fail on the state the builder
    leaves. *)
Theorem first_domain_not_registered ih ih' (dmi_type : string) (t : DMIType)
    (di : DomainInterface) (d : string) :
  get_domain_groups ih = (Ok tt, ih') →
  NoDup (dict_keys (dmi_types_dict ih)) →
  (dmi_type, t) ∈ dmi_types_dict ih →
  1 < length (domain_interfaces t) →
  di ∈ domain_interfaces t → head (domain_dict di) = Some d →
  [d] ∉ all_registered_keys (dmi_types_dict ih) →
  [d] ∉ dict_keys (domain_groups ih) →
  ∃ e, lookup_outcome ih' dmi_type = Raise e.
Proof.
  intros Hrun Hnd_types Ht Hmulti Hdi Hd Hreg Hold.
  destruct (get_domain_groups_spec ih) as (g & Hrun' & Hg).
  rewrite Hrun in Hrun'.
  destruct (types_have_interfaces (dmi_types_dict ih)) eqn:Htypes; [|done].
  injection Hrun' as ->. destruct (Hg eq_refl) as [Hkeys _].
  assert (Hnone : dict_get [d] g = None).
  { apply dict_get_None. rewrite Hkeys, register_keys_keys. tauto. }
  unfold lookup_outcome. simpl.
  rewrite (dict_get_NoDup dmi_type _ t Hnd_types Ht).
  destruct (domains_of t) as [domains|e] eqn:Hdomains; [|by exists e].
  exists KeyError.
  unfold domains_of in Hdomains. rewrite decide_True in Hdomains by done.
  apply first_domains_keys in Hdomains.
  apply list_elem_of_lookup in Hdi as [i Hi].
  destruct (Forall2_lookup_l _ _ _ _ _ Hdomains Hi) as (key & Hkey & d' & Hd' & ->).
  rewrite Hd in Hd'. injection Hd' as <-.
  apply list_lookup_fmap_Some in Hkey as (domain & Hkey & Hdomain).
  destruct (forallb _ domains) eqn:Hall; [|done].
  rewrite forallb_forall in Hall. specialize (Hall domain).
  rewrite <- list_elem_of_In in Hall.
  assert (Hin : domain ∈ domains) by (by eapply list_elem_of_lookup_2).
  specialize (Hall Hin). unfold dict_mem in Hall.
  apply bool_decide_eq_true in Hall as [prots Hprots].
  rewrite <- Hkey, Hnone in Hprots. done.
Qed.

End Resolution.

(** ** The loader of the proteins with network information *)

Lemma split_length sep s : length (split sep s) = S (count_char sep s).
Proof.
  induction s as [|c s IHs]; simpl; [done|].
  destruct (Ascii.eqb c sep); simpl; [by rewrite IHs|].
  destruct (split sep s); simpl in *; [done|lia].
Qed.

Lemma split_absent sep s : count_char sep s = 0 → split sep s = [s].
Proof.
  induction s as [|c s IHs]; simpl; [done|].
  destruct (Ascii.eqb c sep); simpl; [done|]. intros H. by rewrite IHs.
Qed.

Lemma split_app sep a b :
  count_char sep a = 0 → split sep (a +:+ String sep b) = a :: split sep b.
Proof.
  induction a as [|c a IHa]; simpl.
  - intros _. by rewrite Ascii.eqb_refl.
  - destruct (Ascii.eqb c sep); simpl; [done|]. intros H. by rewrite IHa.
Qed.

Lemma count_char_app c a b :
  count_char c (a +:+ b) = count_char c a + count_char c b.
Proof. induction a as [|c' a IHa]; simpl; [done|]. rewrite IHa. lia. Qed.

Lemma last_split_app sep a b d :
  List.last (split sep (a +:+ String sep b)) d = List.last (split sep b) d.
Proof.
  induction a as [|c a IHa]; simpl.
  - rewrite Ascii.eqb_refl. pose proof (split_length sep b) as Hlen.
    by destruct (split sep b).
  - pose proof (split_length sep (a +:+ String sep b)) as Hlen.
    rewrite count_char_app in Hlen. simpl in Hlen.
    rewrite Ascii.eqb_refl in Hlen. rewrite <- IHa.
    destruct (split sep (a +:+ String sep b)) as [|part [|part' parts]];
      simpl in Hlen; try lia.
    by destruct (Ascii.eqb c sep).
Qed.

Lemma file_of_path_join dir file :
  count_char "/" file = 0 → file_of_path (dir +:+ "/" +:+ file) = file.
Proof.
  intros H. unfold file_of_path.
  change (dir +:+ "/" +:+ file) with (dir +:+ String "/" file).
  by rewrite last_split_app, split_absent.
Qed.

(** X16 (file naming conventions).  The two conventions read back: a
    network file [<dir>/<id>_<rest>] gives the protein id [<id>] when the
    id has no underscore, and a sequence file [<dir>/<id>.<rest>] gives
    [<id>] when neither part has a dot (no part of a file name has a
    slash). *)
Theorem file_name_conventions (dir id rest : string) :
  count_char "/" id = 0 → count_char "/" rest = 0 →
  (count_char "_" id = 0 →
   network_protein_id (dir +:+ "/" +:+ id +:+ "_" +:+ rest) = id) ∧
  (count_char "." id = 0 → count_char "." rest = 0 →
   sequence_protein_id (dir +:+ "/" +:+ id +:+ "." +:+ rest) = Ok id).
Proof.
  intros Hid Hrest. split.
  - intros Hu. unfold network_protein_id. rewrite file_of_path_join.
    + change (id +:+ "_" +:+ rest) with (id +:+ String "_" rest).
      by rewrite split_app.
    + change (id +:+ "_" +:+ rest) with (id +:+ String "_" rest).
      rewrite count_char_app. simpl. lia.
  - intros Hd Hd'. unfold sequence_protein_id. rewrite file_of_path_join.
    + change (id +:+ "." +:+ rest) with (id +:+ String "." rest).
      by rewrite split_app, split_absent.
    + change (id +:+ "." +:+ rest) with (id +:+ String "." rest).
      rewrite count_char_app. simpl. lia.
Qed.

(** The unpacking of line 51 succeeds exactly on a file name with one
    dot, and gives the part before the dot. *)
Lemma sequence_protein_id_dots (file_name : string) :
  sequence_protein_id file_name
  = if decide (count_char "." (file_of_path file_name) = 1)
    then Ok (hd EmptyString (split "." (file_of_path file_name)))
    else Raise ValueError.
Proof.
  unfold sequence_protein_id.
  pose proof (split_length "." (file_of_path file_name)) as Hlen.
  destruct (split "." (file_of_path file_name)) as [|a [|b [|c rest]]];
    simpl in Hlen; case_decide; try lia; done.
Qed.

Lemma dict_set_set `{EqDecision K} {V} (k : K) (v v' : V) (d : odict K V) :
  dict_set k v' (dict_set k v d) = dict_set k v' d.
Proof.
  induction d as [|[k1 v1] d IHd]; simpl.
  - by rewrite decide_True.
  - case_decide; simpl; [by rewrite decide_True|].
    rewrite decide_False by done. by rewrite IHd.
Qed.

Section LoaderProperties.
Context {DMIMatch : Type}.
Variable network_path prot_path : string.
Variable glob : string → list string.
Variable read_lines : string → result (list string).
Variable new_Protein : string → Protein.
Variable set_sequence : string → Protein → Protein.
Implicit Types ih : @InterfaceHandling DMIMatch.
Implicit Types st : @loader_state DMIMatch.

(** X17 (file names the loader rejects).  A file of the sequence
    directory whose name does not have exactly one dot stops the loader,
    on every state and whether or not the protein has network
    information: the name is unpacked before the filter is applied. *)
Theorem loader_bad_name_aborts (file_name : string) ih :
  file_name ∈ glob (prot_path +:+ "/*") →
  count_char "." (file_of_path file_name) ≠ 1 →
  ∃ e ih',
    read_in_proteins_with_network network_path prot_path glob read_lines
      new_Protein set_sequence ih = (Raise e, ih').
Proof.
  intros Hin Hdots. unfold read_in_proteins_with_network.
  assert (Hraise : ∀ st, ∃ e st',
            read_sequence_file network_path glob read_lines new_Protein
              set_sequence file_name st = (Raise e, st')).
  { intros st. exists ValueError, st. unfold read_sequence_file, bind, lift_result.
    by rewrite sequence_protein_id_dots, decide_False. }
  destruct (for_each_raises _ _ file_name Hin Hraise
              {| self := ih; protein_id := None |}) as (e & st & Hrun).
  rewrite Hrun. eauto.
Qed.

(** X18 (the network filter).  Whether the loader completes or raises,
    it changes the protein dictionary only, and every key it adds is the
    text of a header line of a file of the sequence directory whose name
    gives the id of a protein with network information.  The key is the
    header text, not the id in the file name. *)
Theorem loader_keys ih :
  ∃ r d,
    read_in_proteins_with_network network_path prot_path glob read_lines
      new_Protein set_sequence ih = (r, set_proteins_dict d ih) ∧
    ∀ k, k ∈ dict_keys d →
      k ∈ dict_keys (proteins_dict ih) ∨
      ∃ file_name prot_id lines,
        file_name ∈ glob (prot_path +:+ "/*") ∧
        sequence_protein_id file_name = Ok prot_id ∧
        prot_id ∈ proteins_with_networks network_path glob ∧
        read_lines file_name = Ok lines ∧
        String ">" k ∈ lines.
Proof.
  set (I := λ st,
         self st = set_proteins_dict (proteins_dict (self st)) ih ∧
         ∀ k, k ∈ dict_keys (proteins_dict (self st)) →
           k ∈ dict_keys (proteins_dict ih) ∨
           ∃ file_name prot_id lines,
             file_name ∈ glob (prot_path +:+ "/*") ∧
             sequence_protein_id file_name = Ok prot_id ∧
             prot_id ∈ proteins_with_networks network_path glob ∧
             read_lines file_name = Ok lines ∧
             String ">" k ∈ lines).
  assert (Hloop : I (for_each (glob (prot_path +:+ "/*"))
                       (read_sequence_file network_path glob read_lines
                          new_Protein set_sequence)
                       {| self := ih; protein_id := None |}).2).
  { apply for_each_inv; [|split; [by destruct ih|by left]].
    intros file_name st Hfile Hst. unfold read_sequence_file, bind, lift_result.
    destruct (sequence_protein_id file_name) as [prot_id|e] eqn:Hid; [|done].
    case_decide as Hnet; [|done].
    destruct (read_lines file_name) as [lines|e] eqn:Hlines; [|done].
    apply for_each_inv; [|done].
    intros line st' Hline [Hself Hkeys]. unfold read_line.
    destruct line as [|c rest]; [by split|].
    destruct (Ascii.eqb c ">") eqn:Hc.
    - apply Ascii.eqb_eq in Hc as ->. split; [by rewrite Hself|].
      simpl. intros k [->|Hk]%dict_keys_set; [|by apply Hkeys].
      right. by exists file_name, prot_id, lines.
    - destruct (protein_id st') as [id|]; [|by split].
      destruct (dict_get id (proteins_dict (self st'))) as [prot_inst|] eqn:Hget;
        [|by split].
      split; [by rewrite Hself|].
      simpl. intros k [->|Hk]%dict_keys_set; [|by apply Hkeys].
      apply Hkeys, dict_get_is_Some. by rewrite Hget. }
  unfold read_in_proteins_with_network.
  destruct (for_each _ _ _) as [r st]. destruct Hloop as [Hself Hkeys].
  simpl in Hself, Hkeys. exists r, (proteins_dict (self st)).
  split; [by rewrite <- Hself|done].
Qed.

(** X19 (one record of a sequence file).  A header line [>id] followed
    by sequence lines (not empty, not starting with [>]) is read without
    an exception; it binds [id] to a new [Protein], replacing any entry of
    that key, and assigns each sequence line in turn to that same
    protein. *)
Theorem read_record (id : string) (seq_lines : list string) st :
  forallb sequence_line seq_lines = true →
  for_each (String ">" id :: seq_lines) (read_line new_Protein set_sequence) st
  = (Ok tt,
     {| self := set_proteins_dict
                  (dict_set id
                     (foldl (λ prot_inst line, set_sequence line prot_inst)
                            (new_Protein id) seq_lines)
                     (proteins_dict (self st)))
                  (self st);
        protein_id := Some id |}).
Proof.
  intros Hlines. cbn [for_each]. unfold bind at 1, read_line at 1.
  change (Ascii.eqb ">" ">") with true. cbv beta iota.
  generalize (new_Protein id) as prot_inst. revert Hlines.
  induction seq_lines as [|line seq_lines IHl]; intros Hlines prot_inst; [done|].
  cbn [forallb] in Hlines. apply andb_true_iff in Hlines as [Hline Hlines].
  cbn [for_each foldl]. unfold bind at 1, read_line at 1.
  destruct line as [|c rest]; [done|]. simpl in Hline.
  apply negb_true_iff in Hline. rewrite Hline. cbn [protein_id self proteins_dict
    set_proteins_dict].
  rewrite dict_get_set, decide_True by done.
  rewrite <- (IHl Hlines (set_sequence (String c rest) prot_inst)).
  by rewrite dict_set_set.
Qed.

End LoaderProperties.

(** * The theorems at work on the scenarios *)

Lemma example_matcher_frame : matcher_frame example_matcher.
Proof. intros ih. by repeat split. Qed.

Lemma example_matcher_adds_no_pair : matcher_adds_no_pair example_matcher.
Proof.
  intros ih k. unfold example_matcher, dict_keys; simpl.
  by rewrite <- list_fmap_compose.
Qed.

Lemma three_matched_keys_NoDup :
  NoDup (dict_keys (protein_pairs_dict three_matched_IH)).
Proof. apply (bool_decide_unpack _). vm_compute. exact I. Qed.

(** The two scenarios of the specification on three matched pairs: a
    target count of 2 selects two instances from distinct pairs, a target
    count of 4 selects one instance from each of the three pairs. *)
Lemma selection_count_law_witness :
  NoDup (dict_keys (protein_pairs_dict three_matched_IH)) ∧
  all_matched "ELM001" (protein_pairs_dict three_matched_IH) = true ∧
  (∃ added w',
     select_RRS_instances "ELM001" 2
       {| IH := three_matched_IH; RRS_instances := []; rand := [2; 0] |} = (Ok tt, w') ∧
     RRS_instances w' = added ∧ length added = 2 ∧ NoDup (inst_pair <$> added)) ∧
  (∃ added w',
     select_RRS_instances "ELM001" 4
       {| IH := three_matched_IH; RRS_instances := []; rand := [2; 0] |} = (Ok tt, w') ∧
     RRS_instances w' = added ∧ length added = 3 ∧
     inst_pair <$> added = [("P1", "P4"); ("P1", "P5"); ("P3", "P4")]).
Proof.
  split; [exact three_matched_keys_NoDup|]. split; [reflexivity|]. split.
  - destruct (selection_count_law "ELM001" 2
                {| IH := three_matched_IH; RRS_instances := []; rand := [2; 0] |}
                three_matched_keys_NoDup eq_refl)
      as (_ & added & w' & Hrun & _ & HR & Hlen & _ & Hnd & _).
    exists added, w'. split; [exact Hrun|]. split; [exact HR|].
    split; [|exact Hnd]. apply Hlen. vm_compute. lia.
  - destruct (selection_count_law "ELM001" 4
                {| IH := three_matched_IH; RRS_instances := []; rand := [2; 0] |}
                three_matched_keys_NoDup eq_refl)
      as (_ & added & w' & Hrun & _ & HR & _ & Hall & _).
    exists added, w'. split; [exact Hrun|]. split; [exact HR|].
    apply Hall. vm_compute. lia.
Defined.

(** C2.  A DMI type with two domain interfaces (domain groups [P1] and
    [P2], motif group [P4], every candidate pair matched, target count
    4): the candidate dictionary is reset once per DMI type and the
    selection runs once per interface, so the second selection draws
    again from the pair (P1, P4) of the first interface, and the
    replicate's collection holds two instances of that pair. *)
Theorem duplicate_pair_over_two_interfaces :
  ∃ w',
    make_random_protein_pairs_with_groups_select_RRS_instances example_matcher 4
      {| IH := two_interface_IH; RRS_instances := []; rand := [7; 3; 5; 1] |}
    = (Ok tt, w') ∧
    inst_pair <$> RRS_instances w' = [("P1", "P4"); ("P1", "P4"); ("P2", "P4")] ∧
    inst_slim <$> RRS_instances w' = ["ELM001"; "ELM001"; "ELM001"] ∧
    ¬ NoDup (inst_pair <$> RRS_instances w').
Proof.
  eexists. split; [vm_compute; reflexivity|].
  split; [reflexivity|]. split; [reflexivity|].
  simpl. intros [Hnot _]%NoDup_cons. apply Hnot. left.
Qed.

(** C1.  The same DMI type with two domain interfaces has M = 2 distinct
    matched pairs, (P1, P4) and (P2, P4), and its sampling round runs the
    selection once per interface, on the dictionary accumulated so far.
    With a target count of 1 (M ≥ T) the replicate holds 2 instances of
    the type, not 1; with a target count of 4 (M < T) it holds 3, not
    2. *)
Theorem count_law_broken_over_two_interfaces :
  ∃ w1 w4,
    make_random_protein_pairs_with_groups_select_RRS_instances example_matcher 1
      {| IH := two_interface_IH; RRS_instances := []; rand := [7; 3; 5; 1] |}
    = (Ok tt, w1) ∧
    dict_keys (protein_pairs_dict (IH w1)) = [("P1", "P4"); ("P2", "P4")] ∧
    matched_count "ELM001" (protein_pairs_dict (IH w1)) = 2 ∧
    inst_pair <$> RRS_instances w1 = [("P1", "P4"); ("P2", "P4")] ∧
    length (RRS_instances w1) = 2 ∧
    make_random_protein_pairs_with_groups_select_RRS_instances example_matcher 4
      {| IH := two_interface_IH; RRS_instances := []; rand := [7; 3; 5; 1] |}
    = (Ok tt, w4) ∧
    dict_keys (protein_pairs_dict (IH w4)) = [("P1", "P4"); ("P2", "P4")] ∧
    matched_count "ELM001" (protein_pairs_dict (IH w4)) = 2 ∧
    inst_pair <$> RRS_instances w4 = [("P1", "P4"); ("P1", "P4"); ("P2", "P4")] ∧
    length (RRS_instances w4) = 3.
Proof.
  eexists _, _. split; [vm_compute; reflexivity|].
  do 4 (split; [reflexivity|]).
  split; [vm_compute; reflexivity|].
  do 3 (split; [reflexivity|]). reflexivity.
Qed.


(** The replicate of the specification's scenario never draws from the
    known pair (P2, P4). *)
Lemma known_PPI_exclusion_witness :
  matcher_frame example_matcher ∧ matcher_adds_no_pair example_matcher ∧
  ∃ added,
    RRS_instances
      (make_random_protein_pairs_with_groups_select_RRS_instances
         example_matcher 4 (scenario_world [3; 1])).2 = [] ++ added ∧
    Forall (λ i, (inst_pair i ∉ known_PPIs scenario_IH) ∧
                 sorted_pair (inst_pair i) = inst_pair i) added.
Proof.
  split; [exact example_matcher_frame|].
  split; [exact example_matcher_adds_no_pair|].
  exact (proj2 (proj1 (proj2 (known_PPI_exclusion example_matcher 4
                                example_matcher_frame example_matcher_adds_no_pair))
                  (scenario_world [3; 1]))).
Defined.

(** Two replicates of the specification's scenario leave the shared
    indexes as they were. *)
Lemma replicate_frame_witness :
  matcher_frame example_matcher ∧
  shared_eq scenario_IH
    (run_replicates example_matcher 4 ["RRSv3_1"; "RRSv3_2"] scenario_IH [3; 1]).1.2.
Proof.
  split; [exact example_matcher_frame|].
  exact (proj1 (replicate_frame example_matcher 4 ["RRSv3_1"; "RRSv3_2"]
                  scenario_IH [3; 1] example_matcher_frame)).
Defined.

(** A round on an empty domain group changes nothing. *)
Lemma empty_group_round_witness :
  dict_get (group_key (inl "PF001")) (domain_groups (IH empty_domain_group_world))
  = Some [] ∧
  round_with_groups example_matcher "ELM001" [] ["P4"; "P5"] 4
    empty_domain_group_world = (Ok tt, empty_domain_group_world) ∧
  interface_round example_matcher "ELM001" ["P4"; "P5"] 4 (inl "PF001")
    empty_domain_group_world = (Ok tt, empty_domain_group_world).
Proof.
  split; [reflexivity|].
  destruct (empty_group_round example_matcher "ELM001" [] ["P4"; "P5"] 4
              empty_domain_group_world (or_introl eq_refl)) as [Hround Hinterface].
  split; [exact Hround|]. exact (Hinterface (inl "PF001") eq_refl).
Defined.

Lemma one_unmatched_keys_NoDup :
  NoDup (dict_keys (protein_pairs_dict one_unmatched_IH)).
Proof. apply (bool_decide_unpack _). vm_compute. exact I. Qed.

(** With three matched pairs the selection completes on every random
    source; with one unmatched pair and a target count of 1 some random
    source makes it raise. *)
Lemma selection_totality_witness :
  (1 ≤ 4)%Z ∧
  NoDup (dict_keys (protein_pairs_dict three_matched_IH)) ∧
  (∀ rng, ∃ w',
     select_RRS_instances "ELM001" 4
       {| IH := three_matched_IH; RRS_instances := []; rand := rng |} = (Ok tt, w')) ∧
  (∃ rng e w',
     select_RRS_instances "ELM001" 1
       {| IH := one_unmatched_IH; RRS_instances := []; rand := rng |} = (Raise e, w')).
Proof.
  assert (H14 : (1 ≤ 4)%Z) by lia. assert (H11 : (1 ≤ 1)%Z) by lia.
  split; [exact H14|]. split; [exact three_matched_keys_NoDup|]. split.
  - exact (proj1 (selection_totality "ELM001" 4 three_matched_IH [] H14
                    three_matched_keys_NoDup) eq_refl).
  - exact (proj2 (selection_totality "ELM001" 1 one_unmatched_IH [] H11
                    one_unmatched_keys_NoDup) eq_refl).
Defined.

(** C10 as stated fails for a target count of 0: the candidate pair
    (P1, P4) has no recorded match, yet the selection step completes on
    every random source and leaves the state as it was, so no lookup is
    ever reached. *)
Lemma selection_completes_with_unmatched_pair :
  NoDup (dict_keys (protein_pairs_dict one_unmatched_IH)) ∧
  all_matched "ELM001" (protein_pairs_dict one_unmatched_IH) = false ∧
  ∀ rng,
    select_RRS_instances "ELM001" 0
      {| IH := one_unmatched_IH; RRS_instances := []; rand := rng |}
    = (Ok tt, {| IH := one_unmatched_IH; RRS_instances := []; rand := rng |}).
Proof.
  split; [exact one_unmatched_keys_NoDup|].
  split; [reflexivity|]. intros rng. reflexivity.
Qed.

Lemma groups_IH_keys_NoDup : NoDup (dict_keys (domain_groups groups_IH)).
Proof. apply (bool_decide_unpack _). vm_compute. exact I. Qed.

Lemma groups_IH_matches_NoDup :
  Forall (λ p, NoDup (domain_matches_dict p.2)) (proteins_dict groups_IH).
Proof. apply (bool_decide_unpack _). vm_compute. exact I. Qed.

(** Two proteins, three keys: P1 carries both domains, P2 only PF002. *)
Lemma group_membership_witness :
  NoDup (dict_keys (domain_groups groups_IH)) ∧
  Forall (λ p, NoDup (domain_matches_dict p.2)) (proteins_dict groups_IH) ∧
  ∃ ih',
    add_proteins_to_groups groups_IH = (Ok tt, ih') ∧
    dict_get ["PF001"] (domain_groups ih') = Some ["P1"] ∧
    dict_get ["PF002"] (domain_groups ih') = Some ["P1"; "P2"] ∧
    dict_get ["PF001"; "PF002"] (domain_groups ih') = Some ["P1"].
Proof.
  split; [exact groups_IH_keys_NoDup|]. split; [exact groups_IH_matches_NoDup|].
  destruct (group_membership (DMIMatch := string) groups_IH
              groups_IH_keys_NoDup groups_IH_matches_NoDup)
    as (ih' & Hrun & _ & Hget & _).
  exists ih'. split; [exact Hrun|].
  split; [exact (Hget ["PF001"] [] eq_refl)|].
  split; [exact (Hget ["PF002"] [] eq_refl)|exact (Hget ["PF001"; "PF002"] [] eq_refl)].
Defined.

(** C6.  A protein whose only domain id is the empty string, and a DMI
    type whose interface is that domain: the domain of the registered key
    is in the protein's match set, so the claimed condition puts P1 in the
    group; but the guard of line 78 tests the truth value of the ids, not
    whether there is one, so the builder skips the protein and the group
    stays empty. *)
Lemma empty_identifier_not_grouped :
  spec_members [""] (proteins_dict (DMIMatch := string) empty_id_IH) = ["P1"] ∧
  ∃ ih',
    get_domain_groups empty_id_IH = (Ok tt, ih') ∧
    dict_get [""] (domain_groups ih') = Some [].
Proof.
  split; [reflexivity|]. eexists. split; [vm_compute; reflexivity|reflexivity].
Qed.

Lemma unbuilt_matches_NoDup :
  Forall (λ p, NoDup (domain_matches_dict p.2)) (proteins_dict unbuilt_IH).
Proof. apply (bool_decide_unpack _). vm_compute. exact I. Qed.

Lemma unbuilt_slim_matches_NoDup :
  Forall (λ p, NoDup (slim_matches_dict p.2)) (proteins_dict unbuilt_IH).
Proof. apply (bool_decide_unpack _). vm_compute. exact I. Qed.

Lemma stale_groups_keys_NoDup : NoDup (dict_keys (domain_groups stale_groups_IH)).
Proof. apply (bool_decide_unpack _). vm_compute. exact I. Qed.

Lemma unbuilt_groups_keys_NoDup : NoDup (dict_keys (domain_groups unbuilt_IH)).
Proof. apply NoDup_nil_2. Qed.

Lemma unbuilt_types_keys_NoDup : NoDup (dict_keys (dmi_types_dict unbuilt_IH)).
Proof. apply (bool_decide_unpack _). vm_compute. exact I. Qed.

(** On stale domain groups the builder replaces the stale member P9 of
    the registered key PF001 and keeps the group of the unregistered key
    PF777. *)
Lemma get_domain_groups_result_witness :
  types_have_interfaces (dmi_types_dict stale_groups_IH) = true ∧
  NoDup (dict_keys (domain_groups stale_groups_IH)) ∧
  Forall (λ p, NoDup (domain_matches_dict p.2)) (proteins_dict stale_groups_IH) ∧
  ∃ g,
    get_domain_groups stale_groups_IH = (Ok tt, set_domain_groups g stale_groups_IH) ∧
    dict_get ["PF001"] g = Some ["P1"] ∧
    dict_get ["PF002"] g = Some ["P1"; "P2"] ∧
    dict_get ["PF777"] g = Some ["P8"].
Proof.
  split; [reflexivity|]. split; [exact stale_groups_keys_NoDup|].
  split; [exact unbuilt_matches_NoDup|].
  destruct (get_domain_groups_result (DMIMatch := string) stale_groups_IH eq_refl
              stale_groups_keys_NoDup unbuilt_matches_NoDup)
    as (g & Hrun & _ & _ & Hreg & Hold).
  assert (H1 : ["PF001"] ∈ all_registered_keys (dmi_types_dict stale_groups_IH))
    by (apply (bool_decide_unpack _); vm_compute; exact I).
  assert (H2 : ["PF002"] ∈ all_registered_keys (dmi_types_dict stale_groups_IH))
    by (apply (bool_decide_unpack _); vm_compute; exact I).
  assert (H7 : ["PF777"] ∉ all_registered_keys (dmi_types_dict stale_groups_IH))
    by (apply (bool_decide_unpack _); vm_compute; exact I).
  exists g. split; [exact Hrun|].
  split; [exact (proj1 (Hreg ["PF001"] H1))|].
  split; [exact (proj1 (Hreg ["PF002"] H2))|].
  exact (Hold ["PF777"] ["P8"] H7 eq_refl).
Defined.

(** Building the domain groups of the three proteins twice gives what
    building them once gives. *)
Lemma get_domain_groups_idempotent_witness :
  NoDup (dict_keys (domain_groups unbuilt_IH)) ∧
  Forall (λ p, NoDup (domain_matches_dict p.2)) (proteins_dict unbuilt_IH) ∧
  dict_keys (domain_groups unbuilt_IH) ⊆ all_registered_keys (dmi_types_dict unbuilt_IH) ∧
  get_domain_groups unbuilt_IH = (Ok tt, (get_domain_groups unbuilt_IH).2) ∧
  get_domain_groups (get_domain_groups unbuilt_IH).2
  = (Ok tt, (get_domain_groups unbuilt_IH).2).
Proof.
  assert (Hsub : dict_keys (domain_groups unbuilt_IH)
                 ⊆ all_registered_keys (dmi_types_dict unbuilt_IH))
    by (by intros x ?%elem_of_nil).
  assert (Hrun : get_domain_groups unbuilt_IH
                 = (Ok tt, (get_domain_groups unbuilt_IH).2)) by reflexivity.
  split; [exact unbuilt_groups_keys_NoDup|]. split; [exact unbuilt_matches_NoDup|].
  split; [exact Hsub|]. split; [exact Hrun|].
  exact (get_domain_groups_idempotent (DMIMatch := string) unbuilt_IH
           (get_domain_groups unbuilt_IH).2
           unbuilt_groups_keys_NoDup unbuilt_matches_NoDup Hsub Hrun).
Defined.

(** The motif groups of the three proteins: P2 carries no motif, P3
    carries both. *)
Lemma get_slim_groups_result_witness :
  Forall (λ p, NoDup (slim_matches_dict p.2)) (proteins_dict unbuilt_IH) ∧
  looked_up_slim_ids (proteins_dict unbuilt_IH)
  ⊆ dict_keys (dmi_types_dict unbuilt_IH) ++ dict_keys (slim_groups unbuilt_IH) ∧
  ∃ g,
    get_slim_groups unbuilt_IH = (Ok tt, set_slim_groups g unbuilt_IH) ∧
    dict_get "ELM001" g = Some ["P1"; "P3"] ∧
    dict_get "ELM002" g = Some ["P3"] ∧
    dict_keys g = ["ELM001"; "ELM002"].
Proof.
  assert (Hsub : looked_up_slim_ids (proteins_dict (DMIMatch := string) unbuilt_IH)
                 ⊆ dict_keys (dmi_types_dict (DMIMatch := string) unbuilt_IH)
                   ++ dict_keys (slim_groups (DMIMatch := string) unbuilt_IH))
    by (apply (bool_decide_unpack _); vm_compute; exact I).
  assert (H1 : "ELM001" ∈ dict_keys (dmi_types_dict (DMIMatch := string) unbuilt_IH))
    by (apply (bool_decide_unpack _); vm_compute; exact I).
  assert (H2 : "ELM002" ∈ dict_keys (dmi_types_dict (DMIMatch := string) unbuilt_IH))
    by (apply (bool_decide_unpack _); vm_compute; exact I).
  split; [exact unbuilt_slim_matches_NoDup|]. split; [exact Hsub|].
  destruct (get_slim_groups_result (DMIMatch := string) unbuilt_IH
              unbuilt_slim_matches_NoDup Hsub)
    as (g & Hrun & _ & Hreg & _ & Hkeys).
  exists g. split; [exact Hrun|].
  split; [exact (Hreg "ELM001" H1)|]. split; [exact (Hreg "ELM002" H2)|].
  exact (Hkeys eq_refl unbuilt_types_keys_NoDup).
Defined.

(** The type ELM002 has two interfaces of one domain id each: once the
    domain groups are built, both of its lookups succeed. *)
Lemma builder_resolves_interfaces_witness :
  get_domain_groups unbuilt_IH = (Ok tt, (get_domain_groups unbuilt_IH).2) ∧
  lookup_outcome (get_domain_groups unbuilt_IH).2 "ELM002" = Ok tt ∧
  ∃ domains,
    domains_of {| domain_interfaces := [{| domain_dict := ["PF001"] |};
                                        {| domain_dict := ["PF002"] |}] |}
    = Ok domains ∧
    Forall (λ domain,
              dict_get (group_key domain) (domain_groups (get_domain_groups unbuilt_IH).2)
              = Some (guarded_members (group_key domain)
                        (proteins_dict (DMIMatch := string) unbuilt_IH)))
           domains.
Proof.
  assert (Hrun : get_domain_groups unbuilt_IH
                 = (Ok tt, (get_domain_groups unbuilt_IH).2)) by reflexivity.
  split; [exact Hrun|].
  destruct (builder_resolves_interfaces (DMIMatch := string) unbuilt_IH
              (get_domain_groups unbuilt_IH).2 "ELM002"
              {| domain_interfaces := [{| domain_dict := ["PF001"] |};
                                       {| domain_dict := ["PF002"] |}] |}
              Hrun unbuilt_groups_keys_NoDup unbuilt_matches_NoDup)
    as [Hdomains Hlookup].
  { apply list_elem_of_further, list_elem_of_here. }
  { intros _. repeat constructor. }
  split; [exact (Hlookup unbuilt_types_keys_NoDup)|exact Hdomains].
Defined.

(** A target count of -1: the selection raises [ValueError] on three
    matched pairs, and the replicate of the specification's scenario
    appends nothing. *)
Lemma nonpositive_target_witness :
  (-1 ≤ 0)%Z ∧
  select_RRS_instances "ELM001" (-1)
    {| IH := three_matched_IH; RRS_instances := []; rand := [2; 0] |}
  = (Raise ValueError,
     {| IH := three_matched_IH; RRS_instances := []; rand := [2; 0] |}) ∧
  RRS_instances
    (make_random_protein_pairs_with_groups_select_RRS_instances
       example_matcher (-1) (scenario_world [3; 1])).2 = [].
Proof.
  assert (H : (-1 ≤ 0)%Z) by lia.
  split; [exact H|]. split.
  - exact (proj1 (nonpositive_target example_matcher (-1) H) "ELM001"
             {| IH := three_matched_IH; RRS_instances := []; rand := [2; 0] |}).
  - exact (proj2 (nonpositive_target example_matcher (-1) H) (scenario_world [3; 1])).
Defined.

(** The type ELM003 has two interfaces, the first of two domain ids: the
    builder registers the pair (PF003, PF004), the engine looks up PF003
    alone, and the replicate raises although P1 carries every domain. *)
Lemma unresolved_type_aborts_witness :
  matcher_frame example_matcher ∧
  domain_groups (built two_domain_interface_IH)
  = [(["PF003"; "PF004"], ["P1"]); (["PF005"], ["P1"])] ∧
  slim_groups (built two_domain_interface_IH) = [("ELM003", ["P4"])] ∧
  lookup_outcome (built two_domain_interface_IH) "ELM003" = Raise KeyError ∧
  ∃ e w',
    make_random_protein_pairs_with_groups_select_RRS_instances example_matcher 4
      {| IH := built two_domain_interface_IH; RRS_instances := []; rand := [3; 1] |}
    = (Raise e, w').
Proof.
  assert (Hin : "ELM003" ∈ dict_keys (slim_groups (built two_domain_interface_IH)))
    by (apply (bool_decide_unpack _); vm_compute; exact I).
  split; [exact example_matcher_frame|]. split; [reflexivity|].
  split; [reflexivity|]. split; [reflexivity|].
  exact (unresolved_type_aborts example_matcher 4 "ELM003" KeyError
           {| IH := built two_domain_interface_IH; RRS_instances := [];
              rand := [3; 1] |}
           example_matcher_frame Hin eq_refl).
Defined.

(** The replicate on the type with two interfaces: one block, of
    instances of ELM001, of at most 2 times 4 instances. *)
Lemma replicate_grouped_by_type_witness :
  matcher_frame example_matcher ∧
  ∃ blocks,
    RRS_instances
      (make_random_protein_pairs_with_groups_select_RRS_instances example_matcher 4
         {| IH := two_interface_IH; RRS_instances := []; rand := [7; 3; 5; 1] |}).2
    = [] ++ mjoin blocks ∧
    Forall2 (λ item block,
               Forall (λ i, inst_slim i = item.1) block ∧
               length block ≤ interface_count two_interface_IH item.1 * Z.to_nat 4)
            (take (length blocks) (slim_groups two_interface_IH)) blocks.
Proof.
  split; [exact example_matcher_frame|].
  destruct (replicate_grouped_by_type example_matcher 4
              {| IH := two_interface_IH; RRS_instances := []; rand := [7; 3; 5; 1] |}
              example_matcher_frame) as (blocks & HR & HF & _).
  exists blocks. split; [exact HR|exact HF].
Defined.

(** The network file of P12345 and its sequence file. *)
Lemma file_name_conventions_witness :
  count_char "/" "P12345" = 0 ∧ count_char "_" "P12345" = 0 ∧
  count_char "." "P12345" = 0 ∧
  network_protein_id "networks/P12345_network.txt" = "P12345" ∧
  sequence_protein_id "sequences/P12345.fasta" = Ok "P12345".
Proof.
  split; [reflexivity|]. split; [reflexivity|]. split; [reflexivity|]. split.
  - exact (proj1 (file_name_conventions "networks" "P12345" "network.txt"
                    eq_refl eq_refl) eq_refl).
  - exact (proj2 (file_name_conventions "sequences" "P12345" "fasta"
                    eq_refl eq_refl) eq_refl eq_refl).
Defined.

(** The file README of the sequence directory stops the loader, after
    P1 has been read. *)
Lemma loader_bad_name_aborts_witness :
  "sequences/README" ∈ example_glob ("sequences" +:+ "/*") ∧
  count_char "." (file_of_path "sequences/README") ≠ 1 ∧
  ∃ e ih',
    read_in_proteins_with_network "networks" "sequences" example_glob
      example_read_lines example_new_Protein example_set_sequence unbuilt_IH
    = (Raise e, ih').
Proof.
  assert (Hin : "sequences/README" ∈ example_glob ("sequences" +:+ "/*"))
    by (apply (bool_decide_unpack _); vm_compute; exact I).
  assert (Hdots : count_char "." (file_of_path "sequences/README") ≠ 1)
    by (vm_compute; lia).
  split; [exact Hin|]. split; [exact Hdots|].
  exact (loader_bad_name_aborts (DMIMatch := string) "networks" "sequences"
           example_glob example_read_lines example_new_Protein example_set_sequence
           "sequences/README" unbuilt_IH Hin Hdots).
Defined.

(** The record of P1, with a sequence of two lines. *)
Lemma read_record_witness :
  forallb sequence_line ["MKV"; "LLA"] = true ∧
  for_each [">P1"; "MKV"; "LLA"] (read_line example_new_Protein example_set_sequence)
    {| self := scenario_IH; protein_id := None |}
  = (Ok tt,
     {| self := set_proteins_dict
                  [("P1", example_set_sequence "LLA"
                            (example_set_sequence "MKV" (example_new_Protein "P1")))]
                  scenario_IH;
        protein_id := Some "P1" |}).
Proof.
  split; [reflexivity|].
  exact (read_record (DMIMatch := string) example_new_Protein example_set_sequence
           "P1" ["MKV"; "LLA"] {| self := scenario_IH; protein_id := None |} eq_refl).
Defined.

Lemma example_matcher_all_matched (ih : @InterfaceHandling string) :
  all_matched "ELM001" (protein_pairs_dict (example_matcher ih).2) = true.
Proof.
  unfold example_matcher, all_matched; simpl.
  induction (protein_pairs_dict ih) as [|entry d IHd]; [done|].
  rewrite fmap_cons. cbn [forallb]. by rewrite IHd.
Qed.

(** The replicate of the specification's scenario completes on every
    random source. *)
Lemma replicate_completes_witness :
  matcher_frame example_matcher ∧ (0 ≤ 4)%Z ∧
  lookup_outcome scenario_IH "ELM001" = Ok tt ∧
  ∀ rng, ∃ w',
    make_random_protein_pairs_with_groups_select_RRS_instances example_matcher 4
      (scenario_world rng) = (Ok tt, w') ∧
    shared_eq scenario_IH (IH w').
Proof.
  assert (HT : (0 ≤ 4)%Z) by lia.
  split; [exact example_matcher_frame|]. split; [exact HT|].
  split; [reflexivity|]. intros rng.
  apply (replicate_completes example_matcher 4 (scenario_world rng)
           example_matcher_frame).
  - intros ih _. split; [reflexivity|].
    intros slim_id Hin. apply list_elem_of_singleton in Hin. subst slim_id.
    apply example_matcher_all_matched.
  - exact HT.
  - intros slim_id Hin. apply list_elem_of_singleton in Hin. subst slim_id.
    reflexivity.
Defined.

(** Domain group P1, P2 and motif group P1, P4 in the specification's
    scenario, where (P2, P4) is a known PPI: P1 is paired with itself,
    (P2, P1) is entered as (P1, P2), and (P2, P4) is not entered. *)
Lemma candidate_generation_witness :
  ∃ d w',
    (let* random_protein_pair := draw_protein_pairs ["P1"; "P2"] ["P1"; "P4"] in
     for_each random_protein_pair add_candidate) (scenario_world [])
    = (Ok tt, w') ∧
    IH w' = set_protein_pairs_dict d scenario_IH ∧
    ("P1", "P1") ∈ dict_keys d ∧
    ("P1", "P2") ∈ dict_keys d ∧
    ("P2", "P4") ∉ dict_keys d.
Proof.
  destruct (candidate_generation ["P1"; "P2"] ["P1"; "P4"] (scenario_world []))
    as (d & w' & Hrun & Hih & _ & _ & Hfrom & Hsmall).
  destruct Hsmall as (_ & Hprod & Hself); [simpl; lia|].
  assert (H1d : "P1" ∈ ["P1"; "P2"]) by apply list_elem_of_here.
  assert (H2d : "P2" ∈ ["P1"; "P2"]) by apply list_elem_of_further, list_elem_of_here.
  assert (H1s : "P1" ∈ ["P1"; "P4"]) by apply list_elem_of_here.
  assert (H11 : ("P1", "P1") ∉ known_PPIs (IH (scenario_world [])))
    by (apply (bool_decide_unpack _); vm_compute; exact I).
  assert (H12 : sorted_pair ("P2", "P1") ∉ known_PPIs (IH (scenario_world [])))
    by (apply (bool_decide_unpack _); vm_compute; exact I).
  assert (H24 : ("P2", "P4") ∈ known_PPIs (IH (scenario_world [])))
    by (apply (bool_decide_unpack _); vm_compute; exact I).
  exists d, w'. split; [exact Hrun|]. split; [exact Hih|].
  split; [exact (Hself "P1" H1d H1s H11)|].
  split; [exact (Hprod "P2" "P1" H2d H1s H12)|].
  intros Hin. destruct (Hfrom _ Hin) as [Hold|[Hnot _]].
  - by apply elem_of_nil in Hold.
  - exact (Hnot H24).
Defined.

Lemma two_domain_types_keys_NoDup :
  NoDup (dict_keys (dmi_types_dict two_domain_interface_IH)).
Proof. apply (bool_decide_unpack _). vm_compute. exact I. Qed.

(** The first interface of ELM003 is registered as (PF003, PF004); PF003
    alone is no key, so the lookups of ELM003 fail once the groups are
    built. *)
Lemma first_domain_not_registered_witness :
  get_domain_groups two_domain_interface_IH
  = (Ok tt, (get_domain_groups two_domain_interface_IH).2) ∧
  (["PF003"] ∉ all_registered_keys (dmi_types_dict two_domain_interface_IH)) ∧
  ∃ e, lookup_outcome (get_domain_groups two_domain_interface_IH).2 "ELM003" = Raise e.
Proof.
  assert (Hrun : get_domain_groups two_domain_interface_IH
                 = (Ok tt, (get_domain_groups two_domain_interface_IH).2))
    by reflexivity.
  assert (Hreg : ["PF003"] ∉ all_registered_keys
                               (dmi_types_dict two_domain_interface_IH))
    by (apply (bool_decide_unpack _); vm_compute; exact I).
  assert (Hold : ["PF003"] ∉ dict_keys (domain_groups two_domain_interface_IH))
    by apply not_elem_of_nil.
  assert (Hlen : 1 < 2) by lia.
  split; [exact Hrun|]. split; [exact Hreg|].
  exact (first_domain_not_registered (DMIMatch := string) two_domain_interface_IH
           (get_domain_groups two_domain_interface_IH).2 "ELM003"
           {| domain_interfaces := [{| domain_dict := ["PF003"; "PF004"] |};
                                    {| domain_dict := ["PF005"] |}] |}
           {| domain_dict := ["PF003"; "PF004"] |} "PF003"
           Hrun two_domain_types_keys_NoDup (list_elem_of_here _ _) Hlen
           (list_elem_of_here _ _) eq_refl Hreg Hold).
Defined.

